(** * one-backend-go: the session / token lifecycle

    A shallow embedding of the authentication core of the food service API
    (packages [internal/domain/auth] and [internal/domain/user]) together
    with the parts of the libraries it calls, and the properties of the
    specification that are stated about it.

    Conventions.
    - A Go [string] is a [string]; [time.Time] and [time.Duration] are
      integers counting nanoseconds ([Z], UTC, since the Unix epoch).
    - A function returning [(T, error)] returns [error + T]: [inl] is the
      non-nil error, [inr] the value.
    - The MongoDB collections are lists of documents in insertion order.
      The operations are the driver's single-document operations, each one
      atomic; index violations are modelled, network failures are not.
    - Readings of the clock, of [crypto/rand] and of the ObjectID generator
      are inputs supplied by the environment of a call ([Env]).
    - HMAC and bcrypt are symbolic: a MAC or a hash is the term that records
      what was authenticated or hashed, so that two of them are equal exactly
      when they were made from the same inputs. *)

From Stdlib Require Import List String Ascii ZArith NArith Bool Lia.
Import ListNotations.
Local Open Scope string_scope.
Local Open Scope Z_scope.

(* ===================================================================== *)
(** ** Go preliminaries: errors, time, ObjectID                           *)
(* ===================================================================== *)

(** The package-level error variables that the code compares against. *)
Inductive sentinel : Type :=
| ErrInvalidCredentials      (* user: "invalid email or password" *)
| ErrEmailExists             (* user: "email already exists" *)
| ErrInvalidRefreshToken     (* auth: "invalid or expired refresh token" *)
| ErrNoDocuments             (* mongo.ErrNoDocuments *)
| ErrDuplicateKey            (* a write error for which mongo.IsDuplicateKeyError holds *)
| ErrTokenMalformed          (* jwt *)
| ErrTokenUnverifiable       (* jwt *)
| ErrTokenSignatureInvalid   (* jwt *)
| ErrSignatureInvalid        (* jwt: what the Verify of a method returns *)
| ErrTokenInvalidClaims      (* jwt *)
| ErrTokenExpired            (* jwt *)
| ErrTokenNotValidYet        (* jwt *)
| ErrInvalidKeyType          (* jwt: the key does not fit the signing method *)
| ErrPasswordTooLong         (* bcrypt *)
| ErrRandRead.               (* the error of a failed crypto/rand.Read *)

(** A Go error: one of the variables above, or a value built by
    [fmt.Errorf] / [jwt.newError] with a message and the errors it wraps
    ([%w]); [Errorf msg []] is an error that wraps nothing. *)
#[warnings="-register-all"] Inductive error : Type :=
| Err (s : sentinel)
| Errorf (msg : string) (wrapped : list error).

Definition sentinel_eq_dec (a b : sentinel) : {a = b} + {a <> b}.
Proof. decide equality. Defined.

(** [errors.Is]: the target is the error or is reachable through [%w]. *)
Fixpoint errors_Is (e : error) (target : sentinel) : bool :=
  match e with
  | Err s => if sentinel_eq_dec s target then true else false
  | Errorf _ wrapped => existsb (fun e' => errors_Is e' target) wrapped
  end.

Definition Time : Type := Z.
Definition Duration : Type := Z.

Definition Millisecond : Duration := 1000000.
Definition Second : Duration := 1000000000.
Definition Minute : Duration := 60 * Second.

(** Seconds between the zero [time.Time] (year 1) and the Unix epoch. *)
Definition unixToInternal : Z := 62135596800.

(** [t.Add(d)]. *)
Definition Add (t : Time) (d : Duration) : Time := t + d.
(** [t.Before(u)] and [t.After(u)]. *)
Definition Before (t u : Time) : bool := t <? u.
Definition After (t u : Time) : bool := u <? t.

(** [t.Truncate(d)]: [t] rounded down to a multiple of [d] since the zero
    time; unchanged when [d <= 0]. *)
Definition Truncate (t : Time) (d : Duration) : Time :=
  if d <=? 0 then t else t - (t + unixToInternal * Second) mod d.

(** [primitive.ObjectID]: twelve bytes, read as a big-endian number. *)
Definition ObjectID : Type := N.

(** The zero [time.Time] and the zero ObjectID of a fresh struct. *)
Definition zeroTime : Time := - (unixToInternal * Second).
Definition NilObjectID : ObjectID := 0%N.

Definition hexdigit (n : N) : ascii :=
  nth (N.to_nat n)
      ["0";"1";"2";"3";"4";"5";"6";"7";"8";"9";"a";"b";"c";"d";"e";"f"]%char
      "0"%char.

Fixpoint hex_digits (k : nat) (n : N) (acc : string) : string :=
  match k with
  | O => acc
  | S k' => hex_digits k' (N.div n 16) (String (hexdigit (N.modulo n 16)) acc)
  end.

(** [id.Hex()]: the 24 lowercase hexadecimal digits of the twelve bytes. *)
Definition Hex (id : ObjectID) : string := hex_digits 24 id "".

Arguments Hex : simpl never.

(* ===================================================================== *)
(** ** github.com/golang-jwt/jwt/v5, as far as the code uses it           *)
(* ===================================================================== *)

Module jwt.

Inductive Hash : Type := SHA256 | SHA384 | SHA512.

(** The signing methods that the library registers, by their Go type. *)
Inductive SigningMethod : Type :=
| SigningMethodHMAC (h : Hash)       (* HS256, HS384, HS512 *)
| SigningMethodRSA (h : Hash)        (* RS256, RS384, RS512 *)
| SigningMethodRSAPSS (h : Hash)     (* PS256, PS384, PS512 *)
| SigningMethodECDSA (h : Hash)      (* ES256, ES384, ES512 *)
| SigningMethodEd25519               (* EdDSA *)
| signingMethodNone.                 (* none *)

Definition SigningMethodHS256 : SigningMethod := SigningMethodHMAC SHA256.
Definition SigningMethodHS384 : SigningMethod := SigningMethodHMAC SHA384.
Definition SigningMethodHS512 : SigningMethod := SigningMethodHMAC SHA512.

(** [method.Alg()]. *)
Definition Alg (m : SigningMethod) : string :=
  match m with
  | SigningMethodHMAC SHA256 => "HS256"
  | SigningMethodHMAC SHA384 => "HS384"
  | SigningMethodHMAC SHA512 => "HS512"
  | SigningMethodRSA SHA256 => "RS256"
  | SigningMethodRSA SHA384 => "RS384"
  | SigningMethodRSA SHA512 => "RS512"
  | SigningMethodRSAPSS SHA256 => "PS256"
  | SigningMethodRSAPSS SHA384 => "PS384"
  | SigningMethodRSAPSS SHA512 => "PS512"
  | SigningMethodECDSA SHA256 => "ES256"
  | SigningMethodECDSA SHA384 => "ES384"
  | SigningMethodECDSA SHA512 => "ES512"
  | SigningMethodEd25519 => "EdDSA"
  | signingMethodNone => "none"
  end.

Definition registered : list SigningMethod :=
  [ SigningMethodHMAC SHA256; SigningMethodHMAC SHA384; SigningMethodHMAC SHA512;
    SigningMethodRSA SHA256; SigningMethodRSA SHA384; SigningMethodRSA SHA512;
    SigningMethodRSAPSS SHA256; SigningMethodRSAPSS SHA384; SigningMethodRSAPSS SHA512;
    SigningMethodECDSA SHA256; SigningMethodECDSA SHA384; SigningMethodECDSA SHA512;
    SigningMethodEd25519; signingMethodNone ].

(** [jwt.GetSigningMethod(alg)]: [None] is Go's nil. *)
Definition GetSigningMethod (alg : string) : option SigningMethod :=
  find (fun m => String.eqb (Alg m) alg) registered.

(** [jwt.TimePrecision]. *)
Definition TimePrecision : Duration := Second.

(** [jwt.NewNumericDate(t)]. *)
Definition NewNumericDate (t : Time) : Time := Truncate t TimePrecision.

(** [jwt.RegisteredClaims]; a nil [*NumericDate] is [None]. The issuer,
    audience and id claims are left out: the code never sets them and the
    default validator does not look at them. *)
Record RegisteredClaims : Type := {
  Subject : string;
  ExpiresAt : option Time;
  NotBefore : option Time;
  IssuedAt : option Time
}.

(** The JOSE header of a token: the ["typ"] and ["alg"] entries; [None]
    is an entry that is absent or is not a JSON string. *)
Record JOSEHeader : Type := { typ : option string; alg : option string }.

(** The [jwt.Claims] interface, and equality of claims values (used only
    to compare symbolic signatures). *)
Class Claims (C : Type) : Type := {
  GetExpirationTime : C -> option Time;
  GetNotBefore : C -> option Time;
  GetIssuedAt : C -> option Time;
  claims_eq_dec : forall a b : C, {a = b} + {a <> b}
}.

Definition Hash_eq_dec (a b : Hash) : {a = b} + {a <> b}.
Proof. decide equality. Defined.

Definition JOSEHeader_eq_dec (a b : JOSEHeader) : {a = b} + {a <> b}.
Proof. repeat decide equality. Defined.

Section Parser.
Context {C : Type} `{Claims C}.

(** The signature segment of a token, decoded: the HMAC of the signing
    input (the encoded header and claims) under a key, or any other
    bytes. *)
Inductive Sig : Type :=
| HMACSig (h : Hash) (key : string) (hdr : JOSEHeader) (c : C)
| RawSig (bytes : string).

Definition Sig_eq_dec (a b : Sig) : {a = b} + {a <> b}.
Proof.
  decide equality;
    first [ apply claims_eq_dec | apply JOSEHeader_eq_dec
          | apply string_dec | apply Hash_eq_dec ].
Defined.

(** A token string, as the parser sees it: three base64url segments
    holding a JSON header, JSON claims that fit the claims type, and a
    signature; or anything else. *)
Inductive TokenString : Type :=
| Compact (hdr : JOSEHeader) (c : C) (sig : Sig)
| Malformed (raw : string).

(** [jwt.Token]. *)
Record Token : Type := {
  Method : SigningMethod;
  Header : JOSEHeader;
  TokenClaims : C;
  Signature : Sig;
  Valid : bool
}.

(** [jwt.NewWithClaims(method, claims)]. *)
Definition NewWithClaims (method : SigningMethod) (claims : C) : Token :=
  {| Method := method;
     Header := {| typ := Some "JWT"; alg := Some (Alg method) |};
     TokenClaims := claims;
     Signature := RawSig "";
     Valid := false |}.

(** [method.Sign(signingString, key)] with a byte-slice key. *)
Definition Sign (m : SigningMethod) (hdr : JOSEHeader) (c : C) (key : string)
  : error + Sig :=
  match m with
  | SigningMethodHMAC h => inr (HMACSig h key hdr c)
  | _ => inl (Err ErrInvalidKeyType)
  end.

(** [method.Verify(signingString, sig, key)] with a byte-slice key;
    [None] is a nil error. *)
Definition Verify (m : SigningMethod) (hdr : JOSEHeader) (c : C) (sig : Sig)
           (key : string) : option error :=
  match m with
  | SigningMethodHMAC h =>
      if Sig_eq_dec sig (HMACSig h key hdr c) then None
      else Some (Err ErrSignatureInvalid)
  | _ => Some (Err ErrInvalidKeyType)
  end.

(** [token.SignedString(key)]. *)
Definition SignedString (t : Token) (key : string) : error + TokenString :=
  match Sign (Method t) (Header t) (TokenClaims t) key with
  | inl err => inl err
  | inr sig => inr (Compact (Header t) (TokenClaims t) sig)
  end.

(** [parser.ParseUnverified]: the segments are decoded and the signing
    method is looked up by the header's ["alg"]. *)
Definition ParseUnverified (tokenString : TokenString) : error + Token :=
  match tokenString with
  | Malformed _ =>
      inl (Errorf "token is malformed" [Err ErrTokenMalformed])
  | Compact hdr c sig =>
      match alg hdr with
      | Some method =>
          match GetSigningMethod method with
          | Some m =>
              inr {| Method := m; Header := hdr; TokenClaims := c;
                     Signature := sig; Valid := false |}
          | None =>
              inl (Errorf "signing method (alg) is unavailable"
                          [Err ErrTokenUnverifiable])
          end
      | None =>
          inl (Errorf "signing method (alg) is unspecified"
                      [Err ErrTokenUnverifiable])
      end
  end.

(** The default [Validator]: no leeway, ["exp"] not required, ["iat"]
    not verified. [verifyExpiresAt] and [verifyNotBefore]. *)
Definition verifyExpiresAt (claims : C) (cmp : Time) : option error :=
  match GetExpirationTime claims with
  | None => None
  | Some exp => if Before cmp exp then None else Some (Err ErrTokenExpired)
  end.

Definition verifyNotBefore (claims : C) (cmp : Time) : option error :=
  match GetNotBefore claims with
  | None => None
  | Some nbf => if negb (Before cmp nbf) then None else Some (Err ErrTokenNotValidYet)
  end.

Definition opt_to_list {A : Type} (o : option A) : list A :=
  match o with Some a => [a] | None => [] end.

(** [validator.Validate(claims)] at the time [now]: the errors found,
    joined; [None] when there is none. *)
Definition Validate (now : Time) (claims : C) : option error :=
  match (opt_to_list (verifyExpiresAt claims now)
           ++ opt_to_list (verifyNotBefore claims now))%list with
  | [] => None
  | errs => Some (Errorf "" errs)
  end.

(** [jwt.ParseWithClaims(tokenString, claims, keyFunc)], with the
    validator reading the clock at [now]: the token is parsed, the key
    function is asked for the key, the signature is verified with the
    method of the header, and the claims are validated. (A signature
    segment that is not base64url makes the string [Malformed].) *)
Definition ParseWithClaims (now : Time) (tokenString : TokenString)
           (keyFunc : Token -> error + string) : error + Token :=
  match ParseUnverified tokenString with
  | inl err => inl err
  | inr token =>
      match keyFunc token with
      | inl err =>
          inl (Errorf "error while executing keyfunc"
                      [Err ErrTokenUnverifiable; err])
      | inr key =>
          match Verify (Method token) (Header token) (TokenClaims token)
                       (Signature token) key with
          | Some err => inl (Errorf "" [Err ErrTokenSignatureInvalid; err])
          | None =>
              match Validate now (TokenClaims token) with
              | Some err => inl (Errorf "" [Err ErrTokenInvalidClaims; err])
              | None =>
                  inr {| Method := Method token; Header := Header token;
                         TokenClaims := TokenClaims token;
                         Signature := Signature token; Valid := true |}
              end
          end
      end
  end.

End Parser.

Arguments Sig : clear implicits.
Arguments TokenString : clear implicits.
Arguments Token : clear implicits.

End jwt.

(* ===================================================================== *)
(** ** internal/domain/auth/jwt.go                                        *)
(* ===================================================================== *)

Module authjwt.

(** [JWTManager]. *)
Record JWTManager : Type := { secret : string; accessTTL : Duration }.

(** [NewJWTManager]. *)
Definition NewJWTManager (secret : string) (accessTTL : Duration) : JWTManager :=
  {| secret := secret; accessTTL := accessTTL |}.

(** [Claims]: the e-mail and the embedded registered claims. *)
Record Claims : Type := {
  Email : string;
  Registered : jwt.RegisteredClaims
}.

Definition Subject (c : Claims) : string := jwt.Subject (Registered c).
Definition ExpiresAt (c : Claims) : option Time := jwt.ExpiresAt (Registered c).
Definition IssuedAt (c : Claims) : option Time := jwt.IssuedAt (Registered c).

Definition Claims_eq_dec (a b : Claims) : {a = b} + {a <> b}.
Proof. repeat decide equality. Defined.

#[export] Instance Claims_jwt : jwt.Claims Claims := {|
  jwt.GetExpirationTime c := jwt.ExpiresAt (Registered c);
  jwt.GetNotBefore c := jwt.NotBefore (Registered c);
  jwt.GetIssuedAt c := jwt.IssuedAt (Registered c);
  jwt.claims_eq_dec := Claims_eq_dec
|}.

Definition AccessToken : Type := jwt.TokenString Claims.

(** [GenerateAccessToken]; [now] is the reading of [time.Now().UTC()]. *)
Definition GenerateAccessToken (j : JWTManager) (now : Time)
           (userID email : string) : error + AccessToken :=
  let claims :=
    {| Email := email;
       Registered :=
         {| jwt.Subject := userID;
            jwt.IssuedAt := Some (jwt.NewNumericDate now);
            jwt.ExpiresAt := Some (jwt.NewNumericDate (Add now (accessTTL j)));
            jwt.NotBefore := None |} |} in
  let token := jwt.NewWithClaims jwt.SigningMethodHS256 claims in
  jwt.SignedString token (secret j).

(** The key function of [ValidateAccessToken]: the type assertion of
    [t.Method] to a pointer to [jwt.SigningMethodHMAC]. *)
Definition keyFunc (j : JWTManager) (t : jwt.Token Claims) : error + string :=
  match jwt.Method t with
  | jwt.SigningMethodHMAC _ => inr (secret j)
  | _ => inl (Errorf "unexpected signing method" [])
  end.

(** [ValidateAccessToken]; [now] is the clock when the claims are
    validated. *)
Definition ValidateAccessToken (j : JWTManager) (now : Time)
           (tokenStr : AccessToken) : error + Claims :=
  match jwt.ParseWithClaims now tokenStr (keyFunc j) with
  | inl err => inl (Errorf "invalid token" [err])
  | inr token =>
      if negb (jwt.Valid token) then inl (Errorf "invalid token claims" [])
      else inr (jwt.TokenClaims token)
  end.

(** [AccessTTLSeconds]: the whole seconds of the TTL, rounded toward
    zero by the conversion to [int] (the seconds pass through a float64,
    which is exact for the durations of a configuration). *)
Definition AccessTTLSeconds (j : JWTManager) : Z := Z.quot (accessTTL j) Second.

(** [GenerateRefreshTokenString]: [rand] is what [rand.Read] delivered,
    already in its URL-safe base64 text; [None] when the read failed. *)
Definition GenerateRefreshTokenString (rand : option string) : error + string :=
  match rand with
  | None => inl (Errorf "generate refresh token" [Err ErrRandRead])
  | Some s => inr s
  end.

(** The claims and the header of the token that [GenerateAccessToken]
    makes at [now] (see [GenerateAccessToken_eq]). *)
Definition issued_claims (j : JWTManager) (now : Time) (userID email : string)
  : Claims :=
  {| Email := email;
     Registered :=
       {| jwt.Subject := userID;
          jwt.IssuedAt := Some (jwt.NewNumericDate now);
          jwt.ExpiresAt := Some (jwt.NewNumericDate (Add now (accessTTL j)));
          jwt.NotBefore := None |} |}.

Definition HS256_header : jwt.JOSEHeader :=
  {| jwt.typ := Some "JWT"; jwt.alg := Some "HS256" |}.

(** The claims that a token string carries, if it is well formed. *)
Definition claims_of (tok : AccessToken) : option Claims :=
  match tok with
  | jwt.Compact _ c _ => Some c
  | jwt.Malformed _ => None
  end.

End authjwt.

(* ===================================================================== *)
(** ** Library functions taken as they are                                *)
(* ===================================================================== *)

(** Package [strings]: [strings.ToLower] and [strings.TrimSpace] work on
    Unicode text through the tables of package [unicode]; the code is
    stated over any implementation of the two functions. *)
Module strings.

Class Strings : Type := {
  ToLower : string -> string;
  TrimSpace : string -> string
}.

(** What the proofs use of the two functions: lowercasing twice is
    lowercasing once, and lowercasing a trimmed string leaves nothing to
    trim (a lowercased rune is white space only if the rune was). *)
Class StringsLaws (S : Strings) : Prop := {
  ToLower_idempotent : forall s, ToLower (ToLower s) = ToLower s;
  TrimSpace_ToLower_trimmed :
    forall s, TrimSpace (ToLower (TrimSpace s)) = ToLower (TrimSpace s)
}.

(** The two functions on ASCII text, where Go takes its fast paths:
    [ToLower] adds 32 to the bytes ['A'..'Z'], and [TrimSpace] drops the
    leading and trailing bytes among tab, line feed, vertical tab, form
    feed, carriage return and space. Used to run the examples. *)
Definition ascii_is_upper (c : ascii) : bool :=
  (65 <=? nat_of_ascii c)%nat && (nat_of_ascii c <=? 90)%nat.

Definition ascii_lower (c : ascii) : ascii :=
  if ascii_is_upper c then ascii_of_nat (nat_of_ascii c + 32) else c.

Definition ascii_is_space (c : ascii) : bool :=
  let n := nat_of_ascii c in
  ((9 <=? n)%nat && (n <=? 13)%nat) || (n =? 32)%nat.

Fixpoint map_string (f : ascii -> ascii) (s : string) : string :=
  match s with
  | EmptyString => EmptyString
  | String c s' => String (f c) (map_string f s')
  end.

Fixpoint trim_left (s : string) : string :=
  match s with
  | EmptyString => EmptyString
  | String c s' => if ascii_is_space c then trim_left s' else s
  end.

Fixpoint trim_right (s : string) : string :=
  match s with
  | EmptyString => EmptyString
  | String c s' =>
      match trim_right s' with
      | EmptyString => if ascii_is_space c then EmptyString else String c EmptyString
      | t => String c t
      end
  end.

Definition ASCII : Strings :=
  {| ToLower := map_string ascii_lower;
     TrimSpace := fun s => trim_right (trim_left s) |}.

End strings.

(** [golang.org/x/crypto/bcrypt], symbolically: a hash matches the
    password it was made from and no other. *)
Module bcrypt.

(** A stored hash: the bcrypt hash of a password under a cost and a salt,
    or a string that is no bcrypt hash at all. *)
Inductive hashed : Type :=
| Hashed (cost : Z) (salt : string) (password : string)
| NotAHash (raw : string).

(** [bcrypt.GenerateFromPassword]; [salt] is the random salt drawn. *)
Definition GenerateFromPassword (salt : string) (password : string) (cost : Z)
  : error + hashed :=
  if (72 <? String.length password)%nat then inl (Err ErrPasswordTooLong)
  else inr (Hashed cost salt password).

(** [bcrypt.CompareHashAndPassword]; [None] is a nil error. *)
Definition CompareHashAndPassword (h : hashed) (password : string)
  : option error :=
  match h with
  | Hashed _ _ pw =>
      if string_dec pw password then None
      else Some (Errorf "hashedPassword is not the hash of the given password" [])
  | NotAHash _ => Some (Errorf "hashedSecret too short to be a bcrypted password" [])
  end.

End bcrypt.

(** The MongoDB driver: a collection is the list of its documents; the
    unique indexes of a collection are given as the relation "these two
    documents collide on some unique index". *)
Module mongo.

Section Collection.
Context {D : Type}.
Variable collide : D -> D -> bool.

(** [col.InsertOne(doc)]. *)
Definition InsertOne (col : list D) (doc : D) : list D * option error :=
  if existsb (fun d => collide d doc) col
  then (col, Some (Err ErrDuplicateKey))
  else ((col ++ [doc])%list, None).

(** [col.FindOne(filter).Decode(&d)]. *)
Definition FindOne (col : list D) (filter : D -> bool) : error + D :=
  match find filter col with
  | Some d => inr d
  | None => inl (Err ErrNoDocuments)
  end.

(** [col.UpdateOne(filter, update)]: the first document that matches
    is updated; no match is no error. *)
Fixpoint UpdateOne (col : list D) (filter : D -> bool) (update : D -> D)
  : list D :=
  match col with
  | [] => []
  | d :: rest =>
      if filter d then update d :: rest
      else d :: UpdateOne rest filter update
  end.

(** [col.UpdateMany(filter, update)]. *)
Definition UpdateMany (col : list D) (filter : D -> bool) (update : D -> D)
  : list D :=
  map (fun d => if filter d then update d else d) col.

End Collection.

(** A [time.Time] as a BSON document stores it: in whole milliseconds. *)
Definition DateTime (t : Time) : Time := t - t mod Millisecond.

(** [mongo.IsDuplicateKeyError]. *)
Definition IsDuplicateKeyError (e : error) : bool := errors_Is e ErrDuplicateKey.

End mongo.

(* ===================================================================== *)
(** ** internal/domain/user                                               *)
(* ===================================================================== *)

Module user.

(** [User]; the password hash is kept as the symbolic bcrypt value. *)
Record User : Type := {
  ID : ObjectID;
  Name : string;
  Email : string;
  PasswordHash : bcrypt.hashed;
  Role : string;
  CreatedAt : Time;
  UpdatedAt : Time
}.

Definition RoleUser : string := "user".
Definition RoleAdmin : string := "admin".

Record RegisterRequest : Type := {
  reqName : string;
  reqEmail : string;
  reqPassword : string
}.

Definition bcryptCost : Z := 12.

(** What a call reads from outside: the bcrypt salt, the new ObjectID and
    the clock in [Repository.Create]. *)
Record Env : Type := { salt : string; new_id : ObjectID; now : Time }.

(** The unique indexes of collection [users]: [_id] and [email]. *)
Definition collide (a b : User) : bool :=
  N.eqb (ID a) (ID b) || String.eqb (Email a) (Email b).

(** The document of a user in the collection. *)
Definition marshal (u : User) : User :=
  {| ID := ID u; Name := Name u; Email := Email u;
     PasswordHash := PasswordHash u; Role := Role u;
     CreatedAt := mongo.DateTime (CreatedAt u);
     UpdatedAt := mongo.DateTime (UpdatedAt u) |}.

(** [Repository.Create]. *)
Definition Create (env : Env) (col : list User) (u : User)
  : list User * (error + User) :=
  let u := {| ID := new_id env; Name := Name u; Email := Email u;
              PasswordHash := PasswordHash u; Role := Role u;
              CreatedAt := now env; UpdatedAt := now env |} in
  match mongo.InsertOne collide col (marshal u) with
  | (col', Some err) =>
      if mongo.IsDuplicateKeyError err then (col', inl (Err ErrEmailExists))
      else (col', inl (Errorf "user repo create" [err]))
  | (col', None) => (col', inr u)
  end.

(** [Repository.FindByEmail]; [inr None] is the nil user. *)
Definition FindByEmail (col : list User) (email : string)
  : error + option User :=
  match mongo.FindOne col (fun u => String.eqb (Email u) email) with
  | inl err =>
      if errors_Is err ErrNoDocuments then inr None
      else inl (Errorf "user repo findByEmail" [err])
  | inr u => inr (Some u)
  end.

Section Service.
Context {S : strings.Strings}.

(** [Service.Register]. *)
Definition Register (env : Env) (col : list User) (req : RegisterRequest)
  : list User * (error + User) :=
  let email := strings.ToLower (strings.TrimSpace (reqEmail req)) in
  match bcrypt.GenerateFromPassword (salt env) (reqPassword req) bcryptCost with
  | inl err => (col, inl (Errorf "user service hash" [err]))
  | inr hash =>
      let u := {| ID := NilObjectID; Name := strings.TrimSpace (reqName req);
                  Email := email; PasswordHash := hash; Role := RoleUser;
                  CreatedAt := zeroTime; UpdatedAt := zeroTime |} in
      Create env col u
  end.

(** [Service.Authenticate]. *)
Definition Authenticate (col : list User) (email password : string)
  : error + User :=
  let email := strings.ToLower (strings.TrimSpace email) in
  match FindByEmail col email with
  | inl err => inl (Errorf "user service auth" [err])
  | inr None => inl (Err ErrInvalidCredentials)
  | inr (Some u) =>
      match bcrypt.CompareHashAndPassword (PasswordHash u) password with
      | Some _ => inl (Err ErrInvalidCredentials)
      | None => inr u
      end
  end.

End Service.

End user.

(* ===================================================================== *)
(** ** internal/domain/auth: model, repository, service                   *)
(* ===================================================================== *)

Module auth.
Export authjwt.

(** [RefreshToken]: a document of collection [refresh_tokens]. *)
Record RefreshToken : Type := {
  ID : ObjectID;
  UserID : ObjectID;
  Token : string;
  ExpiresAt : Time;
  Revoked : bool;
  CreatedAt : Time
}.

(** [TokenResponse]. *)
Record TokenResponse : Type := {
  AccessToken : authjwt.AccessToken;
  AccessTokenExpiresIn : Z;
  RefreshToken_ : string;
  TokenType : string
}.

(** The update document [{"$set": {"revoked": true}}]. *)
Definition set_revoked (rt : RefreshToken) : RefreshToken :=
  {| ID := ID rt; UserID := UserID rt; Token := Token rt;
     ExpiresAt := ExpiresAt rt; Revoked := true; CreatedAt := CreatedAt rt |}.

(** The unique indexes of collection [refresh_tokens]: [_id], and the
    compound index on [(user_id, token)] of [db.EnsureIndexes]. *)
Definition collide (a b : RefreshToken) : bool :=
  N.eqb (ID a) (ID b)
  || (N.eqb (UserID a) (UserID b) && String.eqb (Token a) (Token b)).

(** The index on [expires_at] with [expireAfterSeconds = 0]: when the
    server's monitor runs at time [now] it deletes the documents whose
    [expires_at] has passed. *)
Definition ttl_monitor (now : Time) (col : list RefreshToken) : list RefreshToken :=
  filter (fun rt => negb (ExpiresAt rt <? now)) col.

(** What one call of the service reads from outside, in the order of the
    reads. *)
Record Env : Type := {
  now_refresh : Time;          (* time.Now().UTC() in Refresh *)
  now_access : Time;           (* time.Now().UTC() in GenerateAccessToken *)
  rand_token : option string;  (* rand.Read in GenerateRefreshTokenString *)
  now_issue : Time;            (* time.Now().UTC() in issueTokens *)
  new_id : ObjectID;           (* primitive.NewObjectID() in CreateRefreshToken *)
  now_create : Time            (* time.Now().UTC() in CreateRefreshToken *)
}.

(** *** repository.go *)

(** The document of a refresh token in the collection. *)
Definition marshal (rt : RefreshToken) : RefreshToken :=
  {| ID := ID rt; UserID := UserID rt; Token := Token rt;
     ExpiresAt := mongo.DateTime (ExpiresAt rt); Revoked := Revoked rt;
     CreatedAt := mongo.DateTime (CreatedAt rt) |}.

(** [Repository.CreateRefreshToken]. *)
Definition CreateRefreshToken (env : Env) (col : list RefreshToken)
           (rt : RefreshToken) : list RefreshToken * option error :=
  let rt := {| ID := new_id env; UserID := UserID rt; Token := Token rt;
               ExpiresAt := ExpiresAt rt; Revoked := Revoked rt;
               CreatedAt := now_create env |} in
  match mongo.InsertOne collide col (marshal rt) with
  | (col', Some err) => (col', Some (Errorf "auth repo create" [err]))
  | (col', None) => (col', None)
  end.

(** [Repository.FindRefreshToken]: the filter is
    [{"token": token, "revoked": false}]; [inr None] is the nil token. *)
Definition FindRefreshToken (col : list RefreshToken) (token : string)
  : error + option RefreshToken :=
  match mongo.FindOne col
          (fun rt => String.eqb (Token rt) token && Bool.eqb (Revoked rt) false) with
  | inl err =>
      if errors_Is err ErrNoDocuments then inr None
      else inl (Errorf "auth repo find" [err])
  | inr rt => inr (Some rt)
  end.

(** [Repository.RevokeRefreshToken]: [UpdateByID]. *)
Definition RevokeRefreshToken (col : list RefreshToken) (id : ObjectID)
  : list RefreshToken * option error :=
  (mongo.UpdateOne col (fun rt => N.eqb (ID rt) id) set_revoked, None).

(** [Repository.RevokeAllForUser]. *)
Definition RevokeAllForUser (col : list RefreshToken) (userID : ObjectID)
  : list RefreshToken * option error :=
  (mongo.UpdateMany col
     (fun rt => N.eqb (UserID rt) userID && Bool.eqb (Revoked rt) false)
     set_revoked, None).

(** *** The service *)

(** [Service]: the repository and the user service are the collections
    that the functions below take and return. *)
Record Service : Type := { jwt : JWTManager; refreshTTL : Duration }.

(** The database: the two collections the service works on. *)
Record DB : Type := {
  users : list user.User;
  refresh_tokens : list RefreshToken
}.



(** [Service.issueTokens]. *)
Definition issueTokens (s : Service) (env : Env) (col : list RefreshToken)
           (userID : ObjectID) (email : string)
  : list RefreshToken * (error + TokenResponse) :=
  let email := if String.eqb email "" then "" else email in
  match GenerateAccessToken (jwt s) (now_access env) (Hex userID) email with
  | inl err => (col, inl (Errorf "auth issue access" [err]))
  | inr accessToken =>
      match GenerateRefreshTokenString (rand_token env) with
      | inl err => (col, inl (Errorf "auth issue refresh" [err]))
      | inr refreshStr =>
          let rt := {| ID := NilObjectID; UserID := userID; Token := refreshStr;
                       ExpiresAt := Add (now_issue env) (refreshTTL s);
                       Revoked := false; CreatedAt := zeroTime |} in
          match CreateRefreshToken env col rt with
          | (col', Some err) => (col', inl (Errorf "auth store refresh" [err]))
          | (col', None) =>
              (col', inr {| AccessToken := accessToken;
                            AccessTokenExpiresIn := AccessTTLSeconds (jwt s);
                            RefreshToken_ := refreshStr;
                            TokenType := "Bearer" |})
          end
      end
  end.

(** [Service.Refresh]. *)
Definition Refresh (s : Service) (env : Env) (col : list RefreshToken)
           (refreshTokenStr : string)
  : list RefreshToken * (error + TokenResponse) :=
  match FindRefreshToken col refreshTokenStr with
  | inl err => (col, inl (Errorf "auth refresh" [err]))
  | inr None => (col, inl (Err ErrInvalidRefreshToken))
  | inr (Some rt) =>
      if After (now_refresh env) (ExpiresAt rt)
      then (col, inl (Err ErrInvalidRefreshToken))
      else
        match RevokeRefreshToken col (ID rt) with
        | (col', Some err) => (col', inl (Errorf "auth refresh revoke" [err]))
        | (col', None) => issueTokens s env col' (UserID rt) ""
        end
  end.

Section Login.
Context {S : strings.Strings}.

(** [Service.Login]. *)
Definition Login (s : Service) (env : Env) (db : DB) (email password : string)
  : DB * (error + TokenResponse) :=
  match user.Authenticate (users db) email password with
  | inl err => (db, inl err)
  | inr u =>
      let (col', r) :=
        issueTokens s env (refresh_tokens db) (user.ID u) (user.Email u) in
      ({| users := users db; refresh_tokens := col' |}, r)
  end.

End Login.

(** *** Calls of [Refresh] that overlap

    The service keeps no state of its own; calls meet in the database
    only, where every operation of the driver is atomic. A call in
    progress is therefore at one of the points below, and a step of a
    call runs it up to and including its next database operation. *)
Inductive RefreshCall : Type :=
| AtFind (refreshTokenStr : string)
    (* about to run FindRefreshToken *)
| AtRevoke (rt : RefreshToken)
    (* found rt and saw that it has not expired: about to run
       RevokeRefreshToken *)
| AtIssue (rt : RefreshToken)
    (* revoked: about to run issueTokens, whose database operation is
       CreateRefreshToken *)
| Returned (r : error + TokenResponse).

Definition call_step (s : Service) (env : Env) (c : RefreshCall)
           (col : list RefreshToken) : RefreshCall * list RefreshToken :=
  match c with
  | AtFind refreshTokenStr =>
      match FindRefreshToken col refreshTokenStr with
      | inl err => (Returned (inl (Errorf "auth refresh" [err])), col)
      | inr None => (Returned (inl (Err ErrInvalidRefreshToken)), col)
      | inr (Some rt) =>
          if After (now_refresh env) (ExpiresAt rt)
          then (Returned (inl (Err ErrInvalidRefreshToken)), col)
          else (AtRevoke rt, col)
      end
  | AtRevoke rt =>
      match RevokeRefreshToken col (ID rt) with
      | (col', Some err) =>
          (Returned (inl (Errorf "auth refresh revoke" [err])), col')
      | (col', None) => (AtIssue rt, col')
      end
  | AtIssue rt =>
      let (col', r) := issueTokens s env col (UserID rt) "" in
      (Returned r, col')
  | Returned r => (Returned r, col)
  end.

(** The calls in flight, each with its environment, and the collection.
    A schedule names, step by step, the call that runs next. *)
Definition Calls : Type := list (Env * RefreshCall).

Fixpoint step_nth (s : Service) (i : nat) (calls : Calls)
         (col : list RefreshToken) : Calls * list RefreshToken :=
  match calls, i with
  | [], _ => ([], col)
  | (env, c) :: rest, O =>
      let (c', col') := call_step s env c col in ((env, c') :: rest, col')
  | ec :: rest, S i' =>
      let (rest', col') := step_nth s i' rest col in (ec :: rest', col')
  end.

Fixpoint run (s : Service) (schedule : list nat) (calls : Calls)
         (col : list RefreshToken) : Calls * list RefreshToken :=
  match schedule with
  | [] => (calls, col)
  | i :: schedule' =>
      let (calls', col') := step_nth s i calls col in
      run s schedule' calls' col'
  end.

Definition succeeded (ec : Env * RefreshCall) : bool :=
  match snd ec with Returned (inr _) => true | _ => false end.

Definition failed_invalid (ec : Env * RefreshCall) : bool :=
  match snd ec with
  | Returned (inl (Err ErrInvalidRefreshToken)) => true
  | _ => false
  end.

(** The calls of a list of environments, one after the other. *)
Fixpoint refresh_each (s : Service) (envs : list Env) (col : list RefreshToken)
         (refreshTokenStr : string)
  : list (error + TokenResponse) * list RefreshToken :=
  match envs with
  | [] => ([], col)
  | env :: envs' =>
      let (col', r) := Refresh s env col refreshTokenStr in
      let (rs, col'') := refresh_each s envs' col' refreshTokenStr in
      (r :: rs, col'')
  end.

(** The operations of the store on collection [refresh_tokens]. *)
Inductive StoreOp : Type :=
| OpCreate (env : Env) (rt : RefreshToken)
| OpFind (token : string)
| OpRevoke (id : ObjectID)
| OpRevokeAll (userID : ObjectID)
| OpExpire (now : Time).

Definition apply_op (op : StoreOp) (col : list RefreshToken) : list RefreshToken :=
  match op with
  | OpCreate env rt => fst (CreateRefreshToken env col rt)
  | OpFind _ => col
  | OpRevoke id => fst (RevokeRefreshToken col id)
  | OpRevokeAll userID => fst (RevokeAllForUser col userID)
  | OpExpire now => ttl_monitor now col
  end.

(** *** Vocabulary of the properties *)

(** The document that [issueTokens] stores for [userID] when the random
    string drawn is [refreshStr], and the response it returns. *)
Definition issued_record (s : Service) (env : Env) (userID : ObjectID)
           (refreshStr : string) : RefreshToken :=
  {| ID := new_id env; UserID := userID; Token := refreshStr;
     ExpiresAt := mongo.DateTime (Add (now_issue env) (refreshTTL s));
     Revoked := false; CreatedAt := mongo.DateTime (now_create env) |}.

Definition issued_response (s : Service) (env : Env) (userID : ObjectID)
           (email refreshStr : string) : TokenResponse :=
  {| AccessToken :=
       jwt.Compact HS256_header
         (issued_claims (jwt s) (now_access env) (Hex userID) email)
         (jwt.HMACSig jwt.SHA256 (secret (jwt s)) HS256_header
            (issued_claims (jwt s) (now_access env) (Hex userID) email));
     AccessTokenExpiresIn := AccessTTLSeconds (jwt s);
     RefreshToken_ := refreshStr;
     TokenType := "Bearer" |}.

(** A secret is dead at [now] in a collection when every document that
    holds it is revoked or has its [expires_at] in the past: the secret
    never existed, or its record was rotated, revoked or has expired. *)
Definition dead (now : Time) (col : list RefreshToken) (secret : string) : Prop :=
  forall rt, In rt col -> Token rt = secret ->
             Revoked rt = true \/ ExpiresAt rt < now.

End auth.

(* ===================================================================== *)
(** ** Concrete values used in examples                                   *)
(* ===================================================================== *)

Module Examples.
Import authjwt.

(** The manager of the unit tests, and a clock reading a quarter of a
    second past a whole second. *)
Definition mgr : JWTManager := NewJWTManager "test-secret-key-12345" (15 * Minute).
Definition t0 : Time := 1700000000 * Second + 250000000.

Definition claims_user123 : Claims := issued_claims mgr t0 "user123" "user@example.com".

(** A token whose header names HS384 and whose signature is the
    HMAC-SHA384 of its signing input under the key [key]. *)
Definition HS384_header : jwt.JOSEHeader :=
  {| jwt.typ := Some "JWT"; jwt.alg := Some "HS384" |}.

Definition HS384_token (key : string) (c : Claims) : AccessToken :=
  jwt.Compact HS384_header c (jwt.HMACSig jwt.SHA384 key HS384_header c).

(** An HS256 token, signed with the manager's secret, with no ["exp"]. *)
Definition claims_no_exp : Claims :=
  {| Email := "user@example.com";
     Registered := {| jwt.Subject := "user123"; jwt.ExpiresAt := None;
                      jwt.NotBefore := None;
                      jwt.IssuedAt := Some (jwt.NewNumericDate t0) |} |}.

Definition token_no_exp : AccessToken :=
  jwt.Compact HS256_header claims_no_exp
    (jwt.HMACSig jwt.SHA256 (secret mgr) HS256_header claims_no_exp).

(** The token of the round-trip unit test, made at [t0]. *)
Definition token_user123 : AccessToken :=
  jwt.Compact HS256_header claims_user123
    (jwt.HMACSig jwt.SHA256 (secret mgr) HS256_header claims_user123).

Definition mgr_expired : JWTManager := NewJWTManager "test-secret" (-1 * Second).

(** A service with the default TTLs, the user of the end-to-end test and
    a collection that holds one active refresh token of hers. *)
Definition svc : auth.Service :=
  {| auth.jwt := mgr; auth.refreshTTL := 720 * 60 * Minute |}.

Definition test_user_id : ObjectID := 31415926535%N.
Definition secretA : string := "c2VjcmV0LUEtZm9yLXRoZS1leGFtcGxlcy0wMDAwMDE=".

Definition recordA : auth.RefreshToken :=
  {| auth.ID := 1000%N; auth.UserID := test_user_id; auth.Token := secretA;
     auth.ExpiresAt := t0 + 720 * 60 * Minute; auth.Revoked := false;
     auth.CreatedAt := t0 |}.

Definition store0 : list auth.RefreshToken := [recordA].

(** The environment of the [n]-th call: it runs [n] seconds after [t0],
    draws a random string and an ObjectID of its own. *)
Definition env_n (n : N) : auth.Env :=
  {| auth.now_refresh := t0 + Z.of_N n * Second;
     auth.now_access := t0 + Z.of_N n * Second + 1;
     auth.rand_token := Some ("cmFuZG9t" ++ Hex n)%string;
     auth.now_issue := t0 + Z.of_N n * Second + 2;
     auth.new_id := (2000 + n)%N;
     auth.now_create := t0 + Z.of_N n * Second + 3 |}.

(** The same secret after its record was revoked, and after it expired. *)
Definition store_revoked : list auth.RefreshToken := [auth.set_revoked recordA].
Definition env_late : auth.Env :=
  {| auth.now_refresh := t0 + 721 * 60 * Minute;
     auth.now_access := t0 + 721 * 60 * Minute;
     auth.rand_token := Some "cmFuZG9tLWxhdGU=";
     auth.now_issue := t0 + 721 * 60 * Minute;
     auth.new_id := 3000%N;
     auth.now_create := t0 + 721 * 60 * Minute |}.

(** Ten calls of [Refresh] with the secret of [recordA], and two
    schedules for them: in [overlapping] every call runs its find, then
    every call its revoke, then every call issues; in [one_by_one] each
    call runs to its end before the next starts. *)
Definition ten_calls : auth.Calls :=
  map (fun n => (env_n n, auth.AtFind secretA)) [1; 2; 3; 4; 5; 6; 7; 8; 9; 10]%N.

Definition round : list nat := seq 0 10.
Definition overlapping : list nat := (round ++ round ++ round)%list.
Definition one_by_one : list nat := flat_map (fun i => [i; i; i]) round.

(** The user of the end-to-end test, registered with the e-mail
    [test@example.com] and the password [password123], and the database
    after her registration and first login. *)
Definition test_user : user.User :=
  {| user.ID := test_user_id; user.Name := "Test User";
     user.Email := "test@example.com";
     user.PasswordHash := bcrypt.Hashed user.bcryptCost "c2FsdC1vZi10aGUtdGVzdA" "password123";
     user.Role := user.RoleUser;
     user.CreatedAt := t0 - Minute; user.UpdatedAt := t0 - Minute |}.

Definition db0 : auth.DB :=
  {| auth.users := [test_user]; auth.refresh_tokens := store0 |}.

End Examples.

From Stdlib Require SpecFloat.
From Stdlib Require Import Permutation.

(** The unique indexes of collection [refresh_tokens] as a property of a
    collection: no two documents share the [_id], and no two share the pair
    [(user_id, token)]. *)
Module authstore.

Definition pair_key (rt : auth.RefreshToken) : ObjectID * string :=
  (auth.UserID rt, auth.Token rt).

Definition indexes_hold (col : list auth.RefreshToken) : Prop :=
  NoDup (map auth.ID col) /\ NoDup (map pair_key col).

End authstore.

(* ===================================================================== *)
(** ** Identifiers in text, the HTTP context, the middleware              *)
(* ===================================================================== *)

(** [go.mongodb.org/mongo-driver/bson/primitive]. *)
Module primitive.

(** The value of a hexadecimal digit, of either case. *)
Definition hex_value (c : ascii) : option N :=
  let n := N_of_ascii c in
  if ((48 <=? n) && (n <=? 57))%N then Some (n - 48)%N
  else if ((97 <=? n) && (n <=? 102))%N then Some (n - 87)%N
  else if ((65 <=? n) && (n <=? 70))%N then Some (n - 55)%N
  else None.

(** [hex.Decode], read as a big-endian number. *)
Fixpoint hex_decode (s : string) (acc : N) : option N :=
  match s with
  | EmptyString => Some acc
  | String c s' =>
      match hex_value c with
      | Some v => hex_decode s' (acc * 16 + v)%N
      | None => None
      end
  end.

Definition ErrInvalidHex : error :=
  Errorf "the provided hex string is not a valid ObjectID" [].

(** [primitive.ObjectIDFromHex]. *)
Definition ObjectIDFromHex (s : string) : error + ObjectID :=
  if negb (String.length s =? 24)%nat then inl ErrInvalidHex
  else
    match hex_decode s 0%N with
    | Some id => inr id
    | None => inl (Errorf "encoding/hex: invalid byte" [])
    end.

(** The ObjectIDs: the numbers that fit twelve bytes. *)
Definition is_ObjectID (id : ObjectID) : Prop := (id < 2 ^ 96)%N.

End primitive.

(** [github.com/gin-gonic/gin]: what the handlers use of a context. [D] is
    the type of the data that a success response carries. *)
Module gin.

(** A JSON body: the error envelope of package [resp], or data. *)
Inductive body (D : Type) : Type :=
| ErrorBody (code message : string) (details : option (list (string * string)))
| Data (d : D).

Arguments ErrorBody {D} code message details.
Arguments Data {D} d.

Record Context (D : Type) : Type := {
  RequestHeader : list (string * string); (* by canonical header name *)
  RequestBody : string;
  Keys : list (string * string);          (* what c.Set stored *)
  Written : option (Z * body D);          (* status and body of c.JSON *)
  IsAborted : bool
}.

Arguments RequestHeader {D} c.
Arguments RequestBody {D} c.
Arguments Keys {D} c.
Arguments Written {D} c.
Arguments IsAborted {D} c.

Section Context.
Context {D : Type}.

Fixpoint lookup (key : string) (l : list (string * string)) : option string :=
  match l with
  | [] => None
  | (k, v) :: rest => if String.eqb k key then Some v else lookup key rest
  end.

(** [c.GetHeader(key)]: the empty string when the header is absent. *)
Definition GetHeader (c : Context D) (key : string) : string :=
  match lookup key (RequestHeader c) with Some v => v | None => "" end.

(** [c.Get(key)] and [c.Set(key, value)]. *)
Definition Get (c : Context D) (key : string) : option string :=
  lookup key (Keys c).

Definition Set_ (c : Context D) (key value : string) : Context D :=
  {| RequestHeader := RequestHeader c; RequestBody := RequestBody c;
     Keys := (key, value) :: Keys c;
     Written := Written c; IsAborted := IsAborted c |}.

(** [c.JSON(status, obj)]. *)
Definition JSON (c : Context D) (status : Z) (obj : body D) : Context D :=
  {| RequestHeader := RequestHeader c; RequestBody := RequestBody c;
     Keys := Keys c; Written := Some (status, obj); IsAborted := IsAborted c |}.

(** [c.Abort()]. *)
Definition Abort (c : Context D) : Context D :=
  {| RequestHeader := RequestHeader c; RequestBody := RequestBody c;
     Keys := Keys c; Written := Written c; IsAborted := true |}.

(** The handlers of a route, run in order; a handler that ends in
    [c.Next()] hands over to the rest, and nothing runs after an abort. *)
Fixpoint run_chain (handlers : list (Context D -> Context D)) (c : Context D)
  : Context D :=
  match handlers with
  | [] => c
  | h :: rest => if IsAborted c then c else run_chain rest (h c)
  end.

(** A request as it arrives. *)
Definition request (headers : list (string * string)) (body_ : string) : Context D :=
  {| RequestHeader := headers; RequestBody := body_; Keys := [];
     Written := None; IsAborted := false |}.

End Context.

End gin.

(** [internal/pkg/resp]. *)
Module resp.

Section Resp.
Context {D : Type}.

Definition StatusOK : Z := 200.
Definition StatusCreated : Z := 201.
Definition StatusBadRequest : Z := 400.
Definition StatusUnauthorized : Z := 401.
Definition StatusForbidden : Z := 403.
Definition StatusNotFound : Z := 404.
Definition StatusConflict : Z := 409.
Definition StatusInternalServerError : Z := 500.

Definition Success (c : gin.Context D) (status : Z) (data : D) : gin.Context D :=
  gin.JSON c status (gin.Data data).

Definition Fail (c : gin.Context D) (status : Z) (code message : string)
           (details : option (list (string * string))) : gin.Context D :=
  gin.JSON c status (gin.ErrorBody code message details).

Definition ValidationError (c : gin.Context D) (fields : list (string * string))
  : gin.Context D :=
  Fail c StatusBadRequest "VALIDATION_ERROR" "request validation failed" (Some fields).

Definition Unauthorized (c : gin.Context D) (message : string) : gin.Context D :=
  Fail c StatusUnauthorized "UNAUTHORIZED" message None.

Definition Forbidden (c : gin.Context D) (message : string) : gin.Context D :=
  Fail c StatusForbidden "FORBIDDEN" message None.

Definition NotFound (c : gin.Context D) (message : string) : gin.Context D :=
  Fail c StatusNotFound "NOT_FOUND" message None.

Definition Conflict (c : gin.Context D) (message : string) : gin.Context D :=
  Fail c StatusConflict "CONFLICT" message None.

Definition InternalError (c : gin.Context D) : gin.Context D :=
  Fail c StatusInternalServerError "INTERNAL_ERROR" "an unexpected error occurred" None.

End Resp.

End resp.

(** [internal/domain/user/repository.go], the lookup by id. *)
Module userrepo.

(** [Repository.FindByID]; [inr None] is the nil user. *)
Definition FindByID (col : list user.User) (id : ObjectID)
  : error + option user.User :=
  match mongo.FindOne col (fun u => N.eqb (user.ID u) id) with
  | inl err =>
      if errors_Is err ErrNoDocuments then inr None
      else inl (Errorf "user repo findByID" [err])
  | inr u => inr (Some u)
  end.

End userrepo.

(** [internal/http/middleware.go]: the two middlewares of the admin
    routes. *)
Module apphttp.

Definition ContextKeyUserID : string := "user_id".
Definition ContextKeyEmail : string := "user_email".
Definition ContextKeyRole : string := "user_role".

(** [strings.SplitN(s, " ", 2)]: cut at the first space, if there is one. *)
Fixpoint cut_space (s : string) : option (string * string) :=
  match s with
  | EmptyString => None
  | String c s' =>
      if Ascii.eqb c " "%char then Some (EmptyString, s')
      else match cut_space s' with
           | Some (a, b) => Some (String c a, b)
           | None => None
           end
  end.

Definition SplitN2 (s : string) : list string :=
  match cut_space s with
  | Some (a, b) => [a; b]
  | None => [s]
  end.

(** [strings.EqualFold(s, "Bearer")]: the letters of the word fold only to
    their own two cases, so the comparison is that of the bytes with the
    ASCII capitals lowered. *)
Definition EqualFold_Bearer (s : string) : bool :=
  String.eqb (strings.map_string strings.ascii_lower s) "bearer".

Section Middleware.
Context {D : Type}.

(** The text of a token as the parser of the JWT library sees it. *)
Variable parse : string -> authjwt.AccessToken.

(** [AuthRequired(jwtMgr)]; [now] is the clock when the token is
    validated. *)
Definition AuthRequired (jwtMgr : authjwt.JWTManager) (now : Time)
           (c : gin.Context D) : gin.Context D :=
  let header := gin.GetHeader c "Authorization" in
  if String.eqb header "" then
    gin.Abort (resp.Unauthorized c "missing authorization header")
  else
    match SplitN2 header with
    | [scheme; text] =>
        if negb (EqualFold_Bearer scheme) then
          gin.Abort (resp.Unauthorized c "invalid authorization header format")
        else
          match authjwt.ValidateAccessToken jwtMgr now (parse text) with
          | inl _ => gin.Abort (resp.Unauthorized c "invalid or expired token")
          | inr claims =>
              gin.Set_ (gin.Set_ c ContextKeyUserID (authjwt.Subject claims))
                       ContextKeyEmail (authjwt.Email claims)
          end
    | _ => gin.Abort (resp.Unauthorized c "invalid authorization header format")
    end.

(** [AdminRequired(userRepo)] on the collection of users. *)
Definition AdminRequired (users : list user.User) (c : gin.Context D)
  : gin.Context D :=
  match gin.Get c ContextKeyUserID with
  | None => gin.Abort (resp.Unauthorized c "authentication required")
  | Some userIDStr =>
      match primitive.ObjectIDFromHex userIDStr with
      | inl _ => gin.Abort (resp.Unauthorized c "invalid user id in token")
      | inr uid =>
          match userrepo.FindByID users uid with
          | inl _ | inr None => gin.Abort (resp.Unauthorized c "user not found")
          | inr (Some u) =>
              if negb (String.eqb (user.Role u) user.RoleAdmin) then
                gin.Abort (resp.Forbidden c "admin access required")
              else gin.Set_ c ContextKeyRole (user.Role u)
          end
      end
  end.

(** The middleware of the admin group of [NewRouter]. *)
Definition admin_chain (jwtMgr : authjwt.JWTManager) (now : Time)
           (users : list user.User) : list (gin.Context D -> gin.Context D) :=
  [AuthRequired jwtMgr now; AdminRequired users].

End Middleware.

End apphttp.

(* ===================================================================== *)
(** ** internal/pkg/pagination                                            *)
(* ===================================================================== *)

(** Go's [int64]: the integers from [-2^63] to [2^63 - 1]; arithmetic wraps
    around. *)
Definition min_int64 : Z := - 2 ^ 63.
Definition max_int64 : Z := 2 ^ 63 - 1.
Definition is_int64 (z : Z) : Prop := min_int64 <= z <= max_int64.
Definition wrap64 (z : Z) : Z := (z + 2 ^ 63) mod 2 ^ 64 - 2 ^ 63.

(** Go's [float64], as far as [TotalPages] needs it: IEEE 754 binary64
    through the specification of the Standard Library. *)
Module float64.

Definition prec : Z := 53.
Definition emax : Z := 1024.

(** [float64(z)] for an integer [z]: rounded to nearest, ties to even. *)
Definition of_int (z : Z) : SpecFloat.spec_float :=
  match z with
  | Z0 => SpecFloat.S754_zero false
  | Zpos p => SpecFloat.binary_normalize prec emax (Zpos p) 0 false
  | Zneg p => SpecFloat.binary_normalize prec emax (Zneg p) 0 true
  end.

(** [x / y]. *)
Definition div (x y : SpecFloat.spec_float) : SpecFloat.spec_float :=
  SpecFloat.SFdiv prec emax x y.

(** The least integer that is not below the finite number
    [(-1)^s * m * 2^e]. *)
Definition ceil_int (s : bool) (m : positive) (e : Z) : Z :=
  if 0 <=? e then (if s then - (Zpos m * 2 ^ e) else Zpos m * 2 ^ e)
  else if s then - (Zpos m / 2 ^ (- e))
  else (Zpos m + 2 ^ (- e) - 1) / 2 ^ (- e).

(** [math.Ceil(x)]. *)
Definition Ceil (x : SpecFloat.spec_float) : SpecFloat.spec_float :=
  match x with
  | SpecFloat.S754_finite s m e =>
      match ceil_int s m e with
      | Z0 => SpecFloat.S754_zero s
      | n => of_int n
      end
  | _ => x
  end.

(** [int64(x)]: the fraction is dropped; a value outside of [int64], an
    infinity or a NaN gives the least [int64] (what the conversion of the
    amd64 build does). *)
Definition to_int64 (x : SpecFloat.spec_float) : Z :=
  match x with
  | SpecFloat.S754_zero _ => 0
  | SpecFloat.S754_finite s m e =>
      let a := if 0 <=? e then Zpos m * 2 ^ e else Zpos m / 2 ^ (- e) in
      let v := if s then - a else a in
      if (min_int64 <=? v) && (v <=? max_int64) then v else min_int64
  | _ => min_int64
  end.

End float64.

Module pagination.

(** [Params]; [Page] and [PageSize] are [int64]. *)
Record Params : Type := {
  Page : Z;
  PageSize : Z;
  Sort : string;
  Order : string
}.

(** [DefaultParams]. *)
Definition DefaultParams : Params :=
  {| Page := 1; PageSize := 10; Sort := "created_at"; Order := "desc" |}.

Definition with_Page (p : Params) (n : Z) : Params :=
  {| Page := n; PageSize := PageSize p; Sort := Sort p; Order := Order p |}.

Definition with_PageSize (p : Params) (n : Z) : Params :=
  {| Page := Page p; PageSize := n; Sort := Sort p; Order := Order p |}.

Definition with_Sort (p : Params) (s : string) : Params :=
  {| Page := Page p; PageSize := PageSize p; Sort := s; Order := Order p |}.

Definition with_Order (p : Params) (s : string) : Params :=
  {| Page := Page p; PageSize := PageSize p; Sort := Sort p; Order := s |}.

(** [p.Clamp()]: the parameters after the call. *)
Definition Clamp (p : Params) : Params :=
  let p := if Page p <? 1 then with_Page p 1 else p in
  let p := if PageSize p <? 1 then with_PageSize p 10 else p in
  let p := if 50 <? PageSize p then with_PageSize p 50 else p in
  p.

(** [p.Skip()]. *)
Definition Skip (p : Params) : Z := wrap64 (wrap64 (Page p - 1) * PageSize p).

(** [TotalPages(total, pageSize)]. *)
Definition TotalPages (total pageSize : Z) : Z :=
  if pageSize <=? 0 then 0
  else float64.to_int64
         (float64.Ceil (float64.div (float64.of_int total) (float64.of_int pageSize))).

End pagination.

(** [strconv], for the numbers of a query. *)
Module strconv.

Definition digit (c : ascii) : option Z :=
  let n := Z.of_N (N_of_ascii c) in
  if (48 <=? n) && (n <=? 57) then Some (n - 48) else None.

Fixpoint digits (s : string) (acc : Z) : option Z :=
  match s with
  | EmptyString => Some acc
  | String c s' =>
      match digit c with
      | Some v => digits s' (acc * 10 + v)
      | None => None
      end
  end.

(** [strconv.ParseInt(s, 10, 64)]: an optional sign and decimal digits, at
    least one; [None] is an error, of syntax or of range. *)
Definition ParseInt (s : string) : option Z :=
  match s with
  | EmptyString => None
  | String c rest =>
      let neg := Ascii.eqb c "-"%char in
      let body := if Ascii.eqb c "+"%char || neg then rest else s in
      match body with
      | EmptyString => None
      | String _ _ =>
          match digits body 0 with
          | None => None
          | Some n =>
              let v := if neg then - n else n in
              if (min_int64 <=? v) && (v <=? max_int64) then Some v else None
          end
      end
  end.

End strconv.

(* ===================================================================== *)
(** ** internal/domain/product                                            *)
(* ===================================================================== *)

Module product.

(** [Product]: a document of collection [products]. *)
Record Product : Type := {
  ID : ObjectID;
  Name : string;
  Description : string;
  PriceCents : Z;
  Category : string;
  ImageURL : string;
  IsAvailable : bool;
  CreatedAt : Time;
  UpdatedAt : Time
}.

(** [CreateRequest] and [UpdateRequest]; a nil pointer is [None]. *)
Record CreateRequest : Type := {
  cName : string;
  cDescription : string;
  cPriceCents : Z;
  cCategory : string;
  cImageURL : string;
  cIsAvailable : option bool
}.

Record UpdateRequest : Type := {
  uName : option string;
  uDescription : option string;
  uPriceCents : option Z;
  uCategory : option string;
  uImageURL : option string;
  uIsAvailable : option bool
}.

(** [Response] and [ListResponse]. *)
Record Response : Type := {
  rID : string;
  rName : string;
  rDescription : string;
  rPriceCents : Z;
  rCategory : string;
  rImageURL : string;
  rIsAvailable : bool;
  rCreatedAt : Time;
  rUpdatedAt : Time
}.

Record ListResponse : Type := {
  Items : list Response;
  Page : Z;
  PageSize : Z;
  Total : Z;
  TotalPages : Z
}.

(** [p.ToResponse()]. *)
Definition ToResponse (p : Product) : Response :=
  {| rID := Hex (ID p); rName := Name p; rDescription := Description p;
     rPriceCents := PriceCents p; rCategory := Category p;
     rImageURL := ImageURL p; rIsAvailable := IsAvailable p;
     rCreatedAt := CreatedAt p; rUpdatedAt := UpdatedAt p |}.

(** [ListFilter]. *)
Record ListFilter : Type := { Query : string; FilterCategory : string }.

Definition ErrProductNotFound : error := Errorf "product not found" [].

(** What a call reads from outside: the new ObjectID and the clock of the
    repository. *)
Record Env : Type := { new_id : ObjectID; now : Time }.

(** The only unique index of collection [products] is the one on [_id]. *)
Definition collide (a b : Product) : bool := N.eqb (ID a) (ID b).

(** The document of a product in the collection. *)
Definition marshal (p : Product) : Product :=
  {| ID := ID p; Name := Name p; Description := Description p;
     PriceCents := PriceCents p; Category := Category p; ImageURL := ImageURL p;
     IsAvailable := IsAvailable p;
     CreatedAt := mongo.DateTime (CreatedAt p);
     UpdatedAt := mongo.DateTime (UpdatedAt p) |}.

(** *** repository.go *)

(** [Repository.Create]: the product with its id and times set, and the
    error. *)
Definition RepoCreate (env : Env) (col : list Product) (p : Product)
  : list Product * (Product * option error) :=
  let p := {| ID := new_id env; Name := Name p; Description := Description p;
              PriceCents := PriceCents p; Category := Category p;
              ImageURL := ImageURL p; IsAvailable := IsAvailable p;
              CreatedAt := now env; UpdatedAt := now env |} in
  match mongo.InsertOne collide col (marshal p) with
  | (col', Some err) => (col', (p, Some (Errorf "product repo create" [err])))
  | (col', None) => (col', (p, None))
  end.

(** [Repository.FindByID]. *)
Definition FindByID (col : list Product) (id : ObjectID) : error + option Product :=
  match mongo.FindOne col (fun p => N.eqb (ID p) id) with
  | inl err =>
      if errors_Is err ErrNoDocuments then inr None
      else inl (Errorf "product repo findByID" [err])
  | inr p => inr (Some p)
  end.

Definition or_else {A : Type} (o : option A) (a : A) : A :=
  match o with Some x => x | None => a end.

(** The update document [{"$set": update}] that [Service.Update] builds
    from the fields of the request that are there, with [updated_at] set
    by the repository. *)
Definition set_fields (req : UpdateRequest) (updated_at : Time) (p : Product)
  : Product :=
  {| ID := ID p;
     Name := or_else (uName req) (Name p);
     Description := or_else (uDescription req) (Description p);
     PriceCents := or_else (uPriceCents req) (PriceCents p);
     Category := or_else (uCategory req) (Category p);
     ImageURL := or_else (uImageURL req) (ImageURL p);
     IsAvailable := or_else (uIsAvailable req) (IsAvailable p);
     CreatedAt := CreatedAt p;
     UpdatedAt := mongo.DateTime updated_at |}.

(** [Repository.Update]: [FindOneAndUpdate] by [_id], returning the
    document after the update; [inr None] when there is no such document. *)
Definition RepoUpdate (env : Env) (col : list Product) (id : ObjectID)
           (update : UpdateRequest) : list Product * (error + option Product) :=
  match mongo.FindOne col (fun p => N.eqb (ID p) id) with
  | inl err =>
      if errors_Is err ErrNoDocuments then (col, inr None)
      else (col, inl (Errorf "product repo update" [err]))
  | inr p =>
      (mongo.UpdateOne col (fun p => N.eqb (ID p) id) (set_fields update (now env)),
       inr (Some (set_fields update (now env) p)))
  end.

(** [col.DeleteOne(filter)]: the first document that matches is removed;
    the count of documents deleted. *)
Fixpoint DeleteOne (col : list Product) (filter : Product -> bool)
  : list Product * Z :=
  match col with
  | [] => ([], 0)
  | p :: rest =>
      if filter p then (rest, 1)
      else let (rest', n) := DeleteOne rest filter in (p :: rest', n)
  end.

(** [Repository.Delete]. *)
Definition RepoDelete (col : list Product) (id : ObjectID)
  : list Product * (error + bool) :=
  let (col', deleted) := DeleteOne col (fun p => N.eqb (ID p) id) in
  (col', inr (0 <? deleted)).

Section Listing.

(** The server's part of a listing: which products a [$text] search for a
    query selects, and the order in which a sort on a field in a direction
    returns products (a rearrangement of them). *)
Variable text_search : string -> Product -> bool.
Variable sort_by : string -> Z -> list Product -> list Product.

(** The filter document of [Repository.List]. *)
Definition matches (filter : ListFilter) (p : Product) : bool :=
  (if String.eqb (Query filter) "" then true else text_search (Query filter) p)
  && (if String.eqb (FilterCategory filter) "" then true
      else String.eqb (Category p) (FilterCategory filter)).

(** The sort field and order that [Repository.List] chooses. *)
Definition sortOrder (p : pagination.Params) : Z :=
  if String.eqb (pagination.Order p) "asc" then 1 else -1.

Definition sortField (p : pagination.Params) : string :=
  let s := pagination.Sort p in
  if String.eqb s "name" || String.eqb s "price_cents" || String.eqb s "created_at"
  then s
  else if String.eqb s "price" then "price_cents"
  else "created_at".

(** [col.Find(f, opts)] with skip, limit and sort: a negative skip is an
    error of the server; a limit of zero is no limit, and a negative limit
    is its absolute value. *)
Definition Find (col : list Product) (f : Product -> bool) (skip limit : Z)
           (field : string) (order : Z) : error + list Product :=
  if skip <? 0 then inl (Errorf "skip value must be non-negative" [])
  else
    let sorted := skipn (Z.to_nat skip) (sort_by field order (filter f col)) in
    inr (if limit =? 0 then sorted else firstn (Z.to_nat (Z.abs limit)) sorted).

(** [Repository.List]. *)
Definition RepoList (col : list Product) (filter : ListFilter)
           (p : pagination.Params) : error + (list Product * Z) :=
  let total := Z.of_nat (List.length (List.filter (matches filter) col)) in
  match Find col (matches filter) (pagination.Skip p) (pagination.PageSize p)
             (sortField p) (sortOrder p) with
  | inl err => inl (Errorf "product repo find" [err])
  | inr products => inr (products, total)
  end.

(** [Service.List]. *)
Definition List_ (col : list Product) (filter : ListFilter) (p : pagination.Params)
  : error + ListResponse :=
  let p := pagination.Clamp p in
  match RepoList col filter p with
  | inl err => inl (Errorf "product service list" [err])
  | inr (products, total) =>
      inr {| Items := map ToResponse products;
             Page := pagination.Page p;
             PageSize := pagination.PageSize p;
             Total := total;
             TotalPages := pagination.TotalPages total (pagination.PageSize p) |}
  end.

End Listing.

(** *** service.go *)

(** [Service.Create]. *)
Definition Create (env : Env) (col : list Product) (req : CreateRequest)
  : list Product * (error + Product) :=
  let available :=
    match cIsAvailable req with Some b => b | None => true end in
  let p := {| ID := NilObjectID; Name := cName req; Description := cDescription req;
              PriceCents := cPriceCents req; Category := cCategory req;
              ImageURL := cImageURL req; IsAvailable := available;
              CreatedAt := zeroTime; UpdatedAt := zeroTime |} in
  match RepoCreate env col p with
  | (col', (_, Some err)) => (col', inl err)
  | (col', (p', None)) => (col', inr p')
  end.

(** Whether the update document that [Service.Update] builds is empty. *)
Definition no_fields (req : UpdateRequest) : bool :=
  match uName req, uDescription req, uPriceCents req, uCategory req,
        uImageURL req, uIsAvailable req with
  | None, None, None, None, None, None => true
  | _, _, _, _, _, _ => false
  end.

(** [Service.Update]. *)
Definition Update (env : Env) (col : list Product) (idHex : string)
           (req : UpdateRequest) : list Product * (error + Product) :=
  match primitive.ObjectIDFromHex idHex with
  | inl _ => (col, inl (Errorf "invalid product id" []))
  | inr id =>
      if no_fields req then (col, inl (Errorf "no fields to update" []))
      else
        match RepoUpdate env col id req with
        | (col', inl err) => (col', inl err)
        | (col', inr None) => (col', inl ErrProductNotFound)
        | (col', inr (Some p)) => (col', inr p)
        end
  end.

(** [Service.Delete]; [None] is a nil error. *)
Definition Delete (col : list Product) (idHex : string)
  : list Product * option error :=
  match primitive.ObjectIDFromHex idHex with
  | inl _ => (col, Some (Errorf "invalid product id" []))
  | inr id =>
      match RepoDelete col id with
      | (col', inl err) => (col', Some err)
      | (col', inr deleted) =>
          if negb deleted then (col', Some ErrProductNotFound) else (col', None)
      end
  end.

(** *** handler.go *)

(** [errors.Is(err, ErrProductNotFound)]: the error is that value or wraps
    it.  The value is the only error of the program with its message, so
    it is told by the message. *)
Fixpoint is_ErrProductNotFound (e : error) : bool :=
  match e with
  | Err _ => false
  | Errorf msg wrapped =>
      (String.eqb msg "product not found"
       && match wrapped with [] => true | _ :: _ => false end)
      || existsb is_ErrProductNotFound wrapped
  end.

(** What a product handler sends as data. *)
Inductive payload : Type :=
| Item (r : Response)
| Listing (l : ListResponse)
| Message (m : string).

Module Handler.

Section Handler.

(** [h.validate.Struct(req)]: the messages by field; [None] is nil. *)
Variable validate_create : CreateRequest -> option (list (string * string)).
Variable validate_update : UpdateRequest -> option (list (string * string)).

(** The server's part of a listing, as for [Service.List]. *)
Variable text_search : string -> Product -> bool.
Variable sort_by : string -> Z -> list Product -> list Product.

(** [c.Query(key)]: the first value of the key in the URL, or the empty
    string. *)
Definition Query (query : list (string * string)) (key : string) : string :=
  match gin.lookup key query with Some v => v | None => "" end.

(** [strings.SplitN(s, ",", 2)]: cut at the first comma, if there is one. *)
Fixpoint cut_comma (s : string) : option (string * string) :=
  match s with
  | EmptyString => None
  | String c s' =>
      if Ascii.eqb c ","%char then Some (EmptyString, s')
      else match cut_comma s' with
           | Some (a, b) => Some (String c a, b)
           | None => None
           end
  end.

(** The parameters that [Handler.List] reads from the query. *)
Definition params (query : list (string * string)) : pagination.Params :=
  let p := pagination.DefaultParams in
  let p :=
    let v := Query query "page" in
    if String.eqb v "" then p
    else match strconv.ParseInt v with
         | Some n => pagination.with_Page p n
         | None => p
         end in
  let p :=
    let v := Query query "page_size" in
    if String.eqb v "" then p
    else match strconv.ParseInt v with
         | Some n => pagination.with_PageSize p n
         | None => p
         end in
  let p :=
    let v := Query query "sort" in
    if String.eqb v "" then p
    else match cut_comma v with
         | None => pagination.with_Sort p v
         | Some (field, order) =>
             let p := pagination.with_Sort p field in
             if String.eqb order "asc" || String.eqb order "desc"
             then pagination.with_Order p order
             else p
         end in
  p.

(** [Handler.List]. *)
Definition List_ (col : list Product) (query : list (string * string))
           (c : gin.Context payload) : gin.Context payload :=
  let filter := {| product.Query := Query query "q";
                   FilterCategory := Query query "category" |} in
  match product.List_ text_search sort_by col filter (params query) with
  | inl _ => resp.InternalError c
  | inr result => resp.Success c resp.StatusOK (Listing result)
  end.

(** [Handler.Create]; [bound] is the request that [c.ShouldBindJSON]
    decodes, [None] when it fails. *)
Definition Create (env : Env) (col : list Product) (bound : option CreateRequest)
           (c : gin.Context payload) : list Product * gin.Context payload :=
  match bound with
  | None =>
      (col, resp.Fail c resp.StatusBadRequest "BAD_REQUEST" "invalid JSON body" None)
  | Some req =>
      match validate_create req with
      | Some errs => (col, resp.ValidationError c errs)
      | None =>
          match product.Create env col req with
          | (col', inl _) => (col', resp.InternalError c)
          | (col', inr p) =>
              (col', resp.Success c resp.StatusCreated (Item (ToResponse p)))
          end
      end
  end.

(** [Handler.Update]; [idParam] is [c.Param("id")]. *)
Definition Update (env : Env) (col : list Product) (idParam : string)
           (bound : option UpdateRequest) (c : gin.Context payload)
  : list Product * gin.Context payload :=
  match bound with
  | None =>
      (col, resp.Fail c resp.StatusBadRequest "BAD_REQUEST" "invalid JSON body" None)
  | Some req =>
      match validate_update req with
      | Some errs => (col, resp.ValidationError c errs)
      | None =>
          match product.Update env col idParam req with
          | (col', inl err) =>
              if is_ErrProductNotFound err
              then (col', resp.NotFound c "product not found")
              else (col', resp.InternalError c)
          | (col', inr p) =>
              (col', resp.Success c resp.StatusOK (Item (ToResponse p)))
          end
      end
  end.

(** [Handler.Delete]. *)
Definition Delete (col : list Product) (idParam : string)
           (c : gin.Context payload) : list Product * gin.Context payload :=
  match product.Delete col idParam with
  | (col', Some err) =>
      if is_ErrProductNotFound err
      then (col', resp.NotFound c "product not found")
      else (col', resp.InternalError c)
  | (col', None) =>
      (col', gin.JSON c resp.StatusOK (gin.Data (Message "product deleted")))
  end.

End Handler.

(** The status that a handler has written. *)
Definition status (c : gin.Context payload) : option Z :=
  option_map fst (gin.Written c).

End Handler.

End product.

(* ===================================================================== *)
(** ** internal/domain/auth/handler.go                                    *)
(* ===================================================================== *)

Module authhandler.

(** [user.LoginRequest] and [auth.RefreshRequest]. *)
Record LoginRequest : Type := { Email : string; Password : string }.
Record RefreshRequest : Type := { RefreshToken : string }.

Section Handler.
Context {S : strings.Strings}.

(** [h.validate.Struct(req)]: the messages by field; [None] is nil. *)
Variable validate_login : LoginRequest -> option (list (string * string)).
Variable validate_refresh : RefreshRequest -> option (list (string * string)).

(** [Handler.Login]; [bound] is the request that [c.ShouldBindJSON]
    decodes, [None] when it fails. *)
Definition Login (s : auth.Service) (env : auth.Env) (db : auth.DB)
           (bound : option LoginRequest) (c : gin.Context auth.TokenResponse)
  : auth.DB * gin.Context auth.TokenResponse :=
  match bound with
  | None =>
      (db, resp.Fail c resp.StatusBadRequest "BAD_REQUEST" "invalid JSON body" None)
  | Some req =>
      match validate_login req with
      | Some errs => (db, resp.ValidationError c errs)
      | None =>
          match auth.Login s env db (Email req) (Password req) with
          | (db', inl err) =>
              if errors_Is err ErrInvalidCredentials
              then (db', resp.Unauthorized c "invalid email or password")
              else (db', resp.InternalError c)
          | (db', inr tokens) => (db', resp.Success c resp.StatusOK tokens)
          end
      end
  end.

(** [Handler.Refresh]. *)
Definition Refresh (s : auth.Service) (env : auth.Env)
           (col : list auth.RefreshToken) (bound : option RefreshRequest)
           (c : gin.Context auth.TokenResponse)
  : list auth.RefreshToken * gin.Context auth.TokenResponse :=
  match bound with
  | None =>
      (col, resp.Fail c resp.StatusBadRequest "BAD_REQUEST" "invalid JSON body" None)
  | Some req =>
      match validate_refresh req with
      | Some errs => (col, resp.ValidationError c errs)
      | None =>
          match auth.Refresh s env col (RefreshToken req) with
          | (col', inl err) =>
              if errors_Is err ErrInvalidRefreshToken
              then (col', resp.Unauthorized c "invalid or expired refresh token")
              else (col', resp.InternalError c)
          | (col', inr tokens) => (col', resp.Success c resp.StatusOK tokens)
          end
      end
  end.

End Handler.

(** The status that a handler has written. *)
Definition status (c : gin.Context auth.TokenResponse) : option Z :=
  option_map fst (gin.Written c).

End authhandler.

(* ===================================================================== *)
(** ** More concrete values                                               *)
(* ===================================================================== *)

Module Scenarios.
Import authjwt.


(** A second user with a session of his own, beside the one of
    [Examples.recordA]. *)
Definition other_user_id : ObjectID := 27182818284%N.
Definition secretB : string := "c2VjcmV0LUItZm9yLXRoZS1leGFtcGxlcy0wMDAwMDI=".

Definition recordB : auth.RefreshToken :=
  {| auth.ID := 1001%N; auth.UserID := other_user_id; auth.Token := secretB;
     auth.ExpiresAt := Examples.t0 + 720 * 60 * Minute; auth.Revoked := false;
     auth.CreatedAt := Examples.t0 |}.

Definition store2 : list auth.RefreshToken := [Examples.recordA; recordB].

(** An environment in which the random source fails. *)
Definition env_norand : auth.Env :=
  {| auth.now_refresh := Examples.t0 + Second;
     auth.now_access := Examples.t0 + Second;
     auth.rand_token := None;
     auth.now_issue := Examples.t0 + Second;
     auth.new_id := 4000%N;
     auth.now_create := Examples.t0 + Second |}.


Definition uenv : user.Env :=
  {| user.salt := "c2FsdC1mb3ItamFuZQ"; user.new_id := 5000%N;
     user.now := Examples.t0 |}.

(** An administrator, a database that holds her beside the test user, the
    access tokens that a login of each of them at [Examples.env_n 1]
    returns, and a reading of token texts that knows these two. *)
Definition admin : user.User :=
  {| user.ID := 161803398874%N; user.Name := "Ada Admin";
     user.Email := "admin@example.com";
     user.PasswordHash := bcrypt.Hashed user.bcryptCost "c2FsdC1hZG1pbg" "adminPass1";
     user.Role := user.RoleAdmin;
     user.CreatedAt := Examples.t0 - Minute; user.UpdatedAt := Examples.t0 - Minute |}.

Definition db_admin : auth.DB :=
  {| auth.users := [Examples.test_user; admin]; auth.refresh_tokens := [] |}.

Definition admin_token : AccessToken :=
  auth.AccessToken
    (auth.issued_response Examples.svc (Examples.env_n 1) (user.ID admin)
       (user.Email admin) ("cmFuZG9t" ++ Hex 1%N)%string).

Definition user_token : AccessToken :=
  auth.AccessToken
    (auth.issued_response Examples.svc (Examples.env_n 1) (user.ID Examples.test_user)
       (user.Email Examples.test_user) ("cmFuZG9t" ++ Hex 1%N)%string).

Definition parse (text : string) : AccessToken :=
  if String.eqb text "admin.token.text" then admin_token
  else if String.eqb text "user.token.text" then user_token
  else jwt.Malformed text.

(** The catalogue of the end-to-end tests. *)
Definition burger : product.Product :=
  {| product.ID := 501%N; product.Name := "Classic Burger";
     product.Description := "Beef burger"; product.PriceCents := 999;
     product.Category := "burgers"; product.ImageURL := "";
     product.IsAvailable := true;
     product.CreatedAt := mongo.DateTime Examples.t0;
     product.UpdatedAt := mongo.DateTime Examples.t0 |}.

Definition pizza : product.Product :=
  {| product.ID := 502%N; product.Name := "Margherita Pizza";
     product.Description := "Fresh pizza"; product.PriceCents := 1299;
     product.Category := "pizza"; product.ImageURL := "";
     product.IsAvailable := true;
     product.CreatedAt := mongo.DateTime Examples.t0;
     product.UpdatedAt := mongo.DateTime Examples.t0 |}.

Definition salad : product.Product :=
  {| product.ID := 503%N; product.Name := "Caesar Salad";
     product.Description := "Romaine salad"; product.PriceCents := 799;
     product.Category := "salads"; product.ImageURL := "";
     product.IsAvailable := true;
     product.CreatedAt := mongo.DateTime Examples.t0;
     product.UpdatedAt := mongo.DateTime Examples.t0 |}.

Definition menu : list product.Product := [burger; pizza; salad].

(** A later call, at a time that is not a whole millisecond. *)
Definition penv : product.Env :=
  {| product.new_id := 504%N; product.now := Examples.t0 + 90 * Second + 1 |}.

Definition new_product : product.CreateRequest :=
  {| product.cName := "Test Product"; product.cDescription := "A test product";
     product.cPriceCents := 1299; product.cCategory := "test";
     product.cImageURL := ""; product.cIsAvailable := None |}.

Definition new_price : product.UpdateRequest :=
  {| product.uName := None; product.uDescription := None;
     product.uPriceCents := Some 1099; product.uCategory := None;
     product.uImageURL := None; product.uIsAvailable := None |}.

(** A server that selects every product for every text query and returns
    products in the order of the collection. *)
Definition any_text (q : string) (p : product.Product) : bool := true.
Definition unsorted (field : string) (order : Z) (l : list product.Product)
  : list product.Product := l.

End Scenarios.

(* ===================================================================== *)
(** * Properties                                                          *)
(* ===================================================================== *)

(** ** Time *)

Lemma Truncate_le (t : Time) (d : Duration) : Truncate t d <= t.
Proof.
  unfold Truncate. destruct (d <=? 0) eqn:Hd; [lia|].
  apply Z.leb_gt in Hd.
  pose proof (Z.mod_pos_bound (t + unixToInternal * Second) d Hd). lia.
Qed.

Lemma Truncate_gt (t : Time) (d : Duration) : 0 < d -> t - d < Truncate t d.
Proof.
  intros Hd. unfold Truncate.
  destruct (d <=? 0) eqn:E; [apply Z.leb_le in E; lia|].
  pose proof (Z.mod_pos_bound (t + unixToInternal * Second) d Hd). lia.
Qed.

Lemma NewNumericDate_le (t : Time) : jwt.NewNumericDate t <= t.
Proof. apply Truncate_le. Qed.

Lemma NewNumericDate_gt (t : Time) : t - Second < jwt.NewNumericDate t.
Proof. apply Truncate_gt. reflexivity. Qed.

(** ** The access token codec *)

Lemma GetSigningMethod_Alg (m : jwt.SigningMethod) :
  jwt.GetSigningMethod (jwt.Alg m) = Some m.
Proof. destruct m as [h|h|h|h| |]; try destruct h; reflexivity. Qed.

Lemma GetSigningMethod_inv (a : string) (m : jwt.SigningMethod) :
  jwt.GetSigningMethod a = Some m -> jwt.Alg m = a.
Proof.
  unfold jwt.GetSigningMethod. intros Hf.
  apply find_some in Hf. destruct Hf as [_ Heq].
  now apply String.eqb_eq in Heq.
Qed.

Section Codec.
Import authjwt.
Variable j : JWTManager.

Lemma GenerateAccessToken_eq (now : Time) (userID email : string) :
  GenerateAccessToken j now userID email
  = inr (jwt.Compact HS256_header (issued_claims j now userID email)
           (jwt.HMACSig jwt.SHA256 (secret j) HS256_header
              (issued_claims j now userID email))).
Proof. reflexivity. Qed.

(** What an accepted token looks like: its header names one of the HMAC
    methods, its signature is the MAC of that method under the manager's
    secret, and the time claims it carries hold at [now]. *)
Lemma ValidateAccessToken_accepted (now : Time) (tok : AccessToken) (c : Claims) :
  ValidateAccessToken j now tok = inr c ->
  exists hdr h,
    tok = jwt.Compact hdr c (jwt.HMACSig h (secret j) hdr c)
    /\ jwt.alg hdr = Some (jwt.Alg (jwt.SigningMethodHMAC h))
    /\ (forall exp, ExpiresAt c = Some exp -> now < exp)
    /\ (forall nbf, jwt.NotBefore (Registered c) = Some nbf -> nbf <= now).
Proof.
  unfold ValidateAccessToken, jwt.ParseWithClaims, jwt.ParseUnverified.
  destruct tok as [hdr c0 sig|raw]; [|discriminate].
  destruct (jwt.alg hdr) as [a|] eqn:Ha; [|discriminate].
  destruct (jwt.GetSigningMethod a) as [m|] eqn:Hm; [|discriminate].
  apply GetSigningMethod_inv in Hm. subst a.
  unfold keyFunc; cbn [jwt.Method jwt.Header jwt.TokenClaims jwt.Signature].
  destruct m as [h|h|h|h| |]; try discriminate.
  cbn [jwt.Verify].
  destruct (jwt.Sig_eq_dec sig (jwt.HMACSig h (secret j) hdr c0)) as [->|];
    [|discriminate].
  unfold jwt.Validate, jwt.verifyExpiresAt, jwt.verifyNotBefore, ExpiresAt.
  cbn [jwt.GetExpirationTime jwt.GetNotBefore Claims_jwt].
  intros Hok. exists hdr, h.
  assert (Hc : c0 = c
               /\ (forall exp, jwt.ExpiresAt (Registered c0) = Some exp -> now < exp)
               /\ (forall nbf, jwt.NotBefore (Registered c0) = Some nbf -> nbf <= now)).
  { destruct (jwt.ExpiresAt (Registered c0)) as [exp|];
      destruct (jwt.NotBefore (Registered c0)) as [nbf|];
      unfold Before in Hok;
      repeat match type of Hok with
             | context [?a <? ?b] => destruct (Z.ltb_spec a b)
             end; cbn in Hok; try discriminate;
      injection Hok as <-;
      (split; [reflexivity|split]); intros ? [= <-] || (intros ?; discriminate);
      lia. }
  destruct Hc as (<- & Hexp & Hnbf). auto.
Qed.

End Codec.

Section CodecLaws.
Import authjwt.
Variable j : JWTManager.

(** The converse of [ValidateAccessToken_accepted]. *)
Lemma ValidateAccessToken_accepts (now : Time) (hdr : jwt.JOSEHeader)
      (h : jwt.Hash) (c : Claims) :
  jwt.alg hdr = Some (jwt.Alg (jwt.SigningMethodHMAC h)) ->
  (forall exp, ExpiresAt c = Some exp -> now < exp) ->
  (forall nbf, jwt.NotBefore (Registered c) = Some nbf -> nbf <= now) ->
  ValidateAccessToken j now (jwt.Compact hdr c (jwt.HMACSig h (secret j) hdr c))
  = inr c.
Proof.
  intros Ha Hexp Hnbf.
  unfold ValidateAccessToken, jwt.ParseWithClaims, jwt.ParseUnverified.
  rewrite Ha, GetSigningMethod_Alg.
  unfold keyFunc; cbn [jwt.Method jwt.Header jwt.TokenClaims jwt.Signature jwt.Verify].
  destruct (jwt.Sig_eq_dec _ _) as [_|Hne]; [|now elim Hne].
  unfold jwt.Validate, jwt.verifyExpiresAt, jwt.verifyNotBefore, ExpiresAt in *.
  cbn [jwt.GetExpirationTime jwt.GetNotBefore Claims_jwt].
  destruct (jwt.ExpiresAt (Registered c)) as [exp|].
  - specialize (Hexp exp eq_refl). unfold Before.
    destruct (Z.ltb_spec now exp); [|lia].
    destruct (jwt.NotBefore (Registered c)) as [nbf|]; [|reflexivity].
    specialize (Hnbf nbf eq_refl). destruct (Z.ltb_spec now nbf); [lia|reflexivity].
  - destruct (jwt.NotBefore (Registered c)) as [nbf|]; [|reflexivity].
    specialize (Hnbf nbf eq_refl). unfold Before.
    destruct (Z.ltb_spec now nbf); [lia|reflexivity].
Qed.

(** A well-formed token whose ["exp"] has been reached is refused, and
    the error is [jwt.ErrTokenExpired] (wrapped), whatever else is wrong
    with its claims, provided its algorithm and signature pass. *)
Lemma ValidateAccessToken_expired (now : Time) (hdr : jwt.JOSEHeader)
      (h : jwt.Hash) (c : Claims) (exp : Time) :
  jwt.alg hdr = Some (jwt.Alg (jwt.SigningMethodHMAC h)) ->
  ExpiresAt c = Some exp -> exp <= now ->
  exists err,
    ValidateAccessToken j now (jwt.Compact hdr c (jwt.HMACSig h (secret j) hdr c))
    = inl err
    /\ errors_Is err ErrTokenExpired = true.
Proof.
  intros Ha Hexp Hle.
  unfold ValidateAccessToken, jwt.ParseWithClaims, jwt.ParseUnverified.
  rewrite Ha, GetSigningMethod_Alg.
  unfold keyFunc; cbn [jwt.Method jwt.Header jwt.TokenClaims jwt.Signature jwt.Verify].
  destruct (jwt.Sig_eq_dec _ _) as [_|Hne]; [|now elim Hne].
  unfold jwt.Validate, jwt.verifyExpiresAt, jwt.verifyNotBefore, ExpiresAt in *.
  cbn [jwt.GetExpirationTime jwt.GetNotBefore Claims_jwt].
  rewrite Hexp. unfold Before at 1.
  destruct (Z.ltb_spec now exp); [lia|].
  destruct (jwt.NotBefore (Registered c)) as [nbf|];
    [destruct (negb (Before now nbf))|]; eexists; split; reflexivity.
Qed.

(** A token whose header names a method that is not one of the HMAC
    methods is refused before its signature is looked at. *)
Lemma ValidateAccessToken_rejects_non_HMAC (now : Time) (hdr : jwt.JOSEHeader)
      (c : Claims) (sig : jwt.Sig Claims) :
  (forall h, jwt.alg hdr <> Some (jwt.Alg (jwt.SigningMethodHMAC h))) ->
  exists err,
    ValidateAccessToken j now (jwt.Compact hdr c sig) = inl err
    /\ errors_Is err ErrTokenUnverifiable = true.
Proof.
  intros Hno.
  unfold ValidateAccessToken, jwt.ParseWithClaims, jwt.ParseUnverified.
  destruct (jwt.alg hdr) as [a|] eqn:Ha; [|eexists; split; reflexivity].
  destruct (jwt.GetSigningMethod a) as [m|] eqn:Hm; [|eexists; split; reflexivity].
  apply GetSigningMethod_inv in Hm. subst a.
  unfold keyFunc; cbn [jwt.Method].
  destruct m as [h|h|h|h| |]; try (eexists; split; reflexivity).
  now elim (Hno h).
Qed.

End CodecLaws.

(** C3. The code at the input on which it departs from the claim: a token
    whose header declares HS384 and whose signature is the HMAC-SHA384 of
    its signing input under the configured secret is not refused;
    [ValidateAccessToken] returns its claims. *)
Theorem ValidateAccessToken_accepts_HS384 :
  authjwt.ValidateAccessToken Examples.mgr Examples.t0
    (Examples.HS384_token (authjwt.secret Examples.mgr) Examples.claims_user123)
  = inr Examples.claims_user123.
Proof. vm_compute. reflexivity. Qed.

(** C6, as stated, fails: a token signed with the secret that carries no
    expiresAt claim is accepted, although it has no expiresAt claim that is
    greater than the current time. *)
Lemma decode_accepts_token_without_expiry :
  authjwt.ValidateAccessToken Examples.mgr Examples.t0 Examples.token_no_exp
  = inr Examples.claims_no_exp
  /\ ~ (exists exp, authjwt.ExpiresAt Examples.claims_no_exp = Some exp
                    /\ Examples.t0 < exp).
Proof.
  split; [vm_compute; reflexivity|].
  intros [exp [Hexp _]]. discriminate Hexp.
Qed.

(** C6, amended. [ValidateAccessToken] accepts a token only if the
    expiresAt claim that the token carries, if it carries one, is strictly
    greater than the time of the check (no leeway: an expiresAt equal to
    that time is refused); every token made by [GenerateAccessToken]
    carries expiresAt; and a token made with a negative TTL is refused at
    the instant of its making and at any later one, with an error that is
    [jwt.ErrTokenExpired]. *)
Theorem decode_expiry_strict (j : authjwt.JWTManager) (now now' : Time)
        (userID email : string) (tok : authjwt.AccessToken) (c : authjwt.Claims) :
  (authjwt.ValidateAccessToken j now tok = inr c ->
   forall exp, authjwt.ExpiresAt c = Some exp -> now < exp)
  /\ (exists tok' c',
        authjwt.GenerateAccessToken j now userID email = inr tok'
        /\ authjwt.claims_of tok' = Some c'
        /\ authjwt.ExpiresAt c'
           = Some (jwt.NewNumericDate (Add now (authjwt.accessTTL j))))
  /\ (authjwt.accessTTL j < 0 -> now <= now' ->
      exists tok' err,
        authjwt.GenerateAccessToken j now userID email = inr tok'
        /\ authjwt.ValidateAccessToken j now' tok' = inl err
        /\ errors_Is err ErrTokenExpired = true).
Proof.
  split; [|split].
  - intros Hok exp Hexp.
    destruct (ValidateAccessToken_accepted j now tok c Hok) as (hdr & h & _ & _ & He & _).
    now apply He.
  - rewrite GenerateAccessToken_eq. eexists _, _. repeat split.
  - intros Hneg Hle. rewrite GenerateAccessToken_eq.
    destruct (ValidateAccessToken_expired j now' authjwt.HS256_header jwt.SHA256
                (authjwt.issued_claims j now userID email)
                (jwt.NewNumericDate (Add now (authjwt.accessTTL j))))
      as (err & Herr & His).
    + reflexivity.
    + reflexivity.
    + pose proof (NewNumericDate_le (Add now (authjwt.accessTTL j))).
      unfold Add in *. lia.
    + eexists _, err. repeat split; assumption.
Qed.

Lemma decode_expiry_strict_witness :
  (exists c, authjwt.ValidateAccessToken Examples.mgr Examples.t0
               Examples.token_user123 = inr c
             /\ forall exp, authjwt.ExpiresAt c = Some exp -> Examples.t0 < exp)
  /\ authjwt.accessTTL Examples.mgr_expired < 0
  /\ exists tok' err,
       authjwt.GenerateAccessToken Examples.mgr_expired Examples.t0
         "user123" "user@example.com" = inr tok'
       /\ authjwt.ValidateAccessToken Examples.mgr_expired Examples.t0 tok' = inl err
       /\ errors_Is err ErrTokenExpired = true.
Proof.
  split; [|split].
  - exists Examples.claims_user123. split; [vm_compute; reflexivity|].
    apply (decode_expiry_strict Examples.mgr Examples.t0 Examples.t0 "" ""
             Examples.token_user123 Examples.claims_user123).
    vm_compute; reflexivity.
  - reflexivity.
  - apply (decode_expiry_strict Examples.mgr_expired Examples.t0 Examples.t0
             "user123" "user@example.com"
             (jwt.Malformed "") Examples.claims_user123).
    + reflexivity.
    + apply Z.le_refl.
Defined.




(** ** Collections *)

Lemma NoDup_map_eq {A B : Type} (f : A -> B) (l : list A) (a b : A) :
  NoDup (map f l) -> In a l -> In b l -> f a = f b -> a = b.
Proof.
  induction l as [|x l IH]; cbn; intros Hnd Ha Hb Hf; [contradiction|].
  inversion Hnd as [|? ? Hx Hl]; subst.
  destruct Ha as [->|Ha], Hb as [->|Hb]; auto.
  - elim Hx. rewrite Hf. now apply in_map.
  - elim Hx. rewrite <- Hf. now apply in_map.
Qed.

Lemma filter_keeps_unique_keys {D K : Type} (key : D -> K) (keep : D -> bool) :
  forall col : list D, NoDup (map key col) -> NoDup (map key (filter keep col)).
Proof.
  intros col. induction col as [|d rest IH]; cbn; intros Hnd; [constructor|].
  inversion Hnd as [|? ? Hd Hrest]; subst.
  destruct (keep d); cbn; auto.
  constructor; auto.
  intros Hin. apply Hd. apply in_map_iff in Hin. destruct Hin as (y & Hy & Hin).
  apply filter_In in Hin. apply in_map_iff. exists y. tauto.
Qed.

Section UpdateLaws.
Context {D K : Type}.
Variable key : D -> K.
Variable key_eqb : K -> K -> bool.
Hypothesis key_eqb_spec : forall a b, key_eqb a b = true <-> a = b.
Variable update : D -> D.
Hypothesis update_key : forall d, key (update d) = key d.

Lemma UpdateOne_keys (col : list D) (filter : D -> bool) :
  map key (mongo.UpdateOne col filter update) = map key col.
Proof.
  induction col as [|d rest IH]; cbn; [reflexivity|].
  destruct (filter d); cbn; [now rewrite update_key|now rewrite IH].
Qed.

Lemma UpdateMany_keys (col : list D) (filter : D -> bool) :
  map key (mongo.UpdateMany col filter update) = map key col.
Proof.
  unfold mongo.UpdateMany. rewrite map_map. apply map_ext.
  intros d. destruct (filter d); [apply update_key|reflexivity].
Qed.

(** With unique keys, an update by key touches the document that has the
    key and no other. *)
Lemma UpdateOne_by_key_In (col : list D) (k : K) (r : D) :
  NoDup (map key col) ->
  In r (mongo.UpdateOne col (fun d => key_eqb (key d) k) update) ->
  (exists r0, In r0 col /\ key r0 = k /\ r = update r0)
  \/ (In r col /\ key r <> k).
Proof.
  induction col as [|d rest IH]; cbn; intros Hnd Hin; [contradiction|].
  inversion Hnd as [|? ? Hd Hrest]; subst.
  destruct (key_eqb (key d) k) eqn:E.
  - apply key_eqb_spec in E. destruct Hin as [<-|Hin].
    + left. exists d. auto.
    + right. split; [auto|]. intros Hk. apply Hd. rewrite E, <- Hk.
      now apply in_map.
  - assert (key d <> k) by (intros Hk; apply key_eqb_spec in Hk; congruence).
    destruct Hin as [<-|Hin]; [right; auto|].
    destruct (IH Hrest Hin) as [(r0 & ? & ? & ?)|[? ?]]; [left; eauto|right; auto].
Qed.

Lemma UpdateOne_by_key_hits (col : list D) (d : D) :
  NoDup (map key col) -> In d col ->
  In (update d) (mongo.UpdateOne col (fun d' => key_eqb (key d') (key d)) update).
Proof.
  induction col as [|x rest IH]; cbn; intros Hnd Hin; [contradiction|].
  inversion Hnd as [|? ? Hx Hrest]; subst.
  destruct (key_eqb (key x) (key d)) eqn:E.
  - apply key_eqb_spec in E. destruct Hin as [->|Hin]; [now left|].
    elim Hx. rewrite E. now apply in_map.
  - destruct Hin as [->|Hin].
    + assert (key_eqb (key d) (key d) = true) by now apply key_eqb_spec.
      congruence.
    + right. auto.
Qed.

End UpdateLaws.

(** ** The refresh token store and rotation *)

Section RefreshLaws.
Import auth.
Variable s : Service.

Lemma set_revoked_revoked (rt : RefreshToken) :
  Revoked rt = true -> set_revoked rt = rt.
Proof. destruct rt; cbn; intros ->; reflexivity. Qed.

Lemma FindRefreshToken_total (col : list RefreshToken) (token : string) :
  FindRefreshToken col token
  = inr (find (fun rt => String.eqb (Token rt) token && Bool.eqb (Revoked rt) false)
              col).
Proof.
  unfold FindRefreshToken, mongo.FindOne.
  destruct (find _ col); reflexivity.
Qed.

Lemma FindRefreshToken_Some (col : list RefreshToken) (token : string)
      (rt : RefreshToken) :
  FindRefreshToken col token = inr (Some rt) ->
  In rt col /\ Token rt = token /\ Revoked rt = false.
Proof.
  rewrite FindRefreshToken_total. intros [= Hf].
  apply find_some in Hf. destruct Hf as [Hin Hb].
  apply andb_prop in Hb. destruct Hb as [Ht Hr].
  apply String.eqb_eq in Ht. apply Bool.eqb_prop in Hr. auto.
Qed.

Lemma FindRefreshToken_None (col : list RefreshToken) (token : string) :
  FindRefreshToken col token = inr None ->
  forall rt, In rt col -> Token rt = token -> Revoked rt = true.
Proof.
  rewrite FindRefreshToken_total. intros [= Hf] rt Hin Ht.
  pose proof (find_none _ _ Hf rt Hin) as Hb. cbn in Hb.
  apply String.eqb_eq in Ht. rewrite Ht in Hb. cbn in Hb.
  destruct (Revoked rt); [reflexivity|discriminate].
Qed.

(** [issueTokens] succeeds exactly when the random read succeeds and the
    new document collides with none on a unique index; it then appends
    the document and returns the response. *)
Lemma issueTokens_inr (env : Env) (col col' : list RefreshToken)
      (userID : ObjectID) (email : string) (resp : TokenResponse) :
  issueTokens s env col userID email = (col', inr resp) ->
  exists refreshStr,
    rand_token env = Some refreshStr
    /\ existsb (fun d => collide d (issued_record s env userID refreshStr)) col = false
    /\ col' = (col ++ [issued_record s env userID refreshStr])%list
    /\ resp = issued_response s env userID email refreshStr.
Proof.
  unfold issueTokens.
  replace (if String.eqb email "" then "" else email) with email
    by (destruct (String.eqb_spec email ""); congruence).
  rewrite GenerateAccessToken_eq. unfold GenerateRefreshTokenString.
  destruct (rand_token env) as [refreshStr|] eqn:Hr; [|discriminate].
  unfold CreateRefreshToken, mongo.InsertOne, marshal.
  cbn [ID UserID Token ExpiresAt Revoked CreatedAt].
  fold (issued_record s env userID refreshStr).
  destruct (existsb _ col) eqn:Hex; [discriminate|].
  intros [= <- <-]. exists refreshStr. repeat split; assumption.
Qed.

Lemma issueTokens_ok (env : Env) (col : list RefreshToken)
      (userID : ObjectID) (email refreshStr : string) :
  rand_token env = Some refreshStr ->
  existsb (fun d => collide d (issued_record s env userID refreshStr)) col = false ->
  issueTokens s env col userID email
  = ((col ++ [issued_record s env userID refreshStr])%list,
     inr (issued_response s env userID email refreshStr)).
Proof.
  intros Hr Hex. unfold issueTokens.
  replace (if String.eqb email "" then "" else email) with email
    by (destruct (String.eqb_spec email ""); congruence).
  rewrite GenerateAccessToken_eq, Hr. unfold GenerateRefreshTokenString.
  unfold CreateRefreshToken, mongo.InsertOne, marshal.
  cbn [ID UserID Token ExpiresAt Revoked CreatedAt].
  fold (issued_record s env userID refreshStr).
  rewrite Hex. reflexivity.
Qed.

(** A successful [Refresh] found a document that holds the secret, is not
    revoked and has not expired, revoked it by its id and issued. *)
Lemma Refresh_inr (env : Env) (col col' : list RefreshToken) (secret : string)
      (resp : TokenResponse) :
  Refresh s env col secret = (col', inr resp) ->
  exists rt,
    FindRefreshToken col secret = inr (Some rt)
    /\ now_refresh env <= ExpiresAt rt
    /\ issueTokens s env (fst (RevokeRefreshToken col (ID rt))) (UserID rt) ""
       = (col', inr resp).
Proof.
  unfold Refresh.
  destruct (FindRefreshToken col secret) as [err|[rt|]] eqn:Hf; try discriminate.
  unfold After. destruct (Z.ltb_spec (ExpiresAt rt) (now_refresh env));
    [discriminate|].
  cbn. intros Hi. exists rt. auto.
Qed.

(** A dead secret is refused, and nothing is written. *)
Lemma Refresh_dead (env : Env) (col : list RefreshToken) (secret : string) :
  dead (now_refresh env) col secret ->
  Refresh s env col secret = (col, inl (Err ErrInvalidRefreshToken)).
Proof.
  intros Hdead. unfold Refresh.
  destruct (FindRefreshToken col secret) as [err|[rt|]] eqn:Hf.
  - rewrite FindRefreshToken_total in Hf. discriminate.
  - apply FindRefreshToken_Some in Hf. destruct Hf as (Hin & Ht & Hr).
    destruct (Hdead rt Hin Ht) as [Hrev|Hexp]; [congruence|].
    unfold After. destruct (Z.ltb_spec (ExpiresAt rt) (now_refresh env));
      [reflexivity|lia].
  - reflexivity.
Qed.

Lemma dead_mono (now now' : Time) (col : list RefreshToken) (secret : string) :
  now <= now' -> dead now col secret -> dead now' col secret.
Proof.
  intros Hle Hd rt Hin Ht. destruct (Hd rt Hin Ht); [left|right]; auto; lia.
Qed.

Lemma refresh_each_dead (envs : list Env) (col : list RefreshToken)
      (secret : string) :
  (forall env, In env envs -> dead (now_refresh env) col secret) ->
  refresh_each s envs col secret
  = (map (fun _ => inl (Err ErrInvalidRefreshToken)) envs, col).
Proof.
  induction envs as [|env envs IH]; cbn; intros Hd; [reflexivity|].
  rewrite Refresh_dead by (apply Hd; now left).
  rewrite IH by (intros e He; apply Hd; now right). reflexivity.
Qed.

Lemma N_eqb_spec' (a b : N) : N.eqb a b = true <-> a = b.
Proof. apply N.eqb_eq. Qed.

(** After a successful [Refresh] on a collection with unique ids and
    unique secrets, every document that holds the presented secret is
    revoked. *)
Lemma Refresh_inr_revokes (env : Env) (col col' : list RefreshToken)
      (secret : string) (resp : TokenResponse) :
  NoDup (map ID col) -> NoDup (map Token col) ->
  Refresh s env col secret = (col', inr resp) ->
  forall rt, In rt col' -> Token rt = secret -> Revoked rt = true.
Proof.
  intros Hids Htoks Hok.
  apply Refresh_inr in Hok. destruct Hok as (rt0 & Hf & _ & Hi).
  apply FindRefreshToken_Some in Hf. destruct Hf as (Hin0 & Ht0 & Hr0).
  apply issueTokens_inr in Hi.
  destruct Hi as (refreshStr & _ & Hex & -> & _). cbn in Hex.
  intros rt Hin Ht. apply in_app_or in Hin. destruct Hin as [Hin|[<-|[]]].
  - apply (UpdateOne_by_key_In ID N.eqb N_eqb_spec' set_revoked) in Hin; [|assumption].
    destruct Hin as [(r0 & _ & _ & ->)|[Hin Hne]]; [reflexivity|].
    elim Hne. f_equal.
    apply (NoDup_map_eq Token col rt rt0); congruence.
  - cbn in Ht. subst refreshStr.
    pose proof (UpdateOne_by_key_hits ID N.eqb N_eqb_spec' set_revoked
                  col rt0 Hids Hin0) as Hhit.
    assert (Hc : existsb (fun d => collide d (issued_record s env (UserID rt0) secret))
                   (mongo.UpdateOne col (fun rt => N.eqb (ID rt) (ID rt0)) set_revoked)
                 = true).
    { apply existsb_exists. exists (set_revoked rt0). split; [exact Hhit|].
      unfold collide; cbn. rewrite N.eqb_refl, Ht0, String.eqb_refl.
      apply orb_true_r. }
    congruence.
Qed.

(** [CreateRefreshToken] adds a document only when its id is new. *)
Lemma InsertOne_ids (col : list RefreshToken) (rt : RefreshToken) :
  NoDup (map ID col) ->
  NoDup (map ID (fst (mongo.InsertOne collide col rt))).
Proof.
  intros Hnd. unfold mongo.InsertOne.
  destruct (existsb _ col) eqn:Hex; cbn; [assumption|].
  rewrite map_app; cbn.
  apply NoDup_app; [assumption|constructor; [intros []|constructor]|].
  intros x Hx [<-|[]].
  apply in_map_iff in Hx. destruct Hx as (d & Hd & Hin).
  assert (existsb (fun d => collide d rt) col = true); [|congruence].
  apply existsb_exists. exists d. split; [assumption|].
  unfold collide. rewrite Hd, N.eqb_refl. reflexivity.
Qed.

(** The unique index on [_id] is an invariant of the store. *)
Lemma apply_op_ids_unique (op : StoreOp) (col : list RefreshToken) :
  NoDup (map ID col) -> NoDup (map ID (apply_op op col)).
Proof.
  intros Hnd. destruct op as [env rt|token|id|userID|now]; cbn.
  - unfold CreateRefreshToken.
    match goal with
    | |- context [mongo.InsertOne collide col ?r] =>
        pose proof (InsertOne_ids col r Hnd) as Hi;
        destruct (mongo.InsertOne collide col r) as [c [e|]]
    end; exact Hi.
  - assumption.
  - now rewrite (UpdateOne_keys ID set_revoked (fun d => eq_refl)).
  - now rewrite (UpdateMany_keys ID set_revoked (fun d => eq_refl)).
  - now apply filter_keeps_unique_keys.
Qed.

(** No operation of the store turns a revoked document into anything
    else: it stays as it is, unless the TTL index deletes it. *)
Lemma apply_op_keeps_revoked (op : StoreOp) (col : list RefreshToken)
      (rt : RefreshToken) :
  In rt col -> Revoked rt = true ->
  In rt (apply_op op col)
  \/ (exists now, op = OpExpire now /\ ExpiresAt rt < now).
Proof.
  intros Hin Hrev. destruct op as [env rt'|token|id|userID|now]; cbn.
  - left. unfold CreateRefreshToken, mongo.InsertOne.
    destruct (existsb _ col); cbn; [assumption|].
    apply in_or_app. now left.
  - left. assumption.
  - left. induction col as [|d rest IH]; cbn; [contradiction|].
    destruct Hin as [->|Hin].
    + destruct (N.eqb (ID rt) id); [|now left].
      left. now apply set_revoked_revoked.
    + destruct (N.eqb (ID d) id); right; auto.
  - left. unfold mongo.UpdateMany. apply in_map_iff. exists rt.
    split; [|assumption]. rewrite Hrev. now rewrite andb_false_r.
  - unfold ttl_monitor. destruct (Z.ltb_spec (ExpiresAt rt) now) as [Hlt|Hge].
    + right. eauto.
    + left. apply filter_In. split; [assumption|].
      destruct (Z.ltb_spec (ExpiresAt rt) now); [lia|reflexivity].
Qed.

End RefreshLaws.

(** C2. Rotation, for calls made one after the other. If [Refresh]
    succeeds with a secret, on a collection whose ids and secrets are
    unique, the next [Refresh] with the same secret fails with
    [ErrInvalidRefreshToken] and writes nothing. And a [Refresh] with a
    secret that is dead (every document that holds it, if there is one, is
    revoked, by rotation or explicitly, or has expired) fails with that
    same error and writes nothing: no token is issued. *)
Theorem refresh_rotation (s : auth.Service) (env env' : auth.Env)
        (col col1 : list auth.RefreshToken) (secret : string)
        (resp : auth.TokenResponse) :
  (NoDup (map auth.ID col) -> NoDup (map auth.Token col) ->
   auth.Refresh s env col secret = (col1, inr resp) ->
   auth.Refresh s env' col1 secret = (col1, inl (Err ErrInvalidRefreshToken)))
  /\ ((forall rt, In rt col -> auth.Token rt = secret ->
                  auth.Revoked rt = true \/ auth.ExpiresAt rt < auth.now_refresh env) ->
      auth.Refresh s env col secret = (col, inl (Err ErrInvalidRefreshToken))).
Proof.
  split.
  - intros Hids Htoks Hok. apply Refresh_dead.
    intros rt Hin Ht. left.
    exact (Refresh_inr_revokes s env col col1 secret resp Hids Htoks Hok rt Hin Ht).
  - intros Hdead. now apply Refresh_dead.
Qed.

Lemma refresh_rotation_witness :
  (exists col1 resp,
      auth.Refresh Examples.svc (Examples.env_n 1) Examples.store0 Examples.secretA
      = (col1, inr resp)
      /\ auth.Refresh Examples.svc (Examples.env_n 2) col1 Examples.secretA
         = (col1, inl (Err ErrInvalidRefreshToken)))
  /\ auth.Refresh Examples.svc (Examples.env_n 1) Examples.store_revoked Examples.secretA
     = (Examples.store_revoked, inl (Err ErrInvalidRefreshToken))
  /\ auth.Refresh Examples.svc Examples.env_late Examples.store0 Examples.secretA
     = (Examples.store0, inl (Err ErrInvalidRefreshToken))
  /\ auth.Refresh Examples.svc (Examples.env_n 1) Examples.store0 "bm8tc3VjaC1zZWNyZXQ="
     = (Examples.store0, inl (Err ErrInvalidRefreshToken)).
Proof.
  split; [|split; [|split]].
  - eexists _, _. split; [lazy; reflexivity|].
    eapply (refresh_rotation Examples.svc (Examples.env_n 1) (Examples.env_n 2)
              Examples.store0 _ Examples.secretA _).
    + repeat constructor. intros [].
    + repeat constructor. intros [].
    + lazy; reflexivity.
  - apply (refresh_rotation Examples.svc (Examples.env_n 1) (Examples.env_n 1)
             Examples.store_revoked Examples.store_revoked Examples.secretA
             (auth.issued_response Examples.svc (Examples.env_n 1) 0%N "" "")).
    intros rt [<-|[]] _. left. reflexivity.
  - apply (refresh_rotation Examples.svc Examples.env_late Examples.env_late
             Examples.store0 Examples.store0 Examples.secretA
             (auth.issued_response Examples.svc (Examples.env_n 1) 0%N "" "")).
    intros rt [<-|[]] _. right. vm_compute. reflexivity.
  - apply (refresh_rotation Examples.svc (Examples.env_n 1) (Examples.env_n 1)
             Examples.store0 Examples.store0 "bm8tc3VjaC1zZWNyZXQ="
             (auth.issued_response Examples.svc (Examples.env_n 1) 0%N "" "")).
    intros rt [<-|[]] Ht. vm_compute in Ht. discriminate Ht.
Defined.

(** C4. A consumed refresh record is terminal. No operation of the store
    (create, find, revoke, revoke-all, the TTL index) changes a document
    whose revoked flag is true: the document stays in the collection as it
    is, revoked, unless the TTL index deletes it. A [Refresh] that succeeds
    was authenticated by a document that holds the presented secret, is not
    revoked and whose expiresAt does not lie in the past. And once every
    document that holds a secret is revoked or expired, every later
    presentation of the secret to [Refresh], however many there are, fails
    with [ErrInvalidRefreshToken] and leaves the collection untouched. *)
Theorem revoked_or_expired_is_terminal (s : auth.Service) :
  (forall op col rt,
      In rt col -> auth.Revoked rt = true ->
      In rt (auth.apply_op op col)
      \/ (exists now, op = auth.OpExpire now /\ auth.ExpiresAt rt < now))
  /\ (forall env col secret col' resp,
         auth.Refresh s env col secret = (col', inr resp) ->
         exists rt,
           auth.FindRefreshToken col secret = inr (Some rt)
           /\ In rt col /\ auth.Token rt = secret
           /\ auth.Revoked rt = false
           /\ auth.now_refresh env <= auth.ExpiresAt rt)
  /\ (forall now envs col secret,
         auth.dead now col secret ->
         (forall env, In env envs -> now <= auth.now_refresh env) ->
         auth.refresh_each s envs col secret
         = (map (fun _ => inl (Err ErrInvalidRefreshToken)) envs, col)).
Proof.
  split; [|split].
  - intros op col rt. apply apply_op_keeps_revoked.
  - intros env col secret col' resp Hok.
    apply Refresh_inr in Hok. destruct Hok as (rt & Hf & Hexp & _).
    exists rt. pose proof (FindRefreshToken_Some _ _ _ Hf) as (Hin & Ht & Hr).
    auto.
  - intros now envs col secret Hdead Hlater.
    apply refresh_each_dead. intros env Hin.
    apply dead_mono with (now := now); auto.
Qed.

Lemma revoked_or_expired_is_terminal_witness :
  In (auth.set_revoked Examples.recordA)
     (auth.apply_op (auth.OpCreate (Examples.env_n 1) Examples.recordA)
                    Examples.store_revoked)
  /\ (exists rt,
         auth.FindRefreshToken Examples.store0 Examples.secretA = inr (Some rt)
         /\ In rt Examples.store0 /\ auth.Token rt = Examples.secretA
         /\ auth.Revoked rt = false
         /\ auth.now_refresh (Examples.env_n 1) <= auth.ExpiresAt rt)
  /\ auth.refresh_each Examples.svc
       [Examples.env_n 1; Examples.env_n 2; Examples.env_n 3]
       Examples.store_revoked Examples.secretA
     = ([inl (Err ErrInvalidRefreshToken); inl (Err ErrInvalidRefreshToken);
         inl (Err ErrInvalidRefreshToken)], Examples.store_revoked).
Proof.
  pose proof (revoked_or_expired_is_terminal Examples.svc) as (H1 & H2 & H3).
  split; [|split].
  - destruct (H1 (auth.OpCreate (Examples.env_n 1) Examples.recordA)
                 Examples.store_revoked (auth.set_revoked Examples.recordA))
      as [Hin|(now & Hop & _)].
    + now left.
    + reflexivity.
    + exact Hin.
    + discriminate Hop.
  - eapply (H2 (Examples.env_n 1) Examples.store0 Examples.secretA).
    lazy; reflexivity.
  - apply (H3 Examples.t0).
    + intros rt [<-|[]] _. left. reflexivity.
    + intros env [<-|[<-|[<-|[]]]]; vm_compute; discriminate.
Defined.

(** ** Calls of [Refresh] that overlap *)

Section Overlap.
Import auth.
Variable s : Service.

(** A call that runs its three steps with no other call in between is a
    call of [Refresh]. *)
Lemma call_steps_Refresh (env : Env) (col : list RefreshToken) (secret : string) :
  let (c1, col1) := call_step s env (AtFind secret) col in
  let (c2, col2) := call_step s env c1 col1 in
  let (c3, col3) := call_step s env c2 col2 in
  (col3, c3) = (fst (Refresh s env col secret),
                Returned (snd (Refresh s env col secret))).
Proof.
  unfold Refresh; cbn [call_step].
  destruct (FindRefreshToken col secret) as [err|[rt|]]; try reflexivity.
  destruct (After (now_refresh env) (ExpiresAt rt)); [reflexivity|].
  cbn [call_step RevokeRefreshToken fst snd].
  destruct (issueTokens s env _ (UserID rt) "") as [col' r] eqn:E.
  reflexivity.
Qed.

(** Calls made one after the other on a collection with unique ids and
    secrets: when the first succeeds, all the others fail with
    [ErrInvalidRefreshToken]. *)
Lemma refresh_each_one_success (env : Env) (envs : list Env)
      (col col1 : list RefreshToken) (secret : string) (resp : TokenResponse) :
  NoDup (map ID col) -> NoDup (map Token col) ->
  Refresh s env col secret = (col1, inr resp) ->
  refresh_each s (env :: envs) col secret
  = (inr resp :: map (fun _ => inl (Err ErrInvalidRefreshToken)) envs, col1).
Proof.
  intros Hids Htoks Hok. cbn. rewrite Hok.
  rewrite refresh_each_dead; [reflexivity|].
  intros e _ rt Hin Ht. left.
  exact (Refresh_inr_revokes s env col col1 secret resp Hids Htoks Hok rt Hin Ht).
Qed.

End Overlap.

(** The ten calls of the example, run one by one: the first succeeds and
    the nine others fail with [ErrInvalidRefreshToken]. *)
Example ten_calls_one_by_one :
  let (calls, col) :=
    auth.run Examples.svc Examples.one_by_one Examples.ten_calls Examples.store0 in
  map auth.succeeded calls
  = [true; false; false; false; false; false; false; false; false; false]
  /\ map auth.failed_invalid calls
     = [false; true; true; true; true; true; true; true; true; true].
Proof. vm_compute. split; reflexivity. Qed.

(** C1. The code at the input on which it departs from the claim. Ten
    calls of [Refresh] present the secret of one active record. Finding
    the record and revoking it are two operations of the store, a read and
    then an unconditional write by id, so when the ten finds run before the
    first revoke, each call sees [revoked = false]: all ten calls succeed,
    none fails with [ErrInvalidRefreshToken], and the collection ends with
    ten new active refresh tokens for the one secret presented. *)
Theorem refresh_overlapping_calls_all_succeed :
  In Examples.recordA Examples.store0
  /\ auth.Revoked Examples.recordA = false
  /\ auth.now_refresh (Examples.env_n 10) <= auth.ExpiresAt Examples.recordA
  /\ let (calls, col) :=
       auth.run Examples.svc Examples.overlapping Examples.ten_calls Examples.store0 in
     List.length calls = 10%nat
     /\ forallb auth.succeeded calls = true
     /\ existsb auth.failed_invalid calls = false
     /\ List.length (filter (fun rt => negb (auth.Revoked rt)) col) = 10%nat.
Proof.
  split; [now left|]. split; [reflexivity|].
  split; [vm_compute; discriminate|].
  vm_compute. repeat split; reflexivity.
Qed.

(** ** Package [strings] on ASCII text *)

Lemma ascii_lower_idempotent (c : ascii) :
  strings.ascii_lower (strings.ascii_lower c) = strings.ascii_lower c.
Proof. destruct c as [[] [] [] [] [] [] [] []]; reflexivity. Qed.

Lemma ascii_is_space_lower (c : ascii) :
  strings.ascii_is_space (strings.ascii_lower c) = strings.ascii_is_space c.
Proof. destruct c as [[] [] [] [] [] [] [] []]; reflexivity. Qed.

Lemma lower_trim_left (s : string) :
  strings.map_string strings.ascii_lower (strings.trim_left s)
  = strings.trim_left (strings.map_string strings.ascii_lower s).
Proof.
  induction s as [|c s IH]; cbn; [reflexivity|].
  rewrite ascii_is_space_lower.
  destruct (strings.ascii_is_space c); [exact IH|reflexivity].
Qed.

Lemma lower_trim_right (s : string) :
  strings.map_string strings.ascii_lower (strings.trim_right s)
  = strings.trim_right (strings.map_string strings.ascii_lower s).
Proof.
  induction s as [|c s IH]; cbn; [reflexivity|].
  rewrite <- IH, ascii_is_space_lower.
  destruct (strings.trim_right s); cbn; [|reflexivity].
  destruct (strings.ascii_is_space c); reflexivity.
Qed.

Lemma trim_right_cons (c : ascii) (s : string) :
  strings.trim_right (String c s)
  = match strings.trim_right s with
    | EmptyString =>
        if strings.ascii_is_space c then EmptyString else String c EmptyString
    | t => String c t
    end.
Proof. reflexivity. Qed.

Lemma trim_right_idempotent (s : string) :
  strings.trim_right (strings.trim_right s) = strings.trim_right s.
Proof.
  induction s as [|c s IH]; [reflexivity|].
  rewrite trim_right_cons.
  destruct (strings.trim_right s) as [|c' t] eqn:E.
  - destruct (strings.ascii_is_space c) eqn:Hc; [reflexivity|].
    rewrite trim_right_cons. cbn. now rewrite Hc.
  - rewrite trim_right_cons, IH. reflexivity.
Qed.

Lemma trim_left_trim_right (s : string) :
  strings.trim_left (strings.trim_right (strings.trim_left s))
  = strings.trim_right (strings.trim_left s).
Proof.
  induction s as [|c s IH]; [reflexivity|].
  cbn [strings.trim_left].
  destruct (strings.ascii_is_space c) eqn:Hc; [exact IH|].
  rewrite trim_right_cons.
  destruct (strings.trim_right s); cbn [strings.trim_left]; rewrite Hc;
    cbn [strings.trim_left]; rewrite ?Hc; reflexivity.
Qed.

Lemma ASCII_laws : strings.StringsLaws strings.ASCII.
Proof.
  split; cbn.
  - induction s as [|c s IH]; cbn; [reflexivity|].
    now rewrite ascii_lower_idempotent, IH.
  - intros s.
    rewrite lower_trim_right, lower_trim_left, trim_left_trim_right.
    apply trim_right_idempotent.
Qed.

(** ** Login *)

Section LoginLaws.
Import auth.
Context {S : strings.Strings}.
Variable s : Service.

Lemma FindByEmail_total (col : list user.User) (email : string) :
  user.FindByEmail col email
  = inr (find (fun u => String.eqb (user.Email u) email) col).
Proof.
  unfold user.FindByEmail, mongo.FindOne. destruct (find _ col); reflexivity.
Qed.

(** [Authenticate] has two outcomes: the user found under the normalized
    e-mail, when the password matches the stored hash, and
    [ErrInvalidCredentials] otherwise. *)
Lemma Authenticate_inr (col : list user.User) (email password : string)
      (u : user.User) :
  user.Authenticate col email password = inr u ->
  In u col
  /\ user.Email u = strings.ToLower (strings.TrimSpace email)
  /\ bcrypt.CompareHashAndPassword (user.PasswordHash u) password = None.
Proof.
  unfold user.Authenticate. rewrite FindByEmail_total.
  destruct (find _ col) as [u0|] eqn:Hf; [|discriminate].
  destruct (bcrypt.CompareHashAndPassword _ password) eqn:Hc; [discriminate|].
  intros [= <-]. apply find_some in Hf. destruct Hf as [Hin He].
  apply String.eqb_eq in He. auto.
Qed.

Lemma Authenticate_inl (col : list user.User) (email password : string)
      (err : error) :
  user.Authenticate col email password = inl err ->
  err = Err ErrInvalidCredentials.
Proof.
  unfold user.Authenticate. rewrite FindByEmail_total.
  destruct (find _ col) as [u0|]; [|now intros [= <-]].
  destruct (bcrypt.CompareHashAndPassword _ password); [now intros [= <-]|discriminate].
Qed.

(** A successful [Login] authenticated a user and issued for her id and
    her stored e-mail. *)
Lemma Login_inr (env : Env) (db db' : DB) (email password : string)
      (resp : TokenResponse) :
  Login s env db email password = (db', inr resp) ->
  exists u refreshStr,
    user.Authenticate (users db) email password = inr u
    /\ resp = issued_response s env (user.ID u) (user.Email u) refreshStr.
Proof.
  unfold Login.
  destruct (user.Authenticate (users db) email password) as [err|u]; [discriminate|].
  destruct (issueTokens s env (refresh_tokens db) (user.ID u) (user.Email u))
    as [col' r] eqn:Hi.
  intros [= <- ->]. apply issueTokens_inr in Hi.
  destruct Hi as (refreshStr & _ & _ & _ & ->). eauto.
Qed.

(** A successful [Refresh] issued for the user id of the record that it
    found, with the empty e-mail. *)
Lemma Refresh_inr_response (env : Env) (col col' : list RefreshToken)
      (secret : string) (resp : TokenResponse) :
  Refresh s env col secret = (col', inr resp) ->
  exists rt refreshStr,
    FindRefreshToken col secret = inr (Some rt)
    /\ resp = issued_response s env (UserID rt) "" refreshStr.
Proof.
  intros Hok. apply Refresh_inr in Hok. destruct Hok as (rt & Hf & _ & Hi).
  apply issueTokens_inr in Hi. destruct Hi as (refreshStr & _ & _ & _ & ->).
  eauto.
Qed.

End LoginLaws.

(** C5. Whatever the e-mail and the password, if authentication fails,
    either because no user is stored under the (normalized) e-mail or
    because the password does not match the hash of the user found, [Login]
    returns the one error [ErrInvalidCredentials], the same value in both
    cases, and leaves the database as it was: no token is issued. *)
Theorem login_failure_is_uniform {S : strings.Strings} (s : auth.Service)
        (env : auth.Env) (db : auth.DB) (email password : string) :
  (forall u, In u (auth.users db) ->
             user.Email u <> strings.ToLower (strings.TrimSpace email))
  \/ (exists u,
        user.FindByEmail (auth.users db) (strings.ToLower (strings.TrimSpace email))
        = inr (Some u)
        /\ bcrypt.CompareHashAndPassword (user.PasswordHash u) password <> None) ->
  auth.Login s env db email password = (db, inl (Err ErrInvalidCredentials)).
Proof.
  intros H. unfold auth.Login, user.Authenticate.
  destruct H as [Hnone|(u & Hf & Hc)].
  - rewrite FindByEmail_total.
    destruct (find _ (auth.users db)) as [u|] eqn:Hf; [|reflexivity].
    apply find_some in Hf. destruct Hf as [Hin He].
    apply String.eqb_eq in He. now elim (Hnone u Hin).
  - rewrite Hf.
    destruct (bcrypt.CompareHashAndPassword (user.PasswordHash u) password);
      [reflexivity|now elim Hc].
Qed.

Lemma login_failure_is_uniform_witness :
  auth.Login (S := strings.ASCII) Examples.svc (Examples.env_n 1) Examples.db0
    "nonexistent@example.com" "password123"
  = (Examples.db0, inl (Err ErrInvalidCredentials))
  /\ auth.Login (S := strings.ASCII) Examples.svc (Examples.env_n 1) Examples.db0
       "test@example.com" "wrongPass1"
     = (Examples.db0, inl (Err ErrInvalidCredentials)).
Proof.
  split.
  - apply (login_failure_is_uniform (S := strings.ASCII)). left.
    intros u [<-|[]]. vm_compute. discriminate.
  - apply (login_failure_is_uniform (S := strings.ASCII)). right.
    exists Examples.test_user. split; [reflexivity|]. vm_compute. discriminate.
Defined.

(** C8, as stated, fails: the token type of the pair that a successful
    login returns is ["Bearer"], with a capital B, which is not the string
    ["bearer"]. *)
Lemma token_type_is_not_lowercase_bearer :
  exists db' resp,
    auth.Login (S := strings.ASCII) Examples.svc (Examples.env_n 1) Examples.db0
      "test@example.com" "password123" = (db', inr resp)
    /\ auth.TokenType resp <> "bearer".
Proof.
  eexists _, _. split; [lazy; reflexivity|].
  cbn. discriminate.
Qed.

(** C8, amended. Every token pair returned by a successful [Login] or
    [Refresh] has its token type equal to the exact string ["Bearer"]. *)
Theorem token_type_is_Bearer {S : strings.Strings} (s : auth.Service)
        (env : auth.Env) (db db' : auth.DB) (col col' : list auth.RefreshToken)
        (email password secret : string) (resp : auth.TokenResponse) :
  (auth.Login s env db email password = (db', inr resp) ->
   auth.TokenType resp = "Bearer")
  /\ (auth.Refresh s env col secret = (col', inr resp) ->
      auth.TokenType resp = "Bearer").
Proof.
  split; intros Hok.
  - apply Login_inr in Hok. destruct Hok as (u & r & _ & ->). reflexivity.
  - apply Refresh_inr_response in Hok. destruct Hok as (rt & r & _ & ->). reflexivity.
Qed.

Lemma token_type_is_Bearer_witness :
  (exists db' resp,
      auth.Login (S := strings.ASCII) Examples.svc (Examples.env_n 1) Examples.db0
        "test@example.com" "password123" = (db', inr resp)
      /\ auth.TokenType resp = "Bearer")
  /\ (exists col' resp,
         auth.Refresh Examples.svc (Examples.env_n 1) Examples.store0 Examples.secretA
         = (col', inr resp)
         /\ auth.TokenType resp = "Bearer").
Proof.
  split.
  - eexists _, _. split; [lazy; reflexivity|].
    eapply (proj1 (token_type_is_Bearer (S := strings.ASCII) Examples.svc
                     (Examples.env_n 1) Examples.db0 _ [] []
                     "test@example.com" "password123" "" _)).
    lazy; reflexivity.
  - eexists _, _. split; [lazy; reflexivity|].
    eapply (proj2 (token_type_is_Bearer (S := strings.ASCII) Examples.svc
                     (Examples.env_n 1) Examples.db0 Examples.db0 Examples.store0 _
                     "" "" Examples.secretA _)).
    lazy; reflexivity.
Defined.

(** C9. The access token of every successful [Refresh] carries the empty
    e-mail claim, and as subject the hexadecimal id of the user of the
    record that was presented; [Refresh] does not read the users at all.
    The access token of a successful [Login] carries the e-mail stored for
    the authenticated user, and her id as subject. *)
Theorem refresh_omits_email {S : strings.Strings} (s : auth.Service)
        (env : auth.Env) (db db' : auth.DB) (col col' : list auth.RefreshToken)
        (email password secret : string) (resp : auth.TokenResponse) :
  (auth.Refresh s env col secret = (col', inr resp) ->
   exists rt c,
     auth.FindRefreshToken col secret = inr (Some rt)
     /\ authjwt.claims_of (auth.AccessToken resp) = Some c
     /\ authjwt.Email c = ""
     /\ authjwt.Subject c = Hex (auth.UserID rt))
  /\ (auth.Login s env db email password = (db', inr resp) ->
      exists u c,
        user.Authenticate (auth.users db) email password = inr u
        /\ In u (auth.users db)
        /\ authjwt.claims_of (auth.AccessToken resp) = Some c
        /\ authjwt.Email c = user.Email u
        /\ authjwt.Subject c = Hex (user.ID u)).
Proof.
  split; intros Hok.
  - apply Refresh_inr_response in Hok. destruct Hok as (rt & r & Hf & ->).
    exists rt. eexists. split; [exact Hf|]. repeat split.
  - apply Login_inr in Hok. destruct Hok as (u & r & Ha & ->).
    exists u. eexists. split; [exact Ha|].
    split; [now apply Authenticate_inr in Ha|]. repeat split.
Qed.

Lemma refresh_omits_email_witness :
  (exists col' resp c,
      auth.Refresh Examples.svc (Examples.env_n 1) Examples.store0 Examples.secretA
      = (col', inr resp)
      /\ authjwt.claims_of (auth.AccessToken resp) = Some c
      /\ authjwt.Email c = ""
      /\ authjwt.Subject c = Hex Examples.test_user_id)
  /\ (exists db' resp c,
         auth.Login (S := strings.ASCII) Examples.svc (Examples.env_n 1) Examples.db0
           "test@example.com" "password123" = (db', inr resp)
         /\ authjwt.claims_of (auth.AccessToken resp) = Some c
         /\ authjwt.Email c = "test@example.com"
         /\ authjwt.Subject c = Hex Examples.test_user_id).
Proof.
  split.
  - destruct (proj1 (refresh_omits_email (S := strings.ASCII) Examples.svc
                       (Examples.env_n 1) Examples.db0 Examples.db0
                       Examples.store0 _ "" "" Examples.secretA _)
                    ltac:(lazy; reflexivity))
      as (rt & c & Hf & Hc & He & Hs).
    injection Hf as <-.
    eexists _, _, c. split; [lazy; reflexivity|]. auto.
  - destruct (proj2 (refresh_omits_email (S := strings.ASCII) Examples.svc
                       (Examples.env_n 1) Examples.db0 _
                       [] [] "test@example.com" "password123" "" _)
                    ltac:(lazy; reflexivity))
      as (u & c & Ha & _ & Hc & He & Hs).
    injection Ha as <-.
    eexists _, _, c. split; [lazy; reflexivity|]. auto.
Defined.

(** C10. [Login] does not depend on the letter case of the e-mail nor on
    the white space around it: for every e-mail and password, [Login]
    returns for the e-mail what it returns for the trimmed and lowercased
    e-mail, in the same environment and database. Both [Authenticate] and
    [Register] normalize: the user that [Register] stores carries the
    trimmed and lowercased e-mail of the request. *)
Theorem login_email_normalized {S : strings.Strings} {L : strings.StringsLaws S}
        (s : auth.Service) (env : auth.Env) (db : auth.DB) (e p : string) :
  auth.Login s env db e p
  = auth.Login s env db (strings.ToLower (strings.TrimSpace e)) p
  /\ (forall uenv col req col' u,
         user.Register uenv col req = (col', inr u) ->
         user.Email u = strings.ToLower (strings.TrimSpace (user.reqEmail req))
         /\ In (user.marshal u) col').
Proof.
  split.
  - unfold auth.Login, user.Authenticate.
    now rewrite strings.TrimSpace_ToLower_trimmed, strings.ToLower_idempotent.
  - intros uenv col req col' u. unfold user.Register.
    destruct (bcrypt.GenerateFromPassword _ _ _) as [err|hash]; [discriminate|].
    unfold user.Create, mongo.InsertOne.
    destruct (existsb _ col); cbn; [discriminate|].
    intros [= <- <-]. split; [reflexivity|].
    apply in_or_app. right. now left.
Qed.

Lemma login_email_normalized_witness :
  auth.Login (S := strings.ASCII) Examples.svc (Examples.env_n 1) Examples.db0
    "  Test@Example.COM " "password123"
  = auth.Login (S := strings.ASCII) Examples.svc (Examples.env_n 1) Examples.db0
      "test@example.com" "password123"
  /\ exists db' resp,
       auth.Login (S := strings.ASCII) Examples.svc (Examples.env_n 1) Examples.db0
         "  Test@Example.COM " "password123" = (db', inr resp).
Proof.
  split.
  - exact (proj1 (login_email_normalized (S := strings.ASCII) (L := ASCII_laws)
                    Examples.svc (Examples.env_n 1) Examples.db0
                    "  Test@Example.COM " "password123")).
  - eexists _, _. lazy. reflexivity.
Defined.

(* ===================================================================== *)
(** * Further properties of the code                                      *)
(* ===================================================================== *)

(** ** The access token codec *)

(** X1. [ValidateAccessToken] accepts exactly the well-formed tokens whose
    header names one of the HMAC methods, whose signature is the MAC of
    that method over the header and claims under the manager's secret, and
    whose time claims hold at the time of the check (expiresAt, if there,
    in the future; notBefore, if there, reached); it then returns the
    claims of the token unchanged. *)
Theorem ValidateAccessToken_accepts_iff (j : authjwt.JWTManager) (now : Time)
        (tok : authjwt.AccessToken) (c : authjwt.Claims) :
  authjwt.ValidateAccessToken j now tok = inr c
  <-> exists hdr h,
        tok = jwt.Compact hdr c (jwt.HMACSig h (authjwt.secret j) hdr c)
        /\ jwt.alg hdr = Some (jwt.Alg (jwt.SigningMethodHMAC h))
        /\ (forall exp, authjwt.ExpiresAt c = Some exp -> now < exp)
        /\ (forall nbf, jwt.NotBefore (authjwt.Registered c) = Some nbf -> nbf <= now).
Proof.
  split.
  - apply ValidateAccessToken_accepted.
  - intros (hdr & h & -> & Ha & Hexp & Hnbf).
    now apply ValidateAccessToken_accepts.
Qed.

(** A token with an HMAC header whose signature is not the MAC under the
    manager's secret. *)
Lemma ValidateAccessToken_bad_signature (j : authjwt.JWTManager) (now : Time)
      (hdr : jwt.JOSEHeader) (h : jwt.Hash) (c : authjwt.Claims)
      (sig : jwt.Sig authjwt.Claims) :
  jwt.alg hdr = Some (jwt.Alg (jwt.SigningMethodHMAC h)) ->
  sig <> jwt.HMACSig h (authjwt.secret j) hdr c ->
  exists err,
    authjwt.ValidateAccessToken j now (jwt.Compact hdr c sig) = inl err
    /\ errors_Is err ErrTokenSignatureInvalid = true
    /\ errors_Is err ErrTokenExpired = false.
Proof.
  intros Ha Hsig.
  unfold authjwt.ValidateAccessToken, jwt.ParseWithClaims, jwt.ParseUnverified.
  rewrite Ha, GetSigningMethod_Alg.
  unfold authjwt.keyFunc;
    cbn [jwt.Method jwt.Header jwt.TokenClaims jwt.Signature jwt.Verify].
  destruct (jwt.Sig_eq_dec sig _) as [Heq|_]; [now elim Hsig|].
  eexists. repeat split; reflexivity.
Qed.

(** X2. The order of the checks of [ValidateAccessToken], seen in the
    error returned. A string that is no well-formed token is refused as
    malformed. A well-formed token whose header names no HMAC method is
    refused as unverifiable, whatever its signature and claims. A token
    with an HMAC header whose signature is not the MAC under the manager's
    secret is refused for its signature, and the error says nothing of
    expiry even if the token has expired. *)
Theorem ValidateAccessToken_error_order (j : authjwt.JWTManager) (now : Time)
        (raw : string) (hdr : jwt.JOSEHeader) (c : authjwt.Claims)
        (sig : jwt.Sig authjwt.Claims) :
  (exists err,
      authjwt.ValidateAccessToken j now (jwt.Malformed raw) = inl err
      /\ errors_Is err ErrTokenMalformed = true)
  /\ ((forall h, jwt.alg hdr <> Some (jwt.Alg (jwt.SigningMethodHMAC h))) ->
      exists err,
        authjwt.ValidateAccessToken j now (jwt.Compact hdr c sig) = inl err
        /\ errors_Is err ErrTokenUnverifiable = true
        /\ errors_Is err ErrTokenSignatureInvalid = false
        /\ errors_Is err ErrTokenExpired = false)
  /\ (forall h,
         jwt.alg hdr = Some (jwt.Alg (jwt.SigningMethodHMAC h)) ->
         sig <> jwt.HMACSig h (authjwt.secret j) hdr c ->
         exists err,
           authjwt.ValidateAccessToken j now (jwt.Compact hdr c sig) = inl err
           /\ errors_Is err ErrTokenSignatureInvalid = true
           /\ errors_Is err ErrTokenExpired = false).
Proof.
  split; [|split].
  - eexists. split; reflexivity.
  - intros Hno.
    unfold authjwt.ValidateAccessToken, jwt.ParseWithClaims, jwt.ParseUnverified.
    destruct (jwt.alg hdr) as [a|] eqn:Ha; [|eexists; repeat split; reflexivity].
    destruct (jwt.GetSigningMethod a) as [m|] eqn:Hm;
      [|eexists; repeat split; reflexivity].
    apply GetSigningMethod_inv in Hm. subst a.
    unfold authjwt.keyFunc; cbn [jwt.Method].
    destruct m as [h|h|h|h| |]; try (eexists; repeat split; reflexivity).
    now elim (Hno h).
  - intros h Ha Hsig. now apply ValidateAccessToken_bad_signature with (h := h).
Qed.

Lemma ValidateAccessToken_error_order_witness :
  (exists err,
      authjwt.ValidateAccessToken Examples.mgr Examples.t0
        (jwt.Compact {| jwt.typ := Some "JWT"; jwt.alg := Some "none" |}
           Examples.claims_user123 (jwt.RawSig "")) = inl err
      /\ errors_Is err ErrTokenUnverifiable = true
      /\ errors_Is err ErrTokenSignatureInvalid = false
      /\ errors_Is err ErrTokenExpired = false)
  /\ (exists err,
         authjwt.ValidateAccessToken Examples.mgr (Examples.t0 + 60 * Minute)
           (jwt.Compact authjwt.HS256_header Examples.claims_user123
              (jwt.RawSig "dGFtcGVyZWQ")) = inl err
         /\ errors_Is err ErrTokenSignatureInvalid = true
         /\ errors_Is err ErrTokenExpired = false).
Proof.
  split.
  - apply (proj1 (proj2 (ValidateAccessToken_error_order Examples.mgr Examples.t0 ""
                           {| jwt.typ := Some "JWT"; jwt.alg := Some "none" |}
                           Examples.claims_user123 (jwt.RawSig "")))).
    intros h. destruct h; discriminate.
  - apply (proj2 (proj2 (ValidateAccessToken_error_order Examples.mgr
                           (Examples.t0 + 60 * Minute) ""
                           authjwt.HS256_header Examples.claims_user123
                           (jwt.RawSig "dGFtcGVyZWQ"))) jwt.SHA256).
    + reflexivity.
    + discriminate.
Defined.



(** ** The refresh token store *)

Section StoreLaws.
Import auth.

Lemma set_revoked_idempotent (rt : RefreshToken) :
  set_revoked (set_revoked rt) = set_revoked rt.
Proof. reflexivity. Qed.

(** An update leaves the documents that the filter does not select. *)
Lemma UpdateOne_keeps {D : Type} (col : list D) (filter : D -> bool)
      (update : D -> D) (d : D) :
  In d col -> filter d = false -> In d (mongo.UpdateOne col filter update).
Proof.
  induction col as [|x rest IH]; cbn; intros Hin Hf; [contradiction|].
  destruct Hin as [->|Hin].
  - rewrite Hf. now left.
  - destruct (filter x); right; auto.
Qed.

Lemma UpdateOne_no_match {D : Type} (col : list D) (filter : D -> bool)
      (update : D -> D) :
  (forall d, In d col -> filter d = false) ->
  mongo.UpdateOne col filter update = col.
Proof.
  induction col as [|x rest IH]; cbn; intros Hno; [reflexivity|].
  rewrite (Hno x) by now left.
  rewrite IH; [reflexivity|]. intros d Hd. apply Hno. now right.
Qed.

(** Every document after an update is a document from before, as it was
    or updated. *)
Lemma UpdateOne_In_origin {D : Type} (col : list D) (filter : D -> bool)
      (update : D -> D) (d : D) :
  In d (mongo.UpdateOne col filter update) ->
  exists d0, In d0 col /\ (d = d0 \/ d = update d0).
Proof.
  induction col as [|x rest IH]; cbn; intros Hin; [contradiction|].
  destruct (filter x).
  - destruct Hin as [<-|Hin]; [exists x; auto|exists d; auto].
  - destruct Hin as [<-|Hin]; [exists x; auto|].
    destruct (IH Hin) as (d0 & H0 & Hd). exists d0. auto.
Qed.

Lemma UpdateOne_twice (col : list RefreshToken) (id : ObjectID) :
  mongo.UpdateOne (mongo.UpdateOne col (fun rt => N.eqb (ID rt) id) set_revoked)
    (fun rt => N.eqb (ID rt) id) set_revoked
  = mongo.UpdateOne col (fun rt => N.eqb (ID rt) id) set_revoked.
Proof.
  induction col as [|x rest IH]; cbn; [reflexivity|].
  destruct (N.eqb (ID x) id) eqn:E; cbn; rewrite E; [reflexivity|now rewrite IH].
Qed.

(** A search is not changed by an update that only touches documents the
    search does not select, before and after. *)
Lemma find_UpdateOne {D : Type} (col : list D) (p filter : D -> bool)
      (update : D -> D) :
  (forall d, In d col -> filter d = true -> p d = false /\ p (update d) = false) ->
  find p (mongo.UpdateOne col filter update) = find p col.
Proof.
  induction col as [|x rest IH]; cbn; intros Hq; [reflexivity|].
  destruct (filter x) eqn:E.
  - destruct (Hq x (or_introl eq_refl) E) as [Hp Hpu]. cbn. now rewrite Hp, Hpu.
  - cbn. destruct (p x); [reflexivity|].
    apply IH. intros d Hd. apply Hq. now right.
Qed.

Lemma find_snoc {D : Type} (p : D -> bool) (l : list D) (d : D) :
  find p (l ++ [d])
  = match find p l with
    | Some x => Some x
    | None => if p d then Some d else None
    end.
Proof.
  induction l as [|x l IH]; cbn; [reflexivity|].
  destruct (p x); [reflexivity|exact IH].
Qed.

(** X4. [RevokeRefreshToken] never fails. On a collection with unique ids
    it revokes the record that has the id and changes no other; an id that
    no record has leaves the collection as it is, without an error;
    revoking again changes nothing; and with unique secrets the secret of
    the revoked record is refused by every later [Refresh]. *)
Theorem RevokeRefreshToken_revokes_one (s : Service) (env : Env)
        (col : list RefreshToken) (id : ObjectID) :
  NoDup (map ID col) ->
  snd (RevokeRefreshToken col id) = None
  /\ (forall rt, In rt col -> ID rt = id ->
                 In (set_revoked rt) (fst (RevokeRefreshToken col id)))
  /\ (forall r, ID r <> id ->
                (In r (fst (RevokeRefreshToken col id)) <-> In r col))
  /\ (~ In id (map ID col) -> fst (RevokeRefreshToken col id) = col)
  /\ fst (RevokeRefreshToken (fst (RevokeRefreshToken col id)) id)
     = fst (RevokeRefreshToken col id)
  /\ (NoDup (map Token col) ->
      forall rt, In rt col -> ID rt = id ->
                 Refresh s env (fst (RevokeRefreshToken col id)) (Token rt)
                 = (fst (RevokeRefreshToken col id), inl (Err ErrInvalidRefreshToken))).
Proof.
  intros Hids. cbn [RevokeRefreshToken fst snd].
  split; [reflexivity|]. split; [|split; [|split; [|split]]].
  - intros rt Hin <-.
    exact (UpdateOne_by_key_hits ID N.eqb N_eqb_spec' set_revoked col rt Hids Hin).
  - intros r Hne. split.
    + intros Hin.
      apply (UpdateOne_by_key_In ID N.eqb N_eqb_spec' set_revoked) in Hin; [|assumption].
      destruct Hin as [(r0 & _ & H0 & ->)|[Hin _]]; [|assumption].
      now elim Hne.
    + intros Hin. apply UpdateOne_keeps; [assumption|].
      apply N.eqb_neq. assumption.
  - intros Hno. apply UpdateOne_no_match. intros d Hd.
    apply N.eqb_neq. intros <-. apply Hno. now apply in_map.
  - apply UpdateOne_twice.
  - intros Htoks rt Hin <-. apply Refresh_dead. intros r Hr Ht. left.
    apply (UpdateOne_by_key_In ID N.eqb N_eqb_spec' set_revoked) in Hr; [|assumption].
    destruct Hr as [(r0 & _ & _ & ->)|[Hr Hne]]; [reflexivity|].
    elim Hne. f_equal. apply (NoDup_map_eq Token col r rt); assumption.
Qed.

Lemma RevokeRefreshToken_revokes_one_witness :
  In (set_revoked Examples.recordA)
     (fst (RevokeRefreshToken Scenarios.store2 1000%N))
  /\ In Scenarios.recordB (fst (RevokeRefreshToken Scenarios.store2 1000%N))
  /\ fst (RevokeRefreshToken Scenarios.store2 7777%N) = Scenarios.store2
  /\ Refresh Examples.svc (Examples.env_n 1)
       (fst (RevokeRefreshToken Scenarios.store2 1000%N)) Examples.secretA
     = (fst (RevokeRefreshToken Scenarios.store2 1000%N),
        inl (Err ErrInvalidRefreshToken)).
Proof.
  assert (Hids : NoDup (map ID Scenarios.store2)).
  { repeat constructor; cbn; intuition discriminate. }
  assert (Htoks : NoDup (map Token Scenarios.store2)).
  { repeat constructor; cbn; intuition discriminate. }
  destruct (RevokeRefreshToken_revokes_one Examples.svc (Examples.env_n 1)
              Scenarios.store2 1000%N Hids) as (_ & H1 & H2 & H3 & _ & H5).
  split; [|split; [|split]].
  - apply H1; [now left|reflexivity].
  - apply H2; [discriminate|right; now left].
  - destruct (RevokeRefreshToken_revokes_one Examples.svc (Examples.env_n 1)
                Scenarios.store2 7777%N Hids) as (_ & _ & _ & H3' & _).
    apply H3'. cbn. intuition discriminate.
  - apply (H5 Htoks Examples.recordA); [now left|reflexivity].
Defined.

(** X5. [RevokeAllForUser] never fails. Afterwards every record of the
    user is revoked, the records of other users are the ones from before,
    the ids are the same, a second call changes nothing, and every secret
    that only records of the user hold is refused by [Refresh]. *)
Theorem RevokeAllForUser_logs_out (s : Service) (env : Env)
        (col : list RefreshToken) (userID : ObjectID) (secret : string) :
  snd (RevokeAllForUser col userID) = None
  /\ (forall rt, In rt (fst (RevokeAllForUser col userID)) ->
                 UserID rt = userID -> Revoked rt = true)
  /\ (forall rt, UserID rt <> userID ->
                 (In rt (fst (RevokeAllForUser col userID)) <-> In rt col))
  /\ map ID (fst (RevokeAllForUser col userID)) = map ID col
  /\ fst (RevokeAllForUser (fst (RevokeAllForUser col userID)) userID)
     = fst (RevokeAllForUser col userID)
  /\ ((forall rt, In rt col -> Token rt = secret -> UserID rt = userID) ->
      Refresh s env (fst (RevokeAllForUser col userID)) secret
      = (fst (RevokeAllForUser col userID), inl (Err ErrInvalidRefreshToken))).
Proof.
  cbn [RevokeAllForUser fst snd]. unfold mongo.UpdateMany.
  set (f := fun d => if N.eqb (UserID d) userID && Bool.eqb (Revoked d) false
                     then set_revoked d else d).
  assert (Hrev : forall d, UserID (f d) = userID -> Revoked (f d) = true).
  { intros d. unfold f. destruct (N.eqb_spec (UserID d) userID) as [Hu|Hu]; cbn.
    - destruct (Revoked d) eqn:Hr; cbn; auto.
    - intros Hu'. now elim Hu. }
  split; [reflexivity|]. split; [|split; [|split; [|split]]].
  - intros rt Hin Hu. apply in_map_iff in Hin. destruct Hin as (d & <- & _).
    now apply Hrev.
  - intros rt Hne. split.
    + intros Hin. apply in_map_iff in Hin. destruct Hin as (d & <- & Hd).
      unfold f in *. destruct (N.eqb_spec (UserID d) userID) as [Hu|Hu]; cbn in *.
      * destruct (Bool.eqb (Revoked d) false); cbn in Hne; now elim Hne.
      * assumption.
    + intros Hin. apply in_map_iff. exists rt. split; [|assumption].
      unfold f. destruct (N.eqb_spec (UserID rt) userID); [contradiction|reflexivity].
  - rewrite map_map. apply map_ext. intros d. unfold f.
    destruct (_ && _); reflexivity.
  - rewrite map_map. apply map_ext. intros d. unfold f.
    destruct (N.eqb (UserID d) userID && Bool.eqb (Revoked d) false) eqn:E.
    + cbn. now rewrite andb_false_r.
    + now rewrite E.
  - intros Hown. apply Refresh_dead. intros rt Hin Ht. left.
    apply in_map_iff in Hin. destruct Hin as (d & <- & Hd).
    apply Hrev.
    assert (Htok : Token (f d) = Token d) by (unfold f; destruct (_ && _); reflexivity).
    assert (Hu : UserID (f d) = UserID d) by (unfold f; destruct (_ && _); reflexivity).
    rewrite Hu. apply Hown; [assumption|]. now rewrite <- Htok.
Qed.

Lemma RevokeAllForUser_logs_out_witness :
  Refresh Examples.svc (Examples.env_n 1)
    (fst (RevokeAllForUser Scenarios.store2 Examples.test_user_id)) Examples.secretA
  = (fst (RevokeAllForUser Scenarios.store2 Examples.test_user_id),
     inl (Err ErrInvalidRefreshToken))
  /\ In Scenarios.recordB (fst (RevokeAllForUser Scenarios.store2 Examples.test_user_id)).
Proof.
  destruct (RevokeAllForUser_logs_out Examples.svc (Examples.env_n 1)
              Scenarios.store2 Examples.test_user_id Examples.secretA)
    as (_ & _ & H2 & _ & _ & H5).
  split.
  - apply H5. intros rt [<-|[<-|[]]] Ht; [reflexivity|].
    vm_compute in Ht. discriminate Ht.
  - apply H2; [vm_compute; discriminate|]. right. now left.
Defined.

End StoreLaws.

(** ** Rotation and sessions *)

Section SessionLaws.
Import auth.
Context {S : strings.Strings}.
Variable s : Service.

Lemma issueTokens_fst (env : Env) (col : list RefreshToken) (userID : ObjectID)
      (email : string) :
  (fst (issueTokens s env col userID email) = col
   /\ exists err, snd (issueTokens s env col userID email) = inl err)
  \/ exists refreshStr,
       rand_token env = Some refreshStr
       /\ existsb (fun d => collide d (issued_record s env userID refreshStr)) col = false
       /\ issueTokens s env col userID email
          = ((col ++ [issued_record s env userID refreshStr])%list,
             inr (issued_response s env userID email refreshStr)).
Proof.
  destruct (rand_token env) as [refreshStr|] eqn:Hr.
  - destruct (existsb (fun d => collide d (issued_record s env userID refreshStr)) col)
      eqn:Hex.
    + left. unfold issueTokens.
      rewrite GenerateAccessToken_eq, Hr. unfold GenerateRefreshTokenString.
      unfold CreateRefreshToken, mongo.InsertOne, marshal.
      cbn [ID UserID Token ExpiresAt Revoked CreatedAt].
      fold (issued_record s env userID refreshStr). rewrite Hex.
      cbn. eauto.
    + right. exists refreshStr. split; [reflexivity|]. split; [assumption|].
      now apply issueTokens_ok.
  - left. unfold issueTokens.
    rewrite GenerateAccessToken_eq, Hr. cbn. eauto.
Qed.

(** What [Login] writes when it succeeds. *)
Lemma Login_inr_store (env : Env) (db db' : DB) (email password : string)
      (resp : TokenResponse) :
  Login s env db email password = (db', inr resp) ->
  exists u,
    user.Authenticate (users db) email password = inr u
    /\ users db' = users db
    /\ existsb (fun d => collide d (issued_record s env (user.ID u) (RefreshToken_ resp)))
         (refresh_tokens db) = false
    /\ refresh_tokens db'
       = (refresh_tokens db
            ++ [issued_record s env (user.ID u) (RefreshToken_ resp)])%list
    /\ resp = issued_response s env (user.ID u) (user.Email u) (RefreshToken_ resp).
Proof.
  unfold Login.
  destruct (user.Authenticate (users db) email password) as [err|u]; [discriminate|].
  destruct (issueTokens s env (refresh_tokens db) (user.ID u) (user.Email u))
    as [col' r] eqn:Hi.
  intros [= <- ->]. apply issueTokens_inr in Hi.
  destruct Hi as (refreshStr & _ & Hex & -> & ->). exists u. cbn. auto.
Qed.

(** X6. A successful [Refresh], on a collection with unique ids, revokes
    the record it found and touches no other record. It appends one new
    record, for the same user, holding the secret returned, not revoked,
    expiring one refresh TTL after the clock reading of the issue (the
    window slides). What any other secret resolves to is the same before
    and after. *)
Theorem Refresh_rotates_one_record (env : Env) (col col' : list RefreshToken)
        (secret : string) (resp : TokenResponse) :
  NoDup (map ID col) ->
  Refresh s env col secret = (col', inr resp) ->
  exists rt new,
    FindRefreshToken col secret = inr (Some rt)
    /\ col' = (fst (RevokeRefreshToken col (ID rt)) ++ [new])%list
    /\ In (set_revoked rt) col'
    /\ (forall r, In r col -> ID r <> ID rt -> In r col')
    /\ UserID new = UserID rt
    /\ Token new = RefreshToken_ resp
    /\ Revoked new = false
    /\ ExpiresAt new = mongo.DateTime (Add (now_issue env) (refreshTTL s))
    /\ (forall secret2,
           secret2 <> secret -> secret2 <> RefreshToken_ resp ->
           FindRefreshToken col' secret2 = FindRefreshToken col secret2).
Proof.
  intros Hids Hok.
  apply Refresh_inr in Hok. destruct Hok as (rt & Hf & _ & Hi).
  pose proof (FindRefreshToken_Some _ _ _ Hf) as (Hin & Ht & Hr).
  apply issueTokens_inr in Hi. destruct Hi as (refreshStr & _ & _ & -> & ->).
  cbn [RevokeRefreshToken fst] in *.
  exists rt, (issued_record s env (UserID rt) refreshStr).
  split; [assumption|]. split; [reflexivity|].
  split; [|split; [|repeat split]].
  - apply in_or_app. left.
    exact (UpdateOne_by_key_hits ID N.eqb N_eqb_spec' set_revoked col rt Hids Hin).
  - intros r Hr' Hne. apply in_or_app. left.
    apply UpdateOne_keeps; [assumption|]. now apply N.eqb_neq.
  - intros secret2 Hne1 Hne2. rewrite !FindRefreshToken_total. f_equal.
    rewrite find_snoc, find_UpdateOne.
    + destruct (find _ col); [reflexivity|]. cbn in Hne2. cbn.
      destruct (String.eqb_spec refreshStr secret2); [congruence|reflexivity].
    + intros d Hd Hq. apply N.eqb_eq in Hq.
      assert (d = rt) by (apply (NoDup_map_eq ID col); assumption). subst d.
      cbn. rewrite Ht.
      destruct (String.eqb_spec secret secret2); [congruence|]. auto.
Qed.

(** X7. The pair returned by [Login] can be refreshed. If the secret drawn
    at login was held by no record before, then a later [Refresh] with that
    secret, made before the stored expiry with a random source that works
    and draws an id and a secret that are new to the collection, succeeds;
    it issues for the user who logged in, and the secret it returns is the
    new one, which differs from the one presented. *)
Theorem login_then_refresh (env env2 : Env) (db db' : DB)
        (email password tok2 : string) (resp : TokenResponse) :
  Login s env db email password = (db', inr resp) ->
  (forall r, In r (refresh_tokens db) -> Token r <> RefreshToken_ resp) ->
  now_refresh env2 <= mongo.DateTime (Add (now_issue env) (refreshTTL s)) ->
  rand_token env2 = Some tok2 ->
  (forall r, In r (refresh_tokens db') -> ID r <> new_id env2 /\ Token r <> tok2) ->
  exists col2 u,
    user.Authenticate (users db) email password = inr u
    /\ Refresh s env2 (refresh_tokens db') (RefreshToken_ resp)
       = (col2, inr (issued_response s env2 (user.ID u) "" tok2))
    /\ tok2 <> RefreshToken_ resp.
Proof.
  intros Hok Hfresh Hexp Hrand Hnew.
  apply Login_inr_store in Hok.
  destruct Hok as (u & Ha & _ & _ & Hcol & _).
  set (rec := issued_record s env (user.ID u) (RefreshToken_ resp)) in *.
  assert (Hfind : FindRefreshToken (refresh_tokens db') (RefreshToken_ resp)
                  = inr (Some rec)).
  { rewrite FindRefreshToken_total, Hcol, find_snoc. f_equal.
    destruct (find _ (refresh_tokens db)) as [r|] eqn:Hf.
    - apply find_some in Hf. destruct Hf as [Hin Hb].
      apply andb_prop in Hb. destruct Hb as [Ht _]. apply String.eqb_eq in Ht.
      now elim (Hfresh r Hin).
    - cbn. now rewrite String.eqb_refl. }
  assert (Hne : tok2 <> RefreshToken_ resp).
  { intros ->. apply (proj2 (Hnew rec ltac:(rewrite Hcol; apply in_or_app; right; now left))).
    reflexivity. }
  eexists _, u. split; [exact Ha|]. split; [|exact Hne].
  unfold Refresh. rewrite Hfind.
  unfold After. cbn [ExpiresAt rec issued_record].
  destruct (Z.ltb_spec (mongo.DateTime (Add (now_issue env) (refreshTTL s)))
              (now_refresh env2)); [lia|].
  cbn [RevokeRefreshToken].
  change (UserID rec) with (user.ID u).
  apply issueTokens_ok; [assumption|].
  destruct (existsb _ _) eqn:Hex; [|reflexivity].
  apply existsb_exists in Hex. destruct Hex as (d & Hd & Hc).
  apply UpdateOne_In_origin in Hd. destruct Hd as (d0 & Hd0 & Hd).
  destruct (Hnew d0 Hd0) as [Hid Htok].
  unfold collide in Hc. cbn in Hc.
  assert (ID d = ID d0 /\ Token d = Token d0) as [Ei Et]
      by (destruct Hd as [->| ->]; split; reflexivity).
  rewrite Ei, Et in Hc.
  apply orb_prop in Hc. destruct Hc as [Hc|Hc].
  - apply N.eqb_eq in Hc. now elim Hid.
  - apply andb_prop in Hc. destruct Hc as [_ Hc]. apply String.eqb_eq in Hc.
    now elim Htok.
Qed.

End SessionLaws.

Lemma Refresh_rotates_one_record_witness :
  exists col' resp,
    auth.Refresh Examples.svc (Examples.env_n 1) Scenarios.store2 Examples.secretA
    = (col', inr resp)
    /\ In (auth.set_revoked Examples.recordA) col'
    /\ In Scenarios.recordB col'
    /\ auth.FindRefreshToken col' Scenarios.secretB
       = auth.FindRefreshToken Scenarios.store2 Scenarios.secretB.
Proof.
  assert (Hids : NoDup (map auth.ID Scenarios.store2)).
  { repeat constructor; cbn; intuition discriminate. }
  eexists _, _. split; [lazy; reflexivity|].
  match goal with
  | |- In _ ?c /\ _ =>
      assert (Hok : auth.Refresh Examples.svc (Examples.env_n 1) Scenarios.store2
                      Examples.secretA = (c, inr (auth.issued_response Examples.svc
                        (Examples.env_n 1) Examples.test_user_id ""
                        ("cmFuZG9t" ++ Hex 1%N)%string)))
        by (lazy; reflexivity)
  end.
  destruct (Refresh_rotates_one_record _ _ _ _ _ _ Hids Hok)
    as (rt & new & Hf & _ & H1 & H2 & _ & _ & _ & _ & H3).
  injection Hf as <-.
  split; [exact H1|]. split.
  - apply H2; [right; now left|discriminate].
  - apply H3; vm_compute; discriminate.
Defined.


Lemma login_then_refresh_witness :
  exists db' resp col2 resp2,
    auth.Login (S := strings.ASCII) Examples.svc (Examples.env_n 1) Examples.db0
      "test@example.com" "password123" = (db', inr resp)
    /\ auth.Refresh Examples.svc (Examples.env_n 2) (auth.refresh_tokens db')
         (auth.RefreshToken_ resp) = (col2, inr resp2)
    /\ auth.RefreshToken_ resp2 <> auth.RefreshToken_ resp.
Proof.
  assert (Hlogin : auth.Login (S := strings.ASCII) Examples.svc (Examples.env_n 1)
                     Examples.db0 "test@example.com" "password123"
                   = ({| auth.users := auth.users Examples.db0;
                         auth.refresh_tokens :=
                           [Examples.recordA;
                            auth.issued_record Examples.svc (Examples.env_n 1)
                              Examples.test_user_id ("cmFuZG9t" ++ Hex 1%N)%string] |},
                      inr (auth.issued_response Examples.svc (Examples.env_n 1)
                             Examples.test_user_id "test@example.com"
                             ("cmFuZG9t" ++ Hex 1%N)%string)))
    by (lazy; reflexivity).
  destruct (login_then_refresh (S := strings.ASCII) Examples.svc
              (Examples.env_n 1) (Examples.env_n 2) Examples.db0 _
              "test@example.com" "password123" ("cmFuZG9t" ++ Hex 2%N)%string _
              Hlogin) as (col2 & u & Ha & Hr & Hne).
  - intros r [<-|[]]. vm_compute. discriminate.
  - vm_compute. discriminate.
  - reflexivity.
  - intros r [<-|[<-|[]]]; split; vm_compute; discriminate.
  - eexists _, _, col2, _. split; [exact Hlogin|]. split; [exact Hr|].
    vm_compute. discriminate.
Defined.

Section IssueLaws.
Import auth.
Context {S : strings.Strings}.
Variable s : Service.

(** X8. The access token of every pair that [Login] or [Refresh] returns
    is accepted by [ValidateAccessToken] of the service's manager, when the
    access TTL is at least one second, from the clock reading of its issue
    up to the TTL less one second later; the claims returned are the ones
    the token carries. *)
Theorem issued_access_token_validates (env : Env) (db db' : DB)
        (col col' : list RefreshToken) (email password secret : string)
        (resp : TokenResponse) (now' : Time) :
  Second <= accessTTL (jwt s) ->
  now_access env <= now' <= now_access env + accessTTL (jwt s) - Second ->
  Login s env db email password = (db', inr resp)
  \/ Refresh s env col secret = (col', inr resp) ->
  exists c,
    claims_of (AccessToken resp) = Some c
    /\ ValidateAccessToken (jwt s) now' (AccessToken resp) = inr c.
Proof.
  intros Httl Hnow Hok.
  assert (Hresp : exists userID e refreshStr,
             resp = issued_response s env userID e refreshStr).
  { destruct Hok as [Hok|Hok].
    - apply Login_inr in Hok. destruct Hok as (u & r & _ & ->). eauto.
    - apply Refresh_inr_response in Hok. destruct Hok as (rt & r & _ & ->). eauto. }
  destruct Hresp as (userID & e & refreshStr & ->).
  eexists. split; [reflexivity|].
  cbn [AccessToken issued_response].
  apply ValidateAccessToken_accepts with (h := jwt.SHA256).
  - reflexivity.
  - intros exp [= <-].
    pose proof (NewNumericDate_gt (Add (now_access env) (accessTTL (jwt s)))).
    unfold Add in *. lia.
  - intros nbf Hnbf. discriminate Hnbf.
Qed.

(** X9. Once [Refresh] has found an unexpired record for the secret, the
    secret is spent whether or not a new pair is issued: on a collection
    with unique ids and secrets, every record that holds the secret is
    revoked in the collection that [Refresh] leaves. In particular, when
    the random source fails, [Refresh] returns an error that is not
    [ErrInvalidRefreshToken], issues nothing, and has revoked the record:
    the collection is the one after the revoke. *)
Theorem Refresh_spends_secret (env : Env) (col : list RefreshToken)
        (secret : string) (rt : RefreshToken) :
  NoDup (map ID col) -> NoDup (map Token col) ->
  FindRefreshToken col secret = inr (Some rt) ->
  now_refresh env <= ExpiresAt rt ->
  (forall r, In r (fst (Refresh s env col secret)) -> Token r = secret ->
             Revoked r = true)
  /\ (rand_token env = None ->
      exists err,
        Refresh s env col secret = (fst (RevokeRefreshToken col (ID rt)), inl err)
        /\ errors_Is err ErrInvalidRefreshToken = false
        /\ In (set_revoked rt) (fst (RevokeRefreshToken col (ID rt)))).
Proof.
  intros Hids Htoks Hf Hexp.
  pose proof (FindRefreshToken_Some _ _ _ Hf) as (Hin & Ht & Hr).
  assert (Hrefresh : Refresh s env col secret
                     = issueTokens s env (fst (RevokeRefreshToken col (ID rt)))
                         (UserID rt) "").
  { unfold Refresh. rewrite Hf. unfold After.
    destruct (Z.ltb_spec (ExpiresAt rt) (now_refresh env)); [lia|]. reflexivity. }
  assert (Hrev : forall r, In r (fst (RevokeRefreshToken col (ID rt))) ->
                           Token r = secret -> Revoked r = true).
  { cbn [RevokeRefreshToken fst]. intros r Hr' Htr.
    apply (UpdateOne_by_key_In ID N.eqb N_eqb_spec' set_revoked) in Hr'; [|assumption].
    destruct Hr' as [(r0 & _ & _ & ->)|[Hr' Hne]]; [reflexivity|].
    elim Hne. f_equal. apply (NoDup_map_eq Token col r rt); congruence. }
  split.
  - rewrite Hrefresh. intros r Hr' Htr.
    destruct (issueTokens_fst s env (fst (RevokeRefreshToken col (ID rt)))
                (UserID rt) "") as [[Hsame _]|(refreshStr & _ & Hex & Hi)].
    + rewrite Hsame in Hr'. now apply Hrev.
    + rewrite Hi in Hr'. cbn [fst] in Hr'.
      apply in_app_or in Hr'. destruct Hr' as [Hr'|[<-|[]]]; [now apply Hrev|].
      cbn in Htr. subst refreshStr.
      assert (Hc : existsb (fun d => collide d (issued_record s env (UserID rt) secret))
                     (fst (RevokeRefreshToken col (ID rt))) = true); [|congruence].
      apply existsb_exists. exists (set_revoked rt). split.
      * exact (UpdateOne_by_key_hits ID N.eqb N_eqb_spec' set_revoked col rt Hids Hin).
      * unfold collide; cbn. rewrite N.eqb_refl, Ht, String.eqb_refl.
        apply orb_true_r.
  - intros Hrand. rewrite Hrefresh. unfold issueTokens.
    rewrite GenerateAccessToken_eq, Hrand. cbn [GenerateRefreshTokenString].
    eexists. split; [reflexivity|]. split; [reflexivity|].
    exact (UpdateOne_by_key_hits ID N.eqb N_eqb_spec' set_revoked col rt Hids Hin).
Qed.

(** The unique indexes survive an insert. *)
Lemma InsertOne_indexes (col : list RefreshToken) (rt : RefreshToken) :
  authstore.indexes_hold col ->
  authstore.indexes_hold (fst (mongo.InsertOne collide col rt)).
Proof.
  intros [Hids Hpairs]. split; [now apply InsertOne_ids|].
  unfold mongo.InsertOne.
  destruct (existsb _ col) eqn:Hex; cbn; [assumption|].
  rewrite map_app; cbn.
  apply NoDup_app; [assumption|constructor; [intros []|constructor]|].
  intros x Hx [<-|[]].
  apply in_map_iff in Hx. destruct Hx as (d & Hd & Hin).
  assert (existsb (fun d => collide d rt) col = true); [|congruence].
  apply existsb_exists. exists d. split; [assumption|].
  unfold authstore.pair_key in Hd. injection Hd as Hu Htk.
  unfold collide. rewrite Hu, Htk, N.eqb_refl, String.eqb_refl.
  apply orb_true_r.
Qed.

Lemma issueTokens_indexes (env : Env) (col : list RefreshToken)
      (userID : ObjectID) (email : string) :
  authstore.indexes_hold col ->
  authstore.indexes_hold (fst (issueTokens s env col userID email)).
Proof.
  intros Hok.
  destruct (issueTokens_fst s env col userID email)
    as [[-> _]|(refreshStr & _ & Hex & ->)]; [assumption|].
  pose proof (InsertOne_indexes col (issued_record s env userID refreshStr) Hok) as H.
  unfold mongo.InsertOne in H. rewrite Hex in H. exact H.
Qed.

(** X10. The unique indexes of the collection, on [_id] and on
    [(user_id, token)], are kept by every operation of the store and by
    [Refresh] and [Login], whatever these return; the empty collection has
    them. *)
Theorem indexes_are_invariant (env : Env) (op : StoreOp) (db : DB)
        (col : list RefreshToken) (email password secret : string) :
  authstore.indexes_hold []
  /\ (authstore.indexes_hold col ->
      authstore.indexes_hold (apply_op op col)
      /\ authstore.indexes_hold (fst (Refresh s env col secret)))
  /\ (authstore.indexes_hold (refresh_tokens db) ->
      authstore.indexes_hold
        (refresh_tokens (fst (Login s env db email password)))).
Proof.
  assert (Hrevoke : forall col id,
             authstore.indexes_hold col ->
             authstore.indexes_hold (fst (RevokeRefreshToken col id))).
  { intros c id [Hi Hp]. cbn [RevokeRefreshToken fst]. split.
    - now rewrite (UpdateOne_keys ID set_revoked (fun d => eq_refl)).
    - now rewrite (UpdateOne_keys authstore.pair_key set_revoked (fun d => eq_refl)). }
  split; [split; constructor|]. split.
  - intros Hok. split.
    + destruct op as [env' rt|token|id|userID|now]; cbn [apply_op].
      * unfold CreateRefreshToken.
        match goal with
        | |- context [mongo.InsertOne collide col ?r] =>
            pose proof (InsertOne_indexes col r Hok) as Hi;
            destruct (mongo.InsertOne collide col r) as [c [e|]]
        end; exact Hi.
      * assumption.
      * now apply Hrevoke.
      * destruct Hok as [Hi Hp]. cbn [RevokeAllForUser fst]. split.
        -- now rewrite (UpdateMany_keys ID set_revoked (fun d => eq_refl)).
        -- now rewrite (UpdateMany_keys authstore.pair_key set_revoked
                          (fun d => eq_refl)).
      * destruct Hok as [Hi Hp]. split; now apply filter_keeps_unique_keys.
    + unfold Refresh.
      destruct (FindRefreshToken col secret) as [err|[rt|]]; try assumption.
      destruct (After (now_refresh env) (ExpiresAt rt)); [assumption|].
      cbn [RevokeRefreshToken]. apply issueTokens_indexes.
      exact (Hrevoke col (ID rt) Hok).
  - intros Hok. unfold Login.
    destruct (user.Authenticate (users db) email password) as [err|u];
      [assumption|].
    pose proof (issueTokens_indexes env (refresh_tokens db) (user.ID u)
                  (user.Email u) Hok) as Hi.
    destruct (issueTokens s env (refresh_tokens db) (user.ID u) (user.Email u)).
    exact Hi.
Qed.

(** X11. [Login] writes nothing unless it succeeds, never touches the
    users, and when it succeeds it adds one record and changes none: the
    sessions that existed stay as they were. The record added belongs to
    the authenticated user, holds the secret returned and is not
    revoked. *)
Theorem Login_adds_one_session (env : Env) (db db' : DB)
        (email password : string) (r : error + TokenResponse) :
  Login s env db email password = (db', r) ->
  users db' = users db
  /\ match r with
     | inl _ => db' = db
     | inr resp =>
         exists u new,
           user.Authenticate (users db) email password = inr u
           /\ refresh_tokens db' = (refresh_tokens db ++ [new])%list
           /\ UserID new = user.ID u
           /\ Token new = RefreshToken_ resp
           /\ Revoked new = false
     end.
Proof.
  destruct r as [err|resp]; intros Hl.
  - unfold Login in Hl.
    destruct (user.Authenticate (users db) email password) as [e|u].
    + injection Hl as <- _. auto.
    + destruct (issueTokens_fst s env (refresh_tokens db) (user.ID u) (user.Email u))
        as [[Hsame _]|(refreshStr & _ & _ & Hi)].
      * destruct (issueTokens s env (refresh_tokens db) (user.ID u) (user.Email u))
          as [c r0]. cbn in Hsame. subst c. injection Hl as <- _.
        destruct db; auto.
      * rewrite Hi in Hl. discriminate Hl.
  - apply Login_inr_store in Hl. destruct Hl as (u & Ha & Hu & _ & Hc & _).
    split; [assumption|]. exists u. eexists. split; [exact Ha|].
    split; [exact Hc|]. repeat split.
Qed.

End IssueLaws.

Lemma issued_access_token_validates_witness :
  exists col' resp c,
    auth.Refresh Examples.svc (Examples.env_n 1) Examples.store0 Examples.secretA
    = (col', inr resp)
    /\ authjwt.claims_of (auth.AccessToken resp) = Some c
    /\ authjwt.ValidateAccessToken Examples.mgr (Examples.t0 + 10 * Minute)
         (auth.AccessToken resp) = inr c.
Proof.
  assert (Hok : exists col' resp,
             auth.Refresh Examples.svc (Examples.env_n 1) Examples.store0
               Examples.secretA = (col', inr resp))
    by (eexists _, _; lazy; reflexivity).
  destruct Hok as (col1 & resp1 & Hok).
  destruct (issued_access_token_validates (S := strings.ASCII) Examples.svc
              (Examples.env_n 1) Examples.db0 Examples.db0 Examples.store0 col1
              "" "" Examples.secretA resp1 (Examples.t0 + 10 * Minute))
    as (c & Hc & Hv).
  - vm_compute. discriminate.
  - split; vm_compute; discriminate.
  - right. exact Hok.
  - exists col1, resp1, c. split; [exact Hok|]. split; [exact Hc|exact Hv].
Defined.

Lemma Refresh_spends_secret_witness :
  exists err,
    auth.Refresh Examples.svc Scenarios.env_norand Examples.store0 Examples.secretA
    = ([auth.set_revoked Examples.recordA], inl err)
    /\ errors_Is err ErrInvalidRefreshToken = false.
Proof.
  destruct (Refresh_spends_secret Examples.svc Scenarios.env_norand Examples.store0
              Examples.secretA Examples.recordA) as (_ & H).
  - repeat constructor. intros [].
  - repeat constructor. intros [].
  - reflexivity.
  - vm_compute. discriminate.
  - destruct (H eq_refl) as (err & Hr & He & _).
    exists err. split; [exact Hr|exact He].
Defined.

Lemma Login_adds_one_session_witness :
  exists db' resp new,
    auth.Login (S := strings.ASCII) Examples.svc (Examples.env_n 1) Examples.db0
      "test@example.com" "password123" = (db', inr resp)
    /\ auth.refresh_tokens db' = [Examples.recordA; new]
    /\ auth.Revoked new = false.
Proof.
  assert (Hlogin : exists db' resp,
             auth.Login (S := strings.ASCII) Examples.svc (Examples.env_n 1)
               Examples.db0 "test@example.com" "password123" = (db', inr resp))
    by (eexists _, _; lazy; reflexivity).
  destruct Hlogin as (db1 & resp1 & Hlogin).
  destruct (Login_adds_one_session (S := strings.ASCII) Examples.svc
              (Examples.env_n 1) Examples.db0 db1 "test@example.com" "password123"
              (inr resp1) Hlogin) as (_ & u & new & _ & Hc & _ & _ & Hr).
  exists db1, resp1, new. split; [exact Hlogin|]. split; [exact Hc|exact Hr].
Defined.

(** ** Registration *)

Section RegisterLaws.
Context {S : strings.Strings}.



(** X13. [Register] keeps the e-mails of the collection unique, whatever
    it returns. When a stored user already has the normalized e-mail of
    the request (and the password is short enough to be hashed), it
    returns [ErrEmailExists] and stores nothing. *)
Theorem Register_email_unique (uenv : user.Env) (col : list user.User)
        (req : user.RegisterRequest) :
  (NoDup (map user.Email col) ->
   NoDup (map user.Email (fst (user.Register uenv col req))))
  /\ ((String.length (user.reqPassword req) <= 72)%nat ->
      (exists d, In d col
                 /\ user.Email d
                    = strings.ToLower (strings.TrimSpace (user.reqEmail req))) ->
      user.Register uenv col req = (col, inl (Err ErrEmailExists))).
Proof.
  split.
  - intros Hnd. unfold user.Register.
    destruct (bcrypt.GenerateFromPassword _ _ _) as [err|hash]; [assumption|].
    unfold user.Create, mongo.InsertOne.
    destruct (existsb _ col) eqn:Hex; cbn; [assumption|].
    rewrite map_app; cbn.
    apply NoDup_app; [assumption|constructor; [intros []|constructor]|].
    intros x Hx [<-|[]].
    apply in_map_iff in Hx. destruct Hx as (d & Hd & Hin).
    assert (existsb (fun d0 => user.collide d0
              (user.marshal
                 {| user.ID := user.new_id uenv;
                    user.Name := strings.TrimSpace (user.reqName req);
                    user.Email := strings.ToLower (strings.TrimSpace (user.reqEmail req));
                    user.PasswordHash := hash; user.Role := user.RoleUser;
                    user.CreatedAt := user.now uenv;
                    user.UpdatedAt := user.now uenv |})) col = true);
      [|cbn in *; congruence].
    apply existsb_exists. exists d. split; [assumption|].
    unfold user.collide; cbn. rewrite Hd, String.eqb_refl. apply orb_true_r.
  - intros Hlen (d & Hin & Hd). unfold user.Register, bcrypt.GenerateFromPassword.
    destruct (Nat.ltb_spec 72 (String.length (user.reqPassword req))); [lia|].
    unfold user.Create, mongo.InsertOne.
    cbn [user.ID user.Name user.Email user.PasswordHash user.Role].
    destruct (existsb _ col) eqn:Hex; [reflexivity|].
    assert (Hc : existsb (fun d0 => user.collide d0
              (user.marshal
                 {| user.ID := user.new_id uenv;
                    user.Name := strings.TrimSpace (user.reqName req);
                    user.Email := strings.ToLower (strings.TrimSpace (user.reqEmail req));
                    user.PasswordHash :=
                      bcrypt.Hashed user.bcryptCost (user.salt uenv)
                        (user.reqPassword req);
                    user.Role := user.RoleUser;
                    user.CreatedAt := user.now uenv;
                    user.UpdatedAt := user.now uenv |})) col = true).
    { apply existsb_exists. exists d. split; [assumption|].
      unfold user.collide; cbn. rewrite Hd, String.eqb_refl. apply orb_true_r. }
    cbn in Hc, Hex. congruence.
Qed.

End RegisterLaws.


Lemma Register_email_unique_witness :
  user.Register (S := strings.ASCII) Scenarios.uenv (auth.users Examples.db0)
    {| user.reqName := "Test Again"; user.reqEmail := "TEST@example.com";
       user.reqPassword := "password456" |}
  = (auth.users Examples.db0, inl (Err ErrEmailExists)).
Proof.
  apply (proj2 (Register_email_unique (S := strings.ASCII) Scenarios.uenv
                  (auth.users Examples.db0)
                  {| user.reqName := "Test Again"; user.reqEmail := "TEST@example.com";
                     user.reqPassword := "password456" |})).
  - vm_compute. repeat constructor.
  - exists Examples.test_user. split; [now left|]. vm_compute. reflexivity.
Defined.

(** ** ObjectIDs in text *)

Lemma hex_value_hexdigit (m : N) :
  (m < 16)%N -> primitive.hex_value (hexdigit m) = Some m.
Proof.
  intros Hm.
  assert (Hnat : forall k, (k < 16)%nat ->
                   primitive.hex_value (hexdigit (N.of_nat k)) = Some (N.of_nat k)).
  { intros k Hk. do 16 (destruct k as [|k]; [reflexivity|]). lia. }
  rewrite <- (N2Nat.id m). apply Hnat. lia.
Qed.

Lemma hex_decode_hex_digits (k : nat) :
  forall (n : N) (acc : string) (a : N),
    primitive.hex_decode (hex_digits k n acc) a
    = primitive.hex_decode acc (a * 16 ^ N.of_nat k + n mod 16 ^ N.of_nat k)%N.
Proof.
  induction k as [|k IH]; intros n acc a.
  - cbn [hex_digits]. f_equal. cbn. rewrite N.mod_1_r. lia.
  - cbn [hex_digits]. rewrite IH. cbn [primitive.hex_decode].
    rewrite hex_value_hexdigit by (apply N.mod_upper_bound; discriminate).
    f_equal. rewrite Nat2N.inj_succ, N.pow_succ_r'.
    rewrite (N.Div0.mod_mul_r n 16 (16 ^ N.of_nat k)). lia.
Qed.

Lemma hex_digits_length (k : nat) :
  forall (n : N) (acc : string),
    String.length (hex_digits k n acc) = (k + String.length acc)%nat.
Proof.
  induction k as [|k IH]; intros n acc; cbn [hex_digits]; [reflexivity|].
  rewrite IH. cbn. lia.
Qed.

(** The text of an ObjectID reads back as the ObjectID. *)
Lemma ObjectIDFromHex_Hex (id : ObjectID) :
  primitive.is_ObjectID id -> primitive.ObjectIDFromHex (Hex id) = inr id.
Proof.
  unfold primitive.is_ObjectID, primitive.ObjectIDFromHex, Hex. intros Hid.
  rewrite hex_digits_length. cbn [String.length Nat.add Nat.eqb negb].
  rewrite hex_decode_hex_digits. cbn [primitive.hex_decode].
  change (16 ^ N.of_nat 24)%N with (2 ^ 96)%N.
  rewrite N.mod_small by assumption. reflexivity.
Qed.

(** ** The middleware of the admin routes *)

Lemma ascii_lower_space (c : ascii) :
  strings.ascii_lower c = " "%char -> c = " "%char.
Proof.
  destruct c as [[] [] [] [] [] [] [] []]; vm_compute; intros H;
    first [reflexivity | discriminate H].
Qed.

Lemma cut_space_None_lower (s : string) :
  apphttp.cut_space (strings.map_string strings.ascii_lower s) = None ->
  apphttp.cut_space s = None.
Proof.
  induction s as [|c s IH]; cbn; [reflexivity|].
  destruct (Ascii.eqb_spec (strings.ascii_lower c) " "%char) as [E|E]; [discriminate|].
  destruct (Ascii.eqb_spec c " "%char) as [->|_]; [now elim E|].
  destruct (apphttp.cut_space (strings.map_string strings.ascii_lower s));
    [destruct p; discriminate|].
  intros _. now rewrite IH.
Qed.

Lemma EqualFold_Bearer_no_space (s : string) :
  apphttp.EqualFold_Bearer s = true -> apphttp.cut_space s = None.
Proof.
  unfold apphttp.EqualFold_Bearer. intros H. apply String.eqb_eq in H.
  apply cut_space_None_lower. rewrite H. reflexivity.
Qed.

Lemma cut_space_app (a b : string) :
  apphttp.cut_space a = None ->
  apphttp.cut_space (a ++ String " " b) = Some (a, b).
Proof.
  induction a as [|c a IH]; cbn; [reflexivity|].
  destruct (Ascii.eqb c " "%char); [discriminate|].
  destruct (apphttp.cut_space a) as [[x y]|]; [discriminate|].
  intros _. now rewrite IH.
Qed.

Lemma cut_space_Some (s a b : string) :
  apphttp.cut_space s = Some (a, b) -> s = (a ++ String " " b)%string.
Proof.
  revert a b. induction s as [|c s IH]; cbn; intros a b; [discriminate|].
  destruct (Ascii.eqb_spec c " "%char) as [->|_].
  - intros [= <- <-]. reflexivity.
  - destruct (apphttp.cut_space s) as [[x y]|]; [|discriminate].
    intros [= <- <-]. cbn. f_equal. now apply IH.
Qed.

Section MiddlewareLaws.
Context {D : Type}.
Variable parse : string -> authjwt.AccessToken.
Variable j : authjwt.JWTManager.
Variable now : Time.

Lemma AuthRequired_pass (c : gin.Context D) (scheme text : string)
      (claims : authjwt.Claims) :
  gin.GetHeader c "Authorization" = (scheme ++ " " ++ text)%string ->
  apphttp.EqualFold_Bearer scheme = true ->
  authjwt.ValidateAccessToken j now (parse text) = inr claims ->
  apphttp.AuthRequired parse j now c
  = gin.Set_ (gin.Set_ c apphttp.ContextKeyUserID (authjwt.Subject claims))
             apphttp.ContextKeyEmail (authjwt.Email claims).
Proof.
  intros Hh Hs Hv. unfold apphttp.AuthRequired.
  rewrite Hh.
  change (scheme ++ " " ++ text)%string with (scheme ++ String " " text)%string.
  destruct (String.eqb_spec (scheme ++ String " " text) "") as [E|_].
  { destruct scheme; discriminate E. }
  unfold apphttp.SplitN2.
  rewrite (cut_space_app scheme text (EqualFold_Bearer_no_space scheme Hs)).
  rewrite Hs, Hv. reflexivity.
Qed.

Lemma AuthRequired_passed (c : gin.Context D) :
  gin.IsAborted (apphttp.AuthRequired parse j now c) = false ->
  exists scheme text claims,
    gin.GetHeader c "Authorization" = (scheme ++ " " ++ text)%string
    /\ apphttp.EqualFold_Bearer scheme = true
    /\ authjwt.ValidateAccessToken j now (parse text) = inr claims.
Proof.
  intros Hna. unfold apphttp.AuthRequired in Hna.
  destruct (String.eqb (gin.GetHeader c "Authorization") ""); [discriminate|].
  unfold apphttp.SplitN2 in Hna.
  destruct (apphttp.cut_space (gin.GetHeader c "Authorization")) as [[a b]|] eqn:Hcut;
    [|discriminate].
  destruct (apphttp.EqualFold_Bearer a) eqn:Hs; [|discriminate].
  destruct (authjwt.ValidateAccessToken j now (parse b)) as [err|claims] eqn:Hv;
    [discriminate|].
  exists a, b, claims. split; [exact (cut_space_Some _ _ _ Hcut)|auto].
Qed.

(** X14. [AuthRequired] lets a request through exactly when its
    Authorization header is a scheme, one space and a text, where the
    scheme is the word Bearer in any letter case and the text is a token
    that [ValidateAccessToken] accepts. It then stores the subject and the
    e-mail of the token's claims in the context and writes no response.
    In every other case it aborts with status 401 and the error code
    UNAUTHORIZED, and stores nothing. *)
Theorem AuthRequired_passes_iff (c : gin.Context D) :
  gin.IsAborted c = false ->
  (gin.IsAborted (apphttp.AuthRequired parse j now c) = false
   <-> exists scheme text claims,
         gin.GetHeader c "Authorization" = (scheme ++ " " ++ text)%string
         /\ apphttp.EqualFold_Bearer scheme = true
         /\ authjwt.ValidateAccessToken j now (parse text) = inr claims)
  /\ (forall scheme text claims,
         gin.GetHeader c "Authorization" = (scheme ++ " " ++ text)%string ->
         apphttp.EqualFold_Bearer scheme = true ->
         authjwt.ValidateAccessToken j now (parse text) = inr claims ->
         apphttp.AuthRequired parse j now c
         = gin.Set_ (gin.Set_ c apphttp.ContextKeyUserID (authjwt.Subject claims))
                    apphttp.ContextKeyEmail (authjwt.Email claims))
  /\ (gin.IsAborted (apphttp.AuthRequired parse j now c) = true ->
      exists message,
        apphttp.AuthRequired parse j now c
        = gin.Abort (resp.Unauthorized c message)).
Proof.
  intros Hc. split; [split|split].
  - apply AuthRequired_passed.
  - intros (scheme & text & claims & Hh & Hs & Hv).
    rewrite (AuthRequired_pass c scheme text claims Hh Hs Hv). exact Hc.
  - apply AuthRequired_pass.
  - intros Ha. unfold apphttp.AuthRequired in *.
    destruct (String.eqb (gin.GetHeader c "Authorization") ""); [eauto|].
    destruct (apphttp.SplitN2 (gin.GetHeader c "Authorization")) as [|a [|b [|x l]]];
      eauto.
    destruct (apphttp.EqualFold_Bearer a); cbn [negb] in *; [|eauto].
    destruct (authjwt.ValidateAccessToken j now (parse b)); [eauto|].
    cbn in Ha. congruence.
Qed.

Lemma FindByID_total (col : list user.User) (id : ObjectID) :
  userrepo.FindByID col id = inr (find (fun u => N.eqb (user.ID u) id) col).
Proof.
  unfold userrepo.FindByID, mongo.FindOne. destruct (find _ col); reflexivity.
Qed.

(** X15. A request passes the two middlewares of the admin routes exactly
    when [AuthRequired] lets it through with claims whose subject is the
    hexadecimal text of the id of a stored user, and the user found under
    that id has the role ["admin"] in the collection at the time of the
    request; no response is written then. A request whose token is good
    and names a stored user with another role is answered 403, code
    FORBIDDEN. *)
Theorem admin_chain_passes_iff (users : list user.User)
        (headers : list (string * string)) (body_ : string) :
  (gin.IsAborted (gin.run_chain (apphttp.admin_chain parse j now users)
                    (gin.request (D := D) headers body_)) = false
   <-> exists claims uid u,
         gin.IsAborted (apphttp.AuthRequired parse j now
                          (gin.request (D := D) headers body_)) = false
         /\ gin.Get (apphttp.AuthRequired parse j now
                       (gin.request (D := D) headers body_))
                    apphttp.ContextKeyUserID = Some (authjwt.Subject claims)
         /\ primitive.ObjectIDFromHex (authjwt.Subject claims) = inr uid
         /\ userrepo.FindByID users uid = inr (Some u)
         /\ user.Role u = user.RoleAdmin)
  /\ (gin.IsAborted (gin.run_chain (apphttp.admin_chain parse j now users)
                       (gin.request (D := D) headers body_)) = false ->
      gin.Written (gin.run_chain (apphttp.admin_chain parse j now users)
                     (gin.request (D := D) headers body_)) = None)
  /\ (forall uid u,
         gin.IsAborted (apphttp.AuthRequired parse j now
                          (gin.request (D := D) headers body_)) = false ->
         (exists userIDStr,
             gin.Get (apphttp.AuthRequired parse j now
                        (gin.request (D := D) headers body_))
                     apphttp.ContextKeyUserID = Some userIDStr
             /\ primitive.ObjectIDFromHex userIDStr = inr uid) ->
         userrepo.FindByID users uid = inr (Some u) ->
         user.Role u <> user.RoleAdmin ->
         gin.Written (gin.run_chain (apphttp.admin_chain parse j now users)
                        (gin.request (D := D) headers body_))
         = Some (resp.StatusForbidden,
                 gin.ErrorBody "FORBIDDEN" "admin access required" None)).
Proof.
  set (c0 := gin.request (D := D) headers body_).
  assert (Hc0 : gin.IsAborted c0 = false) by reflexivity.
  pose proof (AuthRequired_passed c0) as Hiff.
  pose proof (AuthRequired_pass c0) as Hpass.
  cbn [gin.run_chain apphttp.admin_chain]. rewrite Hc0.
  destruct (gin.IsAborted (apphttp.AuthRequired parse j now c0)) eqn:Ha;
    cbv iota; rewrite ?Ha.
  - split; [split|split].
    + discriminate.
    + intros (claims & uid & u & H & _). discriminate H.
    + discriminate.
    + intros uid u H. discriminate H.
  - destruct (Hiff eq_refl) as (scheme & text & claims & Hh & Hs & Hv).
    clear Hiff Ha.
    rewrite (Hpass scheme text claims Hh Hs Hv) in *.
    assert (Hget : gin.Get (gin.Set_ (gin.Set_ c0 apphttp.ContextKeyUserID
                                         (authjwt.Subject claims))
                                      apphttp.ContextKeyEmail (authjwt.Email claims))
                           apphttp.ContextKeyUserID
                   = Some (authjwt.Subject claims)) by reflexivity.
    unfold apphttp.AdminRequired. rewrite Hget.
    split; [split|split].
    + intros Hna. exists claims.
      destruct (primitive.ObjectIDFromHex (authjwt.Subject claims)) as [e|uid];
        [discriminate Hna|].
      destruct (userrepo.FindByID users uid) as [e|[u|]] eqn:Hfind;
        [discriminate Hna| |discriminate Hna].
      destruct (String.eqb_spec (user.Role u) user.RoleAdmin);
        [|discriminate Hna].
      exists uid, u. auto.
    + intros (claims' & uid & u & _ & Hsub & Hhex & Hfind & Hrole).
      injection Hsub as Hsub. rewrite Hsub, Hhex, Hfind, Hrole. reflexivity.
    + destruct (primitive.ObjectIDFromHex (authjwt.Subject claims)) as [e|uid];
        [discriminate|].
      destruct (userrepo.FindByID users uid) as [e|[u|]]; try discriminate.
      destruct (String.eqb (user.Role u) user.RoleAdmin); [reflexivity|discriminate].
    + intros uid u _ (userIDStr & Hsub & Hhex) Hfind Hrole.
      injection Hsub as Hsub. rewrite Hsub, Hhex, Hfind.
      destruct (String.eqb_spec (user.Role u) user.RoleAdmin); [contradiction|].
      reflexivity.
Qed.

End MiddlewareLaws.

Lemma find_by_id_unique (users : list user.User) (u : user.User) :
  NoDup (map user.ID users) -> In u users ->
  userrepo.FindByID users (user.ID u) = inr (Some u).
Proof.
  intros Hnd Hin. rewrite FindByID_total. f_equal.
  induction users as [|x rest IH]; [contradiction|].
  inversion Hnd as [|? ? Hx Hrest]; subst. cbn.
  destruct (N.eqb_spec (user.ID x) (user.ID u)) as [E|E].
  - destruct Hin as [->|Hin]; [reflexivity|].
    elim Hx. rewrite E. now apply in_map.
  - destruct Hin as [->|Hin]; [now elim E|]. now apply IH.
Qed.

Section AdminRoutes.
Context {S : strings.Strings} {D : Type}.
Variable parse : string -> authjwt.AccessToken.
Variable s : auth.Service.

(** X16. Login and the admin routes fit together. Take a successful
    [Login] of a user whose id is an ObjectID, in a collection of users
    with unique ids, with an access TTL of at least one second. A request
    that carries the access token returned, as [Bearer] and the token's
    text, and arrives between the issue and the TTL less one second later,
    passes [AuthRequired], which stores the hexadecimal id of the user as
    the user id. If the user has the role ["admin"] the request passes
    [AdminRequired] too and no response is written; if not, it is answered
    403. *)
Theorem login_token_on_admin_routes (env : auth.Env) (db db' : auth.DB)
        (email password text body_ : string) (resp_ : auth.TokenResponse)
        (u : user.User) (now' : Time) (headers : list (string * string)) :
  auth.Login s env db email password = (db', inr resp_) ->
  user.Authenticate (auth.users db) email password = inr u ->
  primitive.is_ObjectID (user.ID u) ->
  NoDup (map user.ID (auth.users db)) ->
  Second <= authjwt.accessTTL (auth.jwt s) ->
  auth.now_access env <= now'
  <= auth.now_access env + authjwt.accessTTL (auth.jwt s) - Second ->
  parse text = auth.AccessToken resp_ ->
  gin.lookup "Authorization" headers = Some ("Bearer " ++ text)%string ->
  gin.IsAborted (apphttp.AuthRequired parse (auth.jwt s) now'
                   (gin.request (D := D) headers body_)) = false
  /\ gin.Get (apphttp.AuthRequired parse (auth.jwt s) now'
                (gin.request (D := D) headers body_)) apphttp.ContextKeyUserID
     = Some (Hex (user.ID u))
  /\ (user.Role u = user.RoleAdmin ->
      gin.IsAborted
        (gin.run_chain (apphttp.admin_chain parse (auth.jwt s) now' (auth.users db'))
           (gin.request (D := D) headers body_)) = false
      /\ gin.Written
           (gin.run_chain (apphttp.admin_chain parse (auth.jwt s) now' (auth.users db'))
              (gin.request (D := D) headers body_)) = None)
  /\ (user.Role u <> user.RoleAdmin ->
      gin.Written
        (gin.run_chain (apphttp.admin_chain parse (auth.jwt s) now' (auth.users db'))
           (gin.request (D := D) headers body_))
      = Some (resp.StatusForbidden,
              gin.ErrorBody "FORBIDDEN" "admin access required" None)).
Proof.
  intros Hlogin Hauth Hoid Hnd Httl Hnow Hparse Hhdr.
  apply Login_inr_store in Hlogin.
  destruct Hlogin as (u' & Ha & Husers & _ & _ & Hresp).
  rewrite Hauth in Ha. injection Ha as <-.
  pose proof (Authenticate_inr _ _ _ _ Hauth) as (Hin & _ & _).
  set (c0 := gin.request (D := D) headers body_).
  set (claims := authjwt.issued_claims (auth.jwt s) (auth.now_access env)
                   (Hex (user.ID u)) (user.Email u)).
  assert (Hv : authjwt.ValidateAccessToken (auth.jwt s) now' (parse text) = inr claims).
  { rewrite Hparse, Hresp. cbn [auth.AccessToken auth.issued_response].
    apply ValidateAccessToken_accepts with (h := jwt.SHA256).
    - reflexivity.
    - intros exp [= <-].
      pose proof (NewNumericDate_gt (Add (auth.now_access env)
                                         (authjwt.accessTTL (auth.jwt s)))).
      unfold Add in *. lia.
    - intros nbf Hnbf. discriminate Hnbf. }
  assert (Hh : gin.GetHeader c0 "Authorization" = ("Bearer" ++ " " ++ text)%string).
  { unfold gin.GetHeader, c0. cbn [gin.request gin.RequestHeader].
    rewrite Hhdr. reflexivity. }
  pose proof (AuthRequired_pass parse (auth.jwt s) now' c0 "Bearer" text claims
                Hh eq_refl Hv) as Hpass.
  assert (Hadmin : apphttp.AdminRequired (auth.users db') (apphttp.AuthRequired parse (auth.jwt s) now' c0)
                   = if negb (String.eqb (user.Role u) user.RoleAdmin)
                     then gin.Abort (resp.Forbidden
                                       (apphttp.AuthRequired parse (auth.jwt s) now' c0)
                                       "admin access required")
                     else gin.Set_ (apphttp.AuthRequired parse (auth.jwt s) now' c0)
                                   apphttp.ContextKeyRole (user.Role u)).
  { rewrite Hpass. unfold apphttp.AdminRequired.
    assert (Hget : gin.Get (gin.Set_ (gin.Set_ c0 apphttp.ContextKeyUserID
                                         (authjwt.Subject claims))
                                      apphttp.ContextKeyEmail (authjwt.Email claims))
                           apphttp.ContextKeyUserID
                   = Some (Hex (user.ID u))) by reflexivity.
    rewrite Hget, (ObjectIDFromHex_Hex _ Hoid), Husers,
      (find_by_id_unique _ _ Hnd Hin). reflexivity. }
  cbn [gin.run_chain apphttp.admin_chain].
  change (gin.IsAborted (gin.request (D := D) headers body_)) with false.
  cbv iota. fold c0. rewrite Hadmin.
  assert (Hna : gin.IsAborted (apphttp.AuthRequired parse (auth.jwt s) now' c0) = false)
    by (rewrite Hpass; reflexivity).
  rewrite Hna.
  split; [reflexivity|]. split; [rewrite Hpass; reflexivity|]. split.
  - intros Hrole. rewrite Hrole. cbn [String.eqb negb]. rewrite Hpass. split; reflexivity.
  - intros Hrole.
    destruct (String.eqb_spec (user.Role u) user.RoleAdmin); [contradiction|].
    reflexivity.
Qed.

End AdminRoutes.

Lemma AuthRequired_passes_iff_witness :
  gin.IsAborted
    (apphttp.AuthRequired (D := unit) Scenarios.parse Examples.mgr
       (Examples.t0 + Minute)
       (gin.request [("Authorization", "bearer admin.token.text")] ""))
  = false
  /\ exists message,
       apphttp.AuthRequired (D := unit) Scenarios.parse Examples.mgr
         (Examples.t0 + Minute)
         (gin.request [("Authorization", "Basic dXNlcjpwYXNz")] "")
       = gin.Abort (resp.Unauthorized
                      (gin.request [("Authorization", "Basic dXNlcjpwYXNz")] "")
                      message).
Proof.
  split.
  - apply (proj1 (AuthRequired_passes_iff (D := unit) Scenarios.parse Examples.mgr
                    (Examples.t0 + Minute)
                    (gin.request [("Authorization", "bearer admin.token.text")] "")
                    eq_refl)).
    exists "bearer", "admin.token.text". eexists.
    split; [reflexivity|]. split; [reflexivity|]. vm_compute. reflexivity.
  - apply (proj2 (proj2 (AuthRequired_passes_iff (D := unit) Scenarios.parse
                           Examples.mgr (Examples.t0 + Minute)
                           (gin.request [("Authorization", "Basic dXNlcjpwYXNz")] "")
                           eq_refl))).
    vm_compute. reflexivity.
Defined.

Lemma login_token_on_admin_routes_witness :
  gin.IsAborted
    (gin.run_chain
       (apphttp.admin_chain (D := unit) Scenarios.parse Examples.mgr
          (Examples.t0 + Minute) (auth.users Scenarios.db_admin))
       (gin.request [("Authorization", "Bearer admin.token.text")] "")) = false
  /\ gin.Written
       (gin.run_chain
          (apphttp.admin_chain (D := unit) Scenarios.parse Examples.mgr
             (Examples.t0 + Minute) (auth.users Scenarios.db_admin))
          (gin.request [("Authorization", "Bearer user.token.text")] ""))
     = Some (resp.StatusForbidden,
             gin.ErrorBody "FORBIDDEN" "admin access required" None).
Proof.
  split.
  - refine (proj1 (proj1 (proj2 (proj2
      (login_token_on_admin_routes (S := strings.ASCII) (D := unit)
         Scenarios.parse Examples.svc (Examples.env_n 1) Scenarios.db_admin
         {| auth.users := auth.users Scenarios.db_admin;
            auth.refresh_tokens :=
              [auth.issued_record Examples.svc (Examples.env_n 1)
                 (user.ID Scenarios.admin) ("cmFuZG9t" ++ Hex 1%N)%string] |}
         "admin@example.com" "adminPass1" "admin.token.text" ""
         (auth.issued_response Examples.svc (Examples.env_n 1)
            (user.ID Scenarios.admin) (user.Email Scenarios.admin)
            ("cmFuZG9t" ++ Hex 1%N)%string)
         Scenarios.admin (Examples.t0 + Minute)
         [("Authorization", "Bearer admin.token.text")]
         _ _ _ _ _ _ _ _))) _)).
    + lazy; reflexivity.
    + lazy; reflexivity.
    + vm_compute. reflexivity.
    + repeat constructor; cbn; intuition discriminate.
    + vm_compute. discriminate.
    + split; vm_compute; discriminate.
    + reflexivity.
    + reflexivity.
    + reflexivity.
  - refine (proj2 (proj2 (proj2
      (login_token_on_admin_routes (S := strings.ASCII) (D := unit)
         Scenarios.parse Examples.svc (Examples.env_n 1) Scenarios.db_admin
         {| auth.users := auth.users Scenarios.db_admin;
            auth.refresh_tokens :=
              [auth.issued_record Examples.svc (Examples.env_n 1)
                 (user.ID Examples.test_user) ("cmFuZG9t" ++ Hex 1%N)%string] |}
         "test@example.com" "password123" "user.token.text" ""
         (auth.issued_response Examples.svc (Examples.env_n 1)
            (user.ID Examples.test_user) (user.Email Examples.test_user)
            ("cmFuZG9t" ++ Hex 1%N)%string)
         Examples.test_user (Examples.t0 + Minute)
         [("Authorization", "Bearer user.token.text")]
         _ _ _ _ _ _ _ _))) _).
    + lazy; reflexivity.
    + lazy; reflexivity.
    + vm_compute. reflexivity.
    + repeat constructor; cbn; intuition discriminate.
    + vm_compute. discriminate.
    + split; vm_compute; discriminate.
    + reflexivity.
    + reflexivity.
    + vm_compute. discriminate.
Defined.

(* ===================================================================== *)
(** ** Pagination                                                         *)
(* ===================================================================== *)

Lemma wrap64_id (z : Z) : is_int64 z -> wrap64 z = z.
Proof.
  unfold is_int64, wrap64, min_int64, max_int64. intros H.
  rewrite Z.mod_small by lia. lia.
Qed.

Lemma wrap64_range (z : Z) : is_int64 (wrap64 z).
Proof.
  unfold is_int64, wrap64, min_int64, max_int64.
  pose proof (Z.mod_pos_bound (z + 2 ^ 63) (2 ^ 64) ltac:(lia)). lia.
Qed.

Lemma Clamp_eq (p : pagination.Params) :
  pagination.Clamp p
  = {| pagination.Page := Z.max 1 (pagination.Page p);
       pagination.PageSize :=
         if pagination.PageSize p <? 1 then 10
         else if 50 <? pagination.PageSize p then 50 else pagination.PageSize p;
       pagination.Sort := pagination.Sort p;
       pagination.Order := pagination.Order p |}.
Proof.
  destruct p as [pg ps so od].
  unfold pagination.Clamp, pagination.with_Page, pagination.with_PageSize.
  cbn [pagination.Page pagination.PageSize pagination.Sort pagination.Order].
  destruct (pg <? 1) eqn:Hp;
    cbn [pagination.Page pagination.PageSize pagination.Sort pagination.Order];
    destruct (ps <? 1) eqn:Hs;
    cbn [pagination.Page pagination.PageSize pagination.Sort pagination.Order];
    try change (50 <? 10) with false; cbv iota;
    try destruct (50 <? ps) eqn:Hl;
    cbn [pagination.Page pagination.PageSize pagination.Sort pagination.Order];
    f_equal; lia.
Qed.

Lemma Clamp_Page (p : pagination.Params) :
  pagination.Page (pagination.Clamp p) = Z.max 1 (pagination.Page p).
Proof. rewrite Clamp_eq. reflexivity. Qed.

Lemma Clamp_PageSize (p : pagination.Params) :
  1 <= pagination.PageSize (pagination.Clamp p) <= 50.
Proof.
  rewrite Clamp_eq. cbn [pagination.PageSize].
  destruct (pagination.PageSize p <? 1) eqn:Hs; [lia|].
  destruct (50 <? pagination.PageSize p) eqn:Hl; lia.
Qed.

Lemma Clamp_valid (p : pagination.Params) :
  1 <= pagination.Page p -> 1 <= pagination.PageSize p <= 50 ->
  pagination.Clamp p = p.
Proof.
  intros Hp Hs. unfold pagination.Clamp.
  replace (pagination.Page p <? 1) with false by lia.
  replace (pagination.PageSize p <? 1) with false by lia.
  replace (50 <? pagination.PageSize p) with false by lia.
  reflexivity.
Qed.

(** X17. [Clamp] brings any parameters into the accepted range and leaves
    accepted ones alone: afterwards the page is at least 1 and the page
    size is between 1 and 50; a page below 1 becomes 1, a size below 1
    becomes 10 (not 1) and a size above 50 becomes 50; sort and order are
    never touched; and clamping twice is clamping once. *)
Theorem Clamp_normalizes (p : pagination.Params) :
  let q := pagination.Clamp p in
  pagination.Page q = Z.max 1 (pagination.Page p) /\
  1 <= pagination.PageSize q <= 50 /\
  (pagination.PageSize p < 1 -> pagination.PageSize q = 10) /\
  (50 < pagination.PageSize p -> pagination.PageSize q = 50) /\
  (1 <= pagination.PageSize p <= 50 -> pagination.PageSize q = pagination.PageSize p) /\
  pagination.Sort q = pagination.Sort p /\
  pagination.Order q = pagination.Order p /\
  pagination.Clamp q = q.
Proof.
  cbv zeta.
  split; [apply Clamp_Page|].
  split; [apply Clamp_PageSize|].
  assert (Hq : pagination.Clamp (pagination.Clamp p) = pagination.Clamp p).
  { apply Clamp_valid; [rewrite Clamp_Page; lia | apply Clamp_PageSize]. }
  rewrite Hq. rewrite Clamp_eq.
  cbn [pagination.PageSize pagination.Sort pagination.Order].
  repeat split.
  - intros H. replace (pagination.PageSize p <? 1) with true by lia. reflexivity.
  - intros H. replace (pagination.PageSize p <? 1) with false by lia.
    replace (50 <? pagination.PageSize p) with true by lia. reflexivity.
  - intros H. replace (pagination.PageSize p <? 1) with false by lia.
    replace (50 <? pagination.PageSize p) with false by lia. reflexivity.
Qed.

(** X18. After [Clamp], [Skip] is the number of documents before the page,
    [(Page - 1) * PageSize], exactly when that product fits an int64; it
    does for every page up to 184467440737095517, where [Skip] is then
    non-negative and grows by one page size from a page to the next.
    Beyond, the multiplication wraps around. *)
Theorem Skip_after_Clamp (p : pagination.Params) :
  is_int64 (pagination.Page p) ->
  let q := pagination.Clamp p in
  let before := (pagination.Page q - 1) * pagination.PageSize q in
  (pagination.Skip q = before <-> before <= max_int64) /\
  (pagination.Page p <= 184467440737095517 ->
   0 <= pagination.Skip q /\ pagination.Skip q = before) /\
  (pagination.Page p < 184467440737095517 ->
   pagination.Skip (pagination.with_Page q (pagination.Page q + 1))
   = pagination.Skip q + pagination.PageSize q).
Proof.
  intros Hp q before.
  pose proof (Clamp_Page p) as HP. pose proof (Clamp_PageSize p) as HS.
  fold q in HP, HS.
  assert (H1 : wrap64 (pagination.Page q - 1) = pagination.Page q - 1).
  { apply wrap64_id. unfold is_int64, min_int64, max_int64 in *. lia. }
  assert (Hb : 0 <= before) by (unfold before; nia).
  split; [|split].
  - unfold pagination.Skip. rewrite H1. fold before. split.
    + intros E. pose proof (wrap64_range before) as R. rewrite E in R.
      apply R.
    + intros Hle. apply wrap64_id. unfold is_int64, min_int64. lia.
  - intros Hle. unfold pagination.Skip. rewrite H1. fold before.
    rewrite wrap64_id; [lia|].
    unfold is_int64, min_int64, max_int64. unfold before. nia.
  - intros Hlt. unfold pagination.Skip.
    assert (EP : pagination.Page (pagination.with_Page q (pagination.Page q + 1))
                 = pagination.Page q + 1) by reflexivity.
    assert (ES : pagination.PageSize (pagination.with_Page q (pagination.Page q + 1))
                 = pagination.PageSize q) by reflexivity.
    rewrite EP, ES, H1.
    replace (pagination.Page q + 1 - 1) with (pagination.Page q) by lia.
    rewrite (wrap64_id (pagination.Page q))
      by (unfold is_int64, min_int64, max_int64 in *; lia).
    rewrite !wrap64_id; unfold is_int64, min_int64, max_int64; nia.
Qed.

Lemma Skip_after_Clamp_witness :
  is_int64 3 /\
  pagination.Skip
    (pagination.Clamp
       {| pagination.Page := 3; pagination.PageSize := 20;
          pagination.Sort := "name"; pagination.Order := "asc" |}) = 40 /\
  ~ (184467440737095518 - 1) * 50 <= max_int64.
Proof.
  assert (H3 : is_int64 3) by (unfold is_int64, min_int64, max_int64; lia).
  split; [exact H3|]. split.
  - pose proof (Skip_after_Clamp
                  {| pagination.Page := 3; pagination.PageSize := 20;
                     pagination.Sort := "name"; pagination.Order := "asc" |} H3)
      as [_ [H _]].
    destruct (H ltac:(cbn; lia)) as [_ E]. rewrite E. reflexivity.
  - unfold max_int64. lia.
Defined.

(** The page counts of small listings, checked one by one. *)
Lemma TotalPages_table :
  forallb
    (fun total =>
       forallb
         (fun pageSize =>
            pagination.TotalPages total pageSize
            =? (total + pageSize - 1) / pageSize)
         (map Z.of_nat (seq 1 50)))
    (map Z.of_nat (seq 0 201)) = true.
Proof. vm_compute. reflexivity. Qed.

(** X19. [TotalPages] is the number of pages that hold [total] items,
    the quotient [total / pageSize] rounded up, for every total up to 200
    and every page size that [Clamp] lets through (1 to 50), although it
    is computed in floating point. *)
Theorem TotalPages_is_ceiling (total pageSize : Z) :
  0 <= total <= 200 -> 1 <= pageSize <= 50 ->
  pagination.TotalPages total pageSize = (total + pageSize - 1) / pageSize.
Proof.
  intros Ht Hp.
  pose proof TotalPages_table as T.
  rewrite forallb_forall in T.
  specialize (T total).
  assert (Hin : In total (map Z.of_nat (seq 0 201))).
  { apply in_map_iff. exists (Z.to_nat total). split; [lia|].
    apply in_seq. lia. }
  specialize (T Hin). rewrite forallb_forall in T.
  specialize (T pageSize).
  assert (Hin' : In pageSize (map Z.of_nat (seq 1 50))).
  { apply in_map_iff. exists (Z.to_nat pageSize). split; [lia|].
    apply in_seq. lia. }
  specialize (T Hin'). apply Z.eqb_eq in T. exact T.
Qed.

Lemma TotalPages_is_ceiling_witness :
  pagination.TotalPages 21 10 = 3.
Proof.
  rewrite (TotalPages_is_ceiling 21 10); [reflexivity | lia | lia].
Defined.

(* ===================================================================== *)
(** ** Products                                                           *)
(* ===================================================================== *)

Section ProductLaws.
Import product.

Lemma product_FindByID_total (col : list Product) (id : ObjectID) :
  FindByID col id = inr (find (fun p => N.eqb (ID p) id) col).
Proof.
  unfold FindByID, mongo.FindOne. destruct (find _ col); reflexivity.
Qed.

Lemma product_find_unique (col : list Product) (p : Product) :
  NoDup (map ID col) -> In p col ->
  find (fun x => N.eqb (ID x) (ID p)) col = Some p.
Proof.
  intros Hnd Hin.
  induction col as [|x rest IH]; [contradiction|].
  inversion Hnd as [|? ? Hx Hrest]; subst. cbn.
  destruct (N.eqb_spec (ID x) (ID p)) as [E|E].
  - destruct Hin as [->|Hin]; [reflexivity|].
    elim Hx. rewrite E. now apply in_map.
  - destruct Hin as [->|Hin]; [now elim E|]. now apply IH.
Qed.

Lemma product_find_absent (col : list Product) (id : ObjectID) :
  ~ In id (map ID col) -> find (fun x => N.eqb (ID x) id) col = None.
Proof.
  induction col as [|x rest IH]; cbn; intros Hno; [reflexivity|].
  destruct (N.eqb_spec (ID x) id) as [E|E]; [elim Hno; now left|].
  apply IH. intros Hin. apply Hno. now right.
Qed.

Lemma product_find_present (col : list Product) (id : ObjectID) (p : Product) :
  find (fun x => N.eqb (ID x) id) col = Some p -> In p col /\ ID p = id.
Proof.
  intros H. apply find_some in H. destruct H as [Hin E].
  apply N.eqb_eq in E. auto.
Qed.

Lemma find_UpdateOne_same {D : Type} (col : list D) (f : D -> bool)
      (upd : D -> D) :
  (forall d, f d = true -> f (upd d) = true) ->
  find f (mongo.UpdateOne col f upd) = option_map upd (find f col).
Proof.
  intros Hf. induction col as [|x rest IH]; cbn; [reflexivity|].
  destruct (f x) eqn:E; cbn.
  - now rewrite (Hf x E).
  - now rewrite E.
Qed.

Lemma find_app_skip {D : Type} (g : D -> bool) (l1 l2 : list D) (d : D) :
  g d = false -> find g (l1 ++ d :: l2) = find g (l1 ++ l2).
Proof.
  intros Hg. induction l1 as [|x l1 IH]; cbn; [now rewrite Hg|].
  destruct (g x); auto.
Qed.

Lemma DeleteOne_absent (col : list Product) (f : Product -> bool) :
  find f col = None -> DeleteOne col f = (col, 0).
Proof.
  induction col as [|x rest IH]; cbn; intros H; [reflexivity|].
  destruct (f x); [discriminate|]. now rewrite IH.
Qed.

Lemma DeleteOne_present (col : list Product) (f : Product -> bool) (p : Product) :
  find f col = Some p ->
  exists l1 l2, col = (l1 ++ p :: l2)%list /\ DeleteOne col f = ((l1 ++ l2)%list, 1).
Proof.
  induction col as [|x rest IH]; cbn; intros H; [discriminate|].
  destruct (f x) eqn:E.
  - injection H as ->. exists [], rest. auto.
  - destruct (IH H) as (l1 & l2 & -> & Hd).
    exists (x :: l1), l2. rewrite Hd. auto.
Qed.

Lemma NoDup_snoc {A : Type} (l : list A) (a : A) :
  NoDup l -> ~ In a l -> NoDup (l ++ [a]).
Proof.
  induction l as [|x l IH]; cbn; intros Hnd Hno.
  - constructor; [intros []|constructor].
  - inversion Hnd as [|? ? Hx Hl]; subst. constructor.
    + rewrite in_app_iff. cbn. intros [H|[H|[]]]; [auto|]. apply Hno. now left.
    + apply IH; auto.
Qed.

Lemma set_fields_ID (req : UpdateRequest) (t : Time) (p : Product) :
  ID (set_fields req t p) = ID p.
Proof. reflexivity. Qed.

(** X20. A product that is created under an id that is not taken yet is
    stored and found by that id; it is available unless the request says
    otherwise; no other product is affected and ids stay unique.  What
    [Create] returns carries the time of creation as the clock gave it,
    what is read back carries it in whole milliseconds: the two are the
    same product exactly when the clock was at a whole millisecond. *)
Theorem product_Create_then_FindByID (env : Env) (col : list Product)
        (req : CreateRequest) :
  ~ In (new_id env) (map ID col) ->
  exists p col',
    Create env col req = (col', inr p) /\
    ID p = new_id env /\
    IsAvailable p = or_else (cIsAvailable req) true /\
    CreatedAt p = now env /\ UpdatedAt p = now env /\
    FindByID col' (ID p) = inr (Some (marshal p)) /\
    (marshal p = p <-> now env mod Millisecond = 0) /\
    (forall id, id <> ID p -> FindByID col' id = FindByID col id) /\
    (NoDup (map ID col) -> NoDup (map ID col')).
Proof.
  intros Hfresh.
  set (p := {| ID := new_id env; Name := cName req; Description := cDescription req;
               PriceCents := cPriceCents req; Category := cCategory req;
               ImageURL := cImageURL req;
               IsAvailable := or_else (cIsAvailable req) true;
               CreatedAt := now env; UpdatedAt := now env |}).
  assert (Hex : existsb (fun d => collide d (marshal p)) col = false).
  { apply not_true_is_false. intros H. apply existsb_exists in H.
    destruct H as (d & Hd & Hc). unfold collide in Hc. apply N.eqb_eq in Hc.
    apply Hfresh. cbn in Hc. rewrite <- Hc. now apply in_map. }
  exists p, (col ++ [marshal p])%list.
  split.
  { unfold Create, RepoCreate, mongo.InsertOne.
    cbn [ID Name Description PriceCents Category ImageURL IsAvailable].
    fold (or_else (cIsAvailable req) true). fold p. rewrite Hex. reflexivity. }
  split; [reflexivity|]. split; [reflexivity|].
  split; [reflexivity|]. split; [reflexivity|].
  split.
  { rewrite product_FindByID_total, find_snoc.
    rewrite (product_find_absent col (ID p) Hfresh).
    cbn [marshal ID p]. rewrite N.eqb_refl. reflexivity. }
  split.
  { split.
    - intros E. apply (f_equal CreatedAt) in E. cbn in E.
      unfold mongo.DateTime in E. lia.
    - intros E. unfold marshal, p, mongo.DateTime. cbn. rewrite E.
      rewrite Z.sub_0_r. reflexivity. }
  split.
  { intros id Hid. rewrite !product_FindByID_total, find_snoc.
    destruct (find _ col); [reflexivity|].
    cbn [marshal ID p]. cbn [ID p] in Hid.
    destruct (N.eqb_spec (new_id env) id); [congruence|reflexivity]. }
  intros Hnd. rewrite map_app. cbn [map marshal ID p].
  apply NoDup_snoc; assumption.
Qed.

(** X21. An update of a product that exists, by the text of its id and
    with at least one field, returns the product as it is stored
    afterwards; a later read by that id returns the same; the id and the
    ids and order of the collection are unchanged, and so is every other
    product. *)
Theorem product_Update_changes_one (env : Env) (col : list Product)
        (req : UpdateRequest) (p : Product) :
  NoDup (map ID col) -> primitive.is_ObjectID (ID p) -> In p col ->
  no_fields req = false ->
  exists p' col',
    Update env col (Hex (ID p)) req = (col', inr p') /\
    p' = set_fields req (now env) p /\
    ID p' = ID p /\
    FindByID col' (ID p) = inr (Some p') /\
    (forall id, id <> ID p -> FindByID col' id = FindByID col id) /\
    map ID col' = map ID col.
Proof.
  intros Hnd Hid Hin Hnf.
  exists (set_fields req (now env) p),
    (mongo.UpdateOne col (fun x => N.eqb (ID x) (ID p)) (set_fields req (now env))).
  split.
  { unfold Update. rewrite (ObjectIDFromHex_Hex _ Hid), Hnf.
    unfold RepoUpdate, mongo.FindOne.
    rewrite (product_find_unique col p Hnd Hin). reflexivity. }
  split; [reflexivity|]. split; [reflexivity|]. split.
  { rewrite product_FindByID_total, find_UpdateOne_same.
    - rewrite (product_find_unique col p Hnd Hin). reflexivity.
    - intros d Hd. rewrite set_fields_ID. exact Hd. }
  split.
  { intros id Hne. rewrite !product_FindByID_total. f_equal.
    apply find_UpdateOne. intros d _ Hd. apply N.eqb_eq in Hd.
    rewrite set_fields_ID, Hd. split; apply N.eqb_neq; congruence. }
  apply (UpdateOne_keys ID (set_fields req (now env)) (set_fields_ID req (now env))).
Qed.

(** X22. The ways in which [Update] fails, in the order in which it
    checks: a text that is not an ObjectID gives "invalid product id"; a
    request without any field gives "no fields to update", whether the
    product exists or not; an id that no product has gives
    [ErrProductNotFound].  In each case the collection is as it was. *)
Theorem product_Update_failures (env : Env) (col : list Product)
        (idHex : string) (req : UpdateRequest) :
  ((forall id, primitive.ObjectIDFromHex idHex <> inr id) ->
   Update env col idHex req = (col, inl (Errorf "invalid product id" []))) /\
  (forall id, primitive.ObjectIDFromHex idHex = inr id ->
     (no_fields req = true ->
      Update env col idHex req = (col, inl (Errorf "no fields to update" []))) /\
     (no_fields req = false -> ~ In id (map ID col) ->
      Update env col idHex req = (col, inl ErrProductNotFound))) /\
  (forall e col', Update env col idHex req = (col', inl e) -> col' = col).
Proof.
  split; [|split].
  - intros Hbad. unfold Update.
    destruct (primitive.ObjectIDFromHex idHex) as [e|id]; [reflexivity|].
    now elim (Hbad id).
  - intros id Hid. unfold Update. rewrite Hid. split.
    + intros ->. reflexivity.
    + intros -> Hno. unfold RepoUpdate, mongo.FindOne.
      rewrite (product_find_absent col id Hno). reflexivity.
  - intros e col'. unfold Update.
    destruct (primitive.ObjectIDFromHex idHex) as [e0|id]; [congruence|].
    destruct (no_fields req); [congruence|].
    unfold RepoUpdate, mongo.FindOne.
    destruct (find _ col) as [p|]; cbn; congruence.
Qed.

(** X23. Deleting a product that exists removes it and nothing else: the
    call returns no error, a read by the id finds nothing afterwards,
    every other product reads as before, and a second delete of the same
    id fails with [ErrProductNotFound].  Deleting an id that no product
    has fails with [ErrProductNotFound] and leaves the collection as it
    was. *)
Theorem product_Delete_removes_one (col : list Product) (id : ObjectID) :
  NoDup (map ID col) -> primitive.is_ObjectID id ->
  (In id (map ID col) ->
   exists col',
     Delete col (Hex id) = (col', None) /\
     FindByID col' id = inr None /\
     (forall id', id' <> id -> FindByID col' id' = FindByID col id') /\
     List.length col = S (List.length col') /\
     Delete col' (Hex id) = (col', Some ErrProductNotFound)) /\
  (~ In id (map ID col) -> Delete col (Hex id) = (col, Some ErrProductNotFound)).
Proof.
  intros Hnd Hid.
  assert (Habs : forall c, ~ In id (map ID c) ->
                           Delete c (Hex id) = (c, Some ErrProductNotFound)).
  { intros c Hno. unfold Delete, RepoDelete.
    rewrite (ObjectIDFromHex_Hex _ Hid).
    rewrite (DeleteOne_absent c _ (product_find_absent c id Hno)). reflexivity. }
  split; [|apply Habs].
  intros Hin. apply in_map_iff in Hin. destruct Hin as (p & Hp & Hin). subst id.
  pose proof (product_find_unique col p Hnd Hin) as Hf.
  destruct (DeleteOne_present col _ p Hf) as (l1 & l2 & Hcol & Hdel).
  assert (Hno : ~ In (ID p) (map ID (l1 ++ l2))).
  { rewrite Hcol, map_app in Hnd. cbn [map] in Hnd.
    rewrite map_app. apply (NoDup_remove_2 _ _ _ Hnd). }
  exists (l1 ++ l2)%list. split.
  { unfold Delete, RepoDelete. rewrite (ObjectIDFromHex_Hex _ Hid), Hdel.
    reflexivity. }
  split.
  { rewrite product_FindByID_total. now rewrite (product_find_absent _ _ Hno). }
  split.
  { intros id' Hne. rewrite !product_FindByID_total, Hcol. f_equal.
    symmetry. apply find_app_skip. apply N.eqb_neq. congruence. }
  split.
  { rewrite Hcol, !length_app. cbn. lia. }
  apply Habs, Hno.
Qed.

End ProductLaws.

Lemma menu_ids_unique : NoDup (map product.ID Scenarios.menu).
Proof.
  cbn. repeat (constructor; [cbn; intuition discriminate|]). constructor.
Qed.

Lemma product_Create_then_FindByID_witness :
  exists p col',
    product.Create Scenarios.penv Scenarios.menu Scenarios.new_product = (col', inr p) /\
    product.IsAvailable p = true /\
    product.FindByID col' 504%N = inr (Some (product.marshal p)) /\
    product.marshal p <> p.
Proof.
  assert (Hfresh : ~ In (product.new_id Scenarios.penv) (map product.ID Scenarios.menu))
    by (cbn; intuition discriminate).
  destruct (product_Create_then_FindByID Scenarios.penv Scenarios.menu
              Scenarios.new_product Hfresh)
    as (p & col' & Hc & Hid & Hav & _ & _ & Hf & Hm & _).
  exists p, col'. split; [exact Hc|]. split; [exact Hav|]. split.
  - rewrite Hid in Hf. exact Hf.
  - intros E. apply Hm in E. vm_compute in E. discriminate E.
Defined.

Lemma product_Update_changes_one_witness :
  exists p' col',
    product.Update Scenarios.penv Scenarios.menu (Hex 502%N) Scenarios.new_price
    = (col', inr p') /\
    product.PriceCents p' = 1099 /\
    product.Name p' = "Margherita Pizza" /\
    product.FindByID col' 501%N = inr (Some Scenarios.burger).
Proof.
  assert (Hid : primitive.is_ObjectID (product.ID Scenarios.pizza)) by reflexivity.
  assert (Hin : In Scenarios.pizza Scenarios.menu) by (cbn; auto).
  destruct (product_Update_changes_one Scenarios.penv Scenarios.menu
              Scenarios.new_price Scenarios.pizza menu_ids_unique Hid Hin eq_refl)
    as (p' & col' & Hu & Hp & _ & _ & Hother & _).
  exists p', col'. split; [exact Hu|]. subst p'.
  split; [reflexivity|]. split; [reflexivity|].
  rewrite (Hother 501%N) by discriminate. reflexivity.
Defined.

Lemma product_Delete_removes_one_witness :
  exists col',
    product.Delete Scenarios.menu (Hex 502%N) = (col', None) /\
    product.FindByID col' 502%N = inr None /\
    product.Delete col' (Hex 502%N) = (col', Some product.ErrProductNotFound) /\
    product.Delete Scenarios.menu (Hex 777%N)
    = (Scenarios.menu, Some product.ErrProductNotFound).
Proof.
  assert (Hid : primitive.is_ObjectID 502%N) by reflexivity.
  assert (Hid' : primitive.is_ObjectID 777%N) by reflexivity.
  assert (Hin : In 502%N (map product.ID Scenarios.menu)) by (cbn; auto).
  destruct (product_Delete_removes_one Scenarios.menu 502%N menu_ids_unique Hid)
    as [Hyes _].
  destruct (Hyes Hin) as (col' & Hd & Hf & _ & _ & Hd2).
  exists col'. split; [exact Hd|]. split; [exact Hf|]. split; [exact Hd2|].
  apply (product_Delete_removes_one Scenarios.menu 777%N menu_ids_unique Hid').
  cbn. intuition discriminate.
Defined.

Lemma Skip_Clamp_exact (p : pagination.Params) :
  pagination.Page p <= 184467440737095517 ->
  pagination.Skip (pagination.Clamp p)
  = (pagination.Page (pagination.Clamp p) - 1) * pagination.PageSize (pagination.Clamp p)
  /\ 0 <= pagination.Skip (pagination.Clamp p).
Proof.
  intros Hle.
  pose proof (Clamp_Page p) as HP. pose proof (Clamp_PageSize p) as HS.
  unfold pagination.Skip.
  rewrite (wrap64_id (pagination.Page (pagination.Clamp p) - 1))
    by (unfold is_int64, min_int64, max_int64; lia).
  rewrite wrap64_id by (unfold is_int64, min_int64, max_int64; nia).
  split; [reflexivity|nia].
Qed.

Lemma In_firstn_skipn {A : Type} (n k : nat) (l : list A) (a : A) :
  In a (firstn n (skipn k l)) -> In a l.
Proof.
  intros H.
  rewrite <- (firstn_skipn k l). apply in_or_app. right.
  rewrite <- (firstn_skipn n (skipn k l)). apply in_or_app. now left.
Qed.

Section ListLaws.
Import product.
Variable text_search : string -> Product -> bool.
Variable sort_by : string -> Z -> list Product -> list Product.
Hypothesis sort_by_rearranges :
  forall field order l, Permutation (sort_by field order l) l.

Lemma List_page_ok (col : list Product) (filter : ListFilter)
      (p : pagination.Params) :
  pagination.Page p <= 184467440737095517 ->
  exists r,
    List_ text_search sort_by col filter p = inr r /\
    Page r = Z.max 1 (pagination.Page p) /\
    PageSize r = pagination.PageSize (pagination.Clamp p) /\
    Total r = Z.of_nat (List.length (List.filter (matches text_search filter) col)) /\
    Z.of_nat (List.length (Items r))
    = Z.min (PageSize r) (Z.max 0 (Total r - (Page r - 1) * PageSize r)) /\
    (forall it, In it (Items r) ->
       exists pr, In pr col /\ matches text_search filter pr = true /\
                  it = ToResponse pr).
Proof.
  intros Hle.
  destruct (Skip_Clamp_exact p Hle) as [Hskip Hpos].
  pose proof (Clamp_Page p) as HP. pose proof (Clamp_PageSize p) as HS.
  unfold List_, RepoList, Find.
  set (q := pagination.Clamp p) in *.
  replace (pagination.Skip q <? 0) with false by lia.
  replace (pagination.PageSize q =? 0) with false by lia.
  eexists. split; [reflexivity|].
  cbn [Page PageSize Total Items].
  split; [exact HP|]. split; [reflexivity|]. split; [reflexivity|].
  split.
  - rewrite length_map, length_firstn, length_skipn.
    rewrite (Permutation_length (sort_by_rearranges _ _ _)).
    rewrite <- Hskip. lia.
  - intros it Hit. apply in_map_iff in Hit. destruct Hit as (pr & <- & Hin).
    apply In_firstn_skipn in Hin.
    apply (Permutation_in _ (sort_by_rearranges _ _ _)) in Hin.
    apply filter_In in Hin. exists pr. tauto.
Qed.

(** X24. A listing of products, for any page up to 184467440737095517:
    the call succeeds; the page number and page size of the answer are the
    clamped ones; [Total] counts the products that match the filter; the
    page holds as many items as are left after the pages before it, up to
    the page size (and none when the page is past the end); and every item
    is a product of the collection that matches the filter. *)
Theorem product_List_page (col : list Product) (filter : ListFilter)
        (p : pagination.Params) :
  pagination.Page p <= 184467440737095517 ->
  exists r,
    List_ text_search sort_by col filter p = inr r /\
    Page r = Z.max 1 (pagination.Page p) /\
    1 <= PageSize r <= 50 /\
    Total r = Z.of_nat (List.length (List.filter (matches text_search filter) col)) /\
    Z.of_nat (List.length (Items r))
    = Z.min (PageSize r) (Z.max 0 (Total r - (Page r - 1) * PageSize r)) /\
    (forall it, In it (Items r) ->
       exists pr, In pr col /\ matches text_search filter pr = true /\
                  it = ToResponse pr).
Proof.
  intros Hle.
  destruct (List_page_ok col filter p Hle) as (r & Hr & HP & HS & Ht & Hl & Hin).
  exists r. repeat split; try assumption;
    rewrite HS; apply (Clamp_PageSize p).
Qed.

End ListLaws.

Lemma product_List_page_witness :
  exists r,
    product.List_ Scenarios.any_text Scenarios.unsorted Scenarios.menu
      {| product.Query := ""; product.FilterCategory := "" |}
      {| pagination.Page := 2; pagination.PageSize := 2;
         pagination.Sort := "price"; pagination.Order := "asc" |} = inr r /\
    product.Total r = 3 /\
    List.length (product.Items r) = 1%nat.
Proof.
  destruct (product_List_page Scenarios.any_text Scenarios.unsorted
              (fun _ _ l => Permutation_refl l) Scenarios.menu
              {| product.Query := ""; product.FilterCategory := "" |}
              {| pagination.Page := 2; pagination.PageSize := 2;
                 pagination.Sort := "price"; pagination.Order := "asc" |})
    as (r & Hr & Hpage & _ & Htotal & Hlen & _).
  - cbn. lia.
  - exists r. split; [exact Hr|].
    assert (Ht : product.Total r = 3) by (rewrite Htotal; reflexivity).
    split; [exact Ht|].
    injection Hr as <-. reflexivity.
Defined.

(* ===================================================================== *)
(** ** The product handlers                                               *)
(* ===================================================================== *)

Lemma product_find_None_absent (col : list product.Product) (id : ObjectID) :
  find (fun x => N.eqb (product.ID x) id) col = None ->
  ~ In id (map product.ID col).
Proof.
  intros Hf Hin. apply in_map_iff in Hin. destruct Hin as (p & Hp & Hin).
  pose proof (find_none _ _ Hf p Hin) as H. cbn in H.
  apply N.eqb_neq in H. contradiction.
Qed.

Section ProductHandlerLaws.
Import product.
Variable validate_update : UpdateRequest -> option (list (string * string)).

(** X25. The answer of [PUT /products/:id] to a request that binds and
    validates.  It is 200 exactly when the id is the text of an ObjectID,
    the request names a field and a product has the id; it is 404 exactly
    when the id is well formed, a field is named and no product has the
    id; and it is 500, the answer for unexpected errors, exactly when the
    id is not the text of an ObjectID or the request names no field.
    There is no other answer, and the collection only changes with a
    200. *)
Theorem product_handler_Update_status (env : Env) (col : list Product)
        (idParam : string) (req : UpdateRequest) (c : gin.Context payload) :
  validate_update req = None ->
  let out := Handler.Update validate_update env col idParam (Some req) c in
  let st := Handler.status (snd out) in
  (st = Some 200 <->
   exists id, primitive.ObjectIDFromHex idParam = inr id /\
              no_fields req = false /\ In id (map ID col)) /\
  (st = Some 404 <->
   exists id, primitive.ObjectIDFromHex idParam = inr id /\
              no_fields req = false /\ ~ In id (map ID col)) /\
  (st = Some 500 <->
   (forall id, primitive.ObjectIDFromHex idParam <> inr id) \/
   no_fields req = true) /\
  (st = Some 200 \/ st = Some 404 \/ st = Some 500) /\
  (st <> Some 200 -> fst out = col).
Proof.
  intros Hv. cbv zeta. unfold Handler.Update. rewrite Hv. unfold Update.
  destruct (primitive.ObjectIDFromHex idParam) as [e|id] eqn:Hid.
  - cbn. repeat split; try discriminate; auto.
    + intros (id & H & _). discriminate H.
    + intros (id & H & _). discriminate H.
    + intros _. left. intros id. discriminate.
  - destruct (no_fields req) eqn:Hnf.
    + cbn. repeat split; try discriminate; auto.
      * intros (id' & _ & H & _). discriminate H.
      * intros (id' & _ & H & _). discriminate H.
    + unfold RepoUpdate, mongo.FindOne.
      destruct (find (fun p => N.eqb (ID p) id) col) as [p|] eqn:Hf.
      * apply product_find_present in Hf. destruct Hf as [Hin Hp].
        assert (Hmem : In id (map ID col)) by (rewrite <- Hp; now apply in_map).
        cbn. repeat split; try discriminate; auto.
        -- intros _. exists id. auto.
        -- intros (id' & E & _ & Hno). injection E as <-. contradiction.
        -- intros [H|H]; [now elim (H id)|discriminate H].
        -- intros H. now elim H.
      * apply product_find_None_absent in Hf.
        cbn. repeat split; try discriminate; auto.
        -- intros (id' & E & _ & Hyes). injection E as <-. contradiction.
        -- intros _. exists id. auto.
        -- intros [H|H]; [now elim (H id)|discriminate H].
Qed.

(** X26. The answer of [DELETE /products/:id].  It is 200 exactly when the
    id is the text of an ObjectID that a product has, 404 exactly when
    it is the text of an ObjectID that no product has, and 500 exactly
    when it is not the text of an ObjectID; the collection only changes
    with a 200, which removes one product. *)
Theorem product_handler_Delete_status (col : list Product) (idParam : string)
        (c : gin.Context payload) :
  let out := Handler.Delete col idParam c in
  let st := Handler.status (snd out) in
  (st = Some 200 <->
   exists id, primitive.ObjectIDFromHex idParam = inr id /\ In id (map ID col)) /\
  (st = Some 404 <->
   exists id, primitive.ObjectIDFromHex idParam = inr id /\ ~ In id (map ID col)) /\
  (st = Some 500 <-> forall id, primitive.ObjectIDFromHex idParam <> inr id) /\
  (st <> Some 200 -> fst out = col) /\
  (st = Some 200 -> List.length col = S (List.length (fst out))).
Proof.
  cbv zeta. unfold Handler.Delete, Delete.
  destruct (primitive.ObjectIDFromHex idParam) as [e|id] eqn:Hid.
  - cbn. repeat split; try discriminate; auto.
    + intros (id & H & _). discriminate H.
    + intros (id & H & _). discriminate H.
  - unfold RepoDelete.
    destruct (find (fun p => N.eqb (ID p) id) col) as [p|] eqn:Hf.
    + destruct (DeleteOne_present col _ p Hf) as (l1 & l2 & Hcol & Hdel).
      apply product_find_present in Hf. destruct Hf as [Hin Hp].
      assert (Hmem : In id (map ID col)) by (rewrite <- Hp; now apply in_map).
      rewrite Hdel. cbn. repeat split; try discriminate; auto.
      * intros _. exists id. auto.
      * intros (id' & E & Hno). injection E as <-. contradiction.
      * intros H. now elim (H id).
      * intros H. now elim H.
      * intros _. rewrite Hcol, !length_app. cbn. lia.
    + rewrite (DeleteOne_absent col _ Hf).
      apply product_find_None_absent in Hf.
      cbn. repeat split; try discriminate; auto.
      * intros (id' & E & Hyes). injection E as <-. contradiction.
      * intros _. exists id. auto.
      * intros H. now elim (H id).
Qed.

End ProductHandlerLaws.

Section ListHandlerLaws.
Import product.
Variable text_search : string -> Product -> bool.
Variable sort_by : string -> Z -> list Product -> list Product.
Hypothesis sort_by_rearranges :
  forall field order l, Permutation (sort_by field order l) l.

Lemma params_Page (query : list (string * string)) :
  pagination.Page (Handler.params query)
  = match strconv.ParseInt (Handler.Query query "page") with
    | Some n => n
    | None => 1
    end.
Proof.
  unfold Handler.params.
  destruct (String.eqb_spec (Handler.Query query "page") "") as [E|E].
  - rewrite E.
    destruct (String.eqb (Handler.Query query "page_size") "");
      [|destruct (strconv.ParseInt (Handler.Query query "page_size"))];
      (destruct (String.eqb (Handler.Query query "sort") "");
       [|destruct (Handler.cut_comma (Handler.Query query "sort")) as [[f o]|];
         [destruct (String.eqb o "asc" || String.eqb o "desc")|]]);
      reflexivity.
  - destruct (strconv.ParseInt (Handler.Query query "page"));
      (destruct (String.eqb (Handler.Query query "page_size") "");
       [|destruct (strconv.ParseInt (Handler.Query query "page_size"))]);
      (destruct (String.eqb (Handler.Query query "sort") "");
       [|destruct (Handler.cut_comma (Handler.Query query "sort")) as [[f o]|];
         [destruct (String.eqb o "asc" || String.eqb o "desc")|]]);
      reflexivity.
Qed.

Lemma params_PageSize (query : list (string * string)) :
  pagination.PageSize (Handler.params query)
  = match strconv.ParseInt (Handler.Query query "page_size") with
    | Some n => n
    | None => 10
    end.
Proof.
  unfold Handler.params.
  destruct (String.eqb_spec (Handler.Query query "page_size") "") as [E|E].
  - rewrite E.
    destruct (String.eqb (Handler.Query query "page") "");
      [|destruct (strconv.ParseInt (Handler.Query query "page"))];
      (destruct (String.eqb (Handler.Query query "sort") "");
       [|destruct (Handler.cut_comma (Handler.Query query "sort")) as [[f o]|];
         [destruct (String.eqb o "asc" || String.eqb o "desc")|]]);
      reflexivity.
  - destruct (strconv.ParseInt (Handler.Query query "page_size"));
      (destruct (String.eqb (Handler.Query query "page") "");
       [|destruct (strconv.ParseInt (Handler.Query query "page"))]);
      (destruct (String.eqb (Handler.Query query "sort") "");
       [|destruct (Handler.cut_comma (Handler.Query query "sort")) as [[f o]|];
         [destruct (String.eqb o "asc" || String.eqb o "desc")|]]);
      reflexivity.
Qed.

(** X27. [GET /products] does not reject a query for its paging: as long
    as the page is at most 184467440737095517, the answer is 200 with a
    listing whose page is at least 1 and whose page size is between 1 and
    50 and bounds the number of items.  A [page] or [page_size] that is
    not a decimal int64 is ignored and the defaults 1 and 10 are used; a
    number out of bounds is clamped. *)
Theorem product_handler_List_lenient (col : list Product)
        (query : list (string * string)) (c : gin.Context payload) :
  (forall n, strconv.ParseInt (Handler.Query query "page") = Some n ->
             n <= 184467440737095517) ->
  exists r,
    Handler.List_ text_search sort_by col query c
    = resp.Success c resp.StatusOK (Listing r) /\
    1 <= Page r /\ 1 <= PageSize r <= 50 /\
    Z.of_nat (List.length (Items r)) <= PageSize r /\
    (strconv.ParseInt (Handler.Query query "page") = None -> Page r = 1) /\
    (strconv.ParseInt (Handler.Query query "page_size") = None -> PageSize r = 10) /\
    (forall n, strconv.ParseInt (Handler.Query query "page_size") = Some n ->
               50 < n -> PageSize r = 50).
Proof.
  intros Hpage.
  assert (Hle : pagination.Page (Handler.params query) <= 184467440737095517).
  { rewrite params_Page.
    destruct (strconv.ParseInt (Handler.Query query "page")) as [n|];
      [now apply Hpage|lia]. }
  destruct (List_page_ok text_search sort_by sort_by_rearranges col
              {| product.Query := Handler.Query query "q";
                 FilterCategory := Handler.Query query "category" |}
              (Handler.params query) Hle)
    as (r & Hr & HP & HS & _ & Hlen & _).
  pose proof (Clamp_PageSize (Handler.params query)) as Hb.
  exists r. split; [unfold Handler.List_; rewrite Hr; reflexivity|].
  split; [lia|]. split; [lia|]. split; [lia|].
  rewrite HP, HS, Clamp_eq. cbn [pagination.PageSize].
  rewrite params_Page, params_PageSize.
  split; [|split].
  - intros ->. reflexivity.
  - intros ->. reflexivity.
  - intros n -> Hn.
    replace (n <? 1) with false by lia. replace (50 <? n) with true by lia.
    reflexivity.
Qed.

End ListHandlerLaws.

Lemma product_handler_Update_status_witness :
  product.Handler.status
    (snd (product.Handler.Update (fun _ => None) Scenarios.penv Scenarios.menu
            "not-an-id" (Some Scenarios.new_price) (gin.request [] "")))
  = Some 500.
Proof.
  destruct (product_handler_Update_status (fun _ => None) Scenarios.penv
              Scenarios.menu "not-an-id" Scenarios.new_price
              (gin.request [] "") eq_refl)
    as (_ & _ & H500 & _).
  apply H500. left. intros id H. vm_compute in H. discriminate H.
Defined.

Lemma product_handler_List_lenient_witness :
  exists r,
    product.Handler.List_ Scenarios.any_text Scenarios.unsorted Scenarios.menu
      [("page", "abc"); ("page_size", "1000")] (gin.request [] "")
    = resp.Success (gin.request [] "") resp.StatusOK (product.Listing r) /\
    product.Page r = 1 /\ product.PageSize r = 50.
Proof.
  destruct (product_handler_List_lenient Scenarios.any_text Scenarios.unsorted
              (fun _ _ l => Permutation_refl l) Scenarios.menu
              [("page", "abc"); ("page_size", "1000")] (gin.request [] ""))
    as (r & Hr & _ & _ & _ & Hp & _ & Hs).
  - intros n H. vm_compute in H. discriminate H.
  - exists r. split; [exact Hr|]. split.
    + apply Hp. reflexivity.
    + apply (Hs 1000); [reflexivity|lia].
Defined.

(* ===================================================================== *)
(** ** The auth handlers                                                  *)
(* ===================================================================== *)

Section AuthHandlerLaws.
Import auth.
Context {Str : strings.Strings}.
Variable s : Service.
Variable validate_login : authhandler.LoginRequest -> option (list (string * string)).
Variable validate_refresh : authhandler.RefreshRequest -> option (list (string * string)).

(** The errors of [issueTokens] are none of the two that the handlers
    answer with a 401, and come with the collection as it was. *)
Lemma issueTokens_error_kind (env : Env) (col col' : list RefreshToken)
      (userID : ObjectID) (email : string) (err : error) :
  issueTokens s env col userID email = (col', inl err) ->
  errors_Is err ErrInvalidRefreshToken = false
  /\ errors_Is err ErrInvalidCredentials = false.
Proof.
  unfold issueTokens. rewrite GenerateAccessToken_eq.
  destruct (rand_token env) as [r|]; cbn [authjwt.GenerateRefreshTokenString].
  - unfold CreateRefreshToken, mongo.InsertOne.
    destruct (existsb _ col).
    + intros [= <- <-]. split; reflexivity.
    + discriminate.
  - intros [= <- <-]. split; reflexivity.
Qed.

(** X28. The answer of [POST /auth/refresh] to a request that binds and
    validates is 200, 401 or 500.  A secret that is dead (unknown, or with
    every record that holds it revoked or expired) gets the 401 with the
    message "invalid or expired refresh token", the same for each of the
    reasons; every 401 is that answer and leaves the collection as it
    was; and a 200 carries a Bearer token pair and adds one record. *)
Theorem auth_handler_Refresh_status (env : Env) (col : list RefreshToken)
        (req : authhandler.RefreshRequest) (c : gin.Context TokenResponse) :
  validate_refresh req = None ->
  let out := authhandler.Refresh validate_refresh s env col (Some req) c in
  let st := authhandler.status (snd out) in
  (dead (now_refresh env) col (authhandler.RefreshToken req) ->
   out = (col, resp.Unauthorized c "invalid or expired refresh token")) /\
  (st = Some 401 ->
   out = (col, resp.Unauthorized c "invalid or expired refresh token")) /\
  (st = Some 200 ->
   exists tokens,
     snd out = resp.Success c resp.StatusOK tokens /\
     TokenType tokens = "Bearer" /\
     List.length (fst out) = S (List.length col)) /\
  (st = Some 200 \/ st = Some 401 \/ st = Some 500).
Proof.
  intros Hv. cbv zeta. unfold authhandler.Refresh. rewrite Hv.
  split.
  { intros Hdead. rewrite (Refresh_dead s env col _ Hdead). reflexivity. }
  unfold Refresh. rewrite FindRefreshToken_total.
  destruct (find _ col) as [rt|]; [|cbn; repeat split; try discriminate; auto].
  destruct (After (now_refresh env) (ExpiresAt rt));
    [cbn; repeat split; try discriminate; auto|].
  unfold RevokeRefreshToken.
  set (col1 := mongo.UpdateOne col _ set_revoked).
  assert (Hlen : List.length col1 = List.length col).
  { unfold col1.
    rewrite <- (length_map ID), <- (length_map ID col).
    f_equal. apply (UpdateOne_keys ID set_revoked (fun _ => eq_refl)). }
  destruct (issueTokens s env col1 (UserID rt) "") as [col' [err|tokens]] eqn:Hi.
  - destruct (issueTokens_error_kind _ _ _ _ _ _ Hi) as [-> _].
    cbn. repeat split; try discriminate; auto.
  - apply (issueTokens_inr s) in Hi.
    destruct Hi as (r & _ & _ & -> & ->).
    cbn. repeat split; try discriminate; auto.
    intros _. eexists. split; [reflexivity|]. split; [reflexivity|].
    rewrite length_app, Hlen. cbn. lia.
Qed.

(** X29. The answer of [POST /auth/login] to a request that binds and
    validates is 200, 401 or 500.  It is 401 exactly when
    [Authenticate] refuses the e-mail and password; the 401 is then
    the same answer, with the message "invalid email or password",
    whether the e-mail is unknown or the password wrong, and nothing is
    written. *)
Theorem auth_handler_Login_status (env : Env) (db : DB)
        (req : authhandler.LoginRequest) (c : gin.Context TokenResponse) :
  validate_login req = None ->
  let out := authhandler.Login validate_login s env db (Some req) c in
  let st := authhandler.status (snd out) in
  (st = Some 401 <->
   forall u, user.Authenticate (users db) (authhandler.Email req)
               (authhandler.Password req) <> inr u) /\
  (st = Some 401 ->
   out = (db, resp.Unauthorized c "invalid email or password")) /\
  (st = Some 200 \/ st = Some 401 \/ st = Some 500).
Proof.
  intros Hv. cbv zeta. unfold authhandler.Login. rewrite Hv. unfold Login.
  destruct (user.Authenticate (users db) (authhandler.Email req)
              (authhandler.Password req)) as [err|u] eqn:Ha.
  - apply Authenticate_inl in Ha. subst err.
    cbn. repeat split; try discriminate; auto.
  - destruct (issueTokens s env (refresh_tokens db) (user.ID u) (user.Email u))
      as [col' [err|tokens]] eqn:Hi.
    + destruct (issueTokens_error_kind _ _ _ _ _ _ Hi) as [_ ->].
      cbn. repeat split; try discriminate; auto.
      intros H. now elim (H u).
    + cbn. repeat split; try discriminate; auto.
      intros H. now elim (H u).
Qed.

End AuthHandlerLaws.

Lemma auth_handler_Refresh_status_witness :
  authhandler.Refresh (fun _ => None) Examples.svc (Examples.env_n 1)
    Examples.store_revoked
    (Some {| authhandler.RefreshToken := Examples.secretA |}) (gin.request [] "")
  = (Examples.store_revoked,
     resp.Unauthorized (gin.request [] "") "invalid or expired refresh token").
Proof.
  destruct (auth_handler_Refresh_status Examples.svc (fun _ => None)
              (Examples.env_n 1) Examples.store_revoked
              {| authhandler.RefreshToken := Examples.secretA |}
              (gin.request [] "") eq_refl) as [H _].
  apply H. intros rt Hin _. destruct Hin as [<-|[]]. left. reflexivity.
Defined.

Lemma auth_handler_Login_status_witness :
  authhandler.status
    (snd (authhandler.Login (S := strings.ASCII) (fun _ => None) Examples.svc
            (Examples.env_n 1) Examples.db0
            (Some {| authhandler.Email := "test@example.com";
                     authhandler.Password := "wrong-password" |})
            (gin.request [] "")))
  = Some 401.
Proof.
  destruct (auth_handler_Login_status (Str := strings.ASCII) Examples.svc
              (fun _ => None) (Examples.env_n 1) Examples.db0
              {| authhandler.Email := "test@example.com";
                 authhandler.Password := "wrong-password" |}
              (gin.request [] "") eq_refl)
    as [[_ H] _].
  apply H. intros u Hu. vm_compute in Hu. discriminate Hu.
Defined.
